(** * ai_english_query: the database connector, the SQL clean-up, the result
      grid and the speech listener, embedded from the Python sources.

    - [src/aiEnglishQuery.py]   : [clean_ai_response], [load_to_tkinter_grid],
                                  [on_submit], [on_clear]
    - [src/mariadb_connector.py]: class [MariaDBConnection]
    - [src/stt_listener.py]     : class [STTListener]                      *)

From Stdlib Require Import List ZArith NArith Bool Lia String Ascii.
Import ListNotations.
Local Open Scope Z_scope.

(* ===================================================================== *)
(** ** Python strings                                                     *)
(* ===================================================================== *)

(** A Python [str] is a sequence of Unicode code points. *)
Module PyStr.

Definition char := N.
Definition str := list char.

(** An ASCII literal as a [str]. *)
Definition lit (s : string) : str := map N_of_ascii (list_ascii_of_string s).

Definition LF : char := 10%N.
Definition BACKTICK : char := 96%N.

(** [str.isspace] on one code point: the characters [str.strip()] removes. *)
Definition isspace (c : char) : bool :=
  ((9 <=? c) && (c <=? 13) || (28 <=? c) && (c <=? 32)
   || (c =? 133) || (c =? 160) || (c =? 5760)
   || (8192 <=? c) && (c <=? 8202)
   || (c =? 8232) || (c =? 8233) || (c =? 8239) || (c =? 8287)
   || (c =? 12288))%N.

(** The class [[a-zA-Z]] of the regular expressions. *)
Definition is_ascii_letter (c : char) : bool :=
  ((65 <=? c) && (c <=? 90) || (97 <=? c) && (c <=? 122))%N.

Fixpoint dropwhile (p : char -> bool) (s : str) : str :=
  match s with
  | [] => []
  | c :: s' => if p c then dropwhile p s' else s
  end.

Definition lstrip (s : str) : str := dropwhile isspace s.
Definition rstrip (s : str) : str := rev (dropwhile isspace (rev s)).

(** [s.strip()] *)
Definition strip (s : str) : str := rstrip (lstrip s).

(** [s.lower()] on the ASCII letters (the only ones the column test needs). *)
Definition lower_char (c : char) : char :=
  if ((65 <=? c) && (c <=? 90))%N then (c + 32)%N else c.
Definition lower (s : str) : str := map lower_char s.

Definition str_eqb (a b : str) : bool :=
  if list_eq_dec N.eq_dec a b then true else false.

(** Truth value of a string: non-empty. *)
Definition truthy (s : str) : bool :=
  match s with [] => false | _ => true end.

(** Whether three consecutive backticks occur somewhere in [s]. *)
Fixpoint has_fence (s : str) : bool :=
  match s with
  | a :: ((b :: c :: _) as s') =>
      ((a =? BACKTICK) && (b =? BACKTICK) && (c =? BACKTICK))%N || has_fence s'
  | _ => false
  end.

(** [s.startswith(p)] and [s.endswith(p)] *)
Fixpoint startswith (p s : str) : bool :=
  match p, s with
  | [], _ => true
  | a :: p', b :: s' => (a =? b)%N && startswith p' s'
  | _ :: _, [] => false
  end.

Definition endswith (p s : str) : bool := startswith (rev p) (rev s).

(** The code fence, three backticks. *)
Definition FENCE : str := [BACKTICK; BACKTICK; BACKTICK].

End PyStr.
Import PyStr.

(* ===================================================================== *)
(** ** aiEnglishQuery.clean_ai_response                                   *)
(* ===================================================================== *)

(** [re.sub(r'^```[a-zA-Z]*\n?', '', s)]: without [re.MULTILINE] the anchor
    matches at position 0 only, so at most one match is replaced: three
    backticks, the longest run of ASCII letters, one optional line feed. *)
Definition sub_opening_fence (s : str) : str :=
  if startswith FENCE s then
    match dropwhile is_ascii_letter (skipn 3 s) with
    | c :: rest => if (c =? LF)%N then rest else c :: rest
    | [] => []
    end
  else s.

(** [re.sub(r'\n?```$', '', s)]: [$] matches at the end of the string and
    just before a line feed that ends the string; the leftmost match takes
    the optional line feed in front of the backticks. *)
Definition sub_closing_fence (s : str) : str :=
  let n := List.length s in
  if endswith (LF :: FENCE) s then firstn (n - 4)%nat s
  else if endswith FENCE s then firstn (n - 3)%nat s
  else if endswith (LF :: FENCE ++ [LF]) s then firstn (n - 5)%nat s ++ [LF]
  else if endswith (FENCE ++ [LF]) s then firstn (n - 4)%nat s ++ [LF]
  else s.

(** aiEnglishQuery.py, lines 92-97. *)
Definition clean_ai_response (ai_response : str) : str :=
  let cleaned := sub_opening_fence (strip ai_response) in
  let cleaned := sub_closing_fence (strip cleaned) in
  let response_text := cleaned in
  response_text.

(* ===================================================================== *)
(** ** Exceptions and the state-and-exception monad                       *)
(* ===================================================================== *)

(** [mysql.connector.Error] values. *)
Record Error := mkError { errno : Z }.

(** The exceptions the modelled code raises or lets through. *)
Inductive exn :=
| ValueError (msg : string)
| ConnectionError (msg : string)
| RuntimeError (msg : string)
| AttributeError (msg : string)
| TypeError (msg : string)
| DbError (e : Error).

Inductive result (A : Type) :=
| Return (a : A)
| Raise (e : exn).
Arguments Return {A} a.
Arguments Raise {A} e.

(** A computation over a state [S] that returns or raises; the state
    survives a raise, as a Python object does. *)
Definition M (S A : Type) : Type := S -> result A * S.

Definition ret {S A} (a : A) : M S A := fun s => (Return a, s).
Definition raise {S A} (e : exn) : M S A := fun s => (Raise e, s).

Definition bind {S A B} (m : M S A) (k : A -> M S B) : M S B :=
  fun s => match m s with
           | (Return a, s') => k a s'
           | (Raise e, s') => (Raise e, s')
           end.

(** [try: m except Exception as e: h e] *)
Definition try_except {S A} (m : M S A) (h : exn -> M S A) : M S A :=
  fun s => match m s with
           | (Return a, s') => (Return a, s')
           | (Raise e, s') => h e s'
           end.

Definition get {S} : M S S := fun s => (Return s, s).

Declare Scope py_scope.
Delimit Scope py_scope with py.
Notation "x <- m ;; k" := (bind m (fun x => k))
  (at level 61, m at next level, right associativity) : py_scope.
Notation "m ;; k" := (bind m (fun _ => k))
  (at level 61, right associativity) : py_scope.

(* ===================================================================== *)
(** ** The driver, as the connector uses it                               *)
(* ===================================================================== *)

(** A connection object handed out by [mysql.connector.connect]. *)
Definition handle := nat.

(** A cursor, bound to the connection that created it. *)
Inductive Cursor := CursorOf (h : handle).

(** A database cell. *)
Inductive value :=
| VNull
| VInt (z : Z)
| VStr (s : str).

(** One entry of [cursor.description]; [desc[0]] is the column name. *)
Record ColumnDesc := { col_name : str; type_code : Z }.

(** What a cursor holds after a statement executed. *)
Record ResultSet := {
  with_rows : bool;
  description : option (list ColumnDesc);
  unread : list (list value);
  rowcount : Z
}.

(** [self.config] *)
Record Config := {
  host : str;
  port : Z;
  user : str;
  password : str;
  database : option str;
  autocommit : bool;
  charset : str;
  use_unicode : bool;
  get_warnings : bool;
  raise_on_warnings : bool;
  connection_timeout : Z
}.

(** A Python [dict] with string keys: insertion order is kept, assigning
    to a key that is present replaces its value in place. *)
Definition Dict := list (str * value).

Fixpoint dict_set (d : Dict) (k : str) (v : value) : Dict :=
  match d with
  | [] => [(k, v)]
  | (k', v') :: d' =>
      if str_eqb k' k then (k', v) :: d' else (k', v') :: dict_set d' k v
  end.

(** [dict(pairs)] *)
Definition dict_of (pairs : list (str * value)) : Dict :=
  fold_left (fun d kv => dict_set d (fst kv) (snd kv)) pairs [].

(** [list(d.keys())] *)
Definition keys (d : Dict) : list str := map fst d.

(** [d.get(k, default)] *)
Fixpoint dict_get (d : Dict) (k : str) (default : value) : value :=
  match d with
  | [] => default
  | (k', v') :: d' => if str_eqb k' k then v' else dict_get d' k default
  end.

(** What the connector does to the outside, in order. *)
Inductive Event :=
| EConnect (cfg : Config) (r : option handle)
| ECursor (h : handle) (ok : bool)
| EClose (h : handle)
| ESleep (d : Z)
| EExecute (c : handle) (sql : str)
| EFetchall (c : handle)
| EFetchmany (c : handle) (size : Z)
| ECommit (h : handle)
| ERollback (h : handle)
| EYield (row : Dict).

(** The driver side: which sessions are open, the next connection object,
    how many calls that can raise were made, and the trace. *)
Record World := {
  tick : nat;
  live : list handle;
  next_handle : handle;
  log : list Event
}.

(** The environment decides which driver call raises ([raises n] for the
    [n]-th call that can raise: [connect], [cursor], [execute], [fetchall],
    [fetchmany], [commit], [rollback]) and what a statement produces.
    [is_connected] and [close] report or clean up and return normally. *)
Record Oracle := {
  raises : nat -> option Error;
  answer : nat -> str -> ResultSet
}.

(** An instance of [MariaDBConnection]. *)
Record MariaDBConnection := {
  config : Config;
  reconnect_attempts : Z;
  reconnect_delay : Z;
  connection : option handle;
  cursor : option Cursor
}.

Definition set_connection (c : option handle) (self : MariaDBConnection) :=
  {| config := config self;
     reconnect_attempts := reconnect_attempts self;
     reconnect_delay := reconnect_delay self;
     connection := c;
     cursor := cursor self |}.

Definition set_cursor (c : option Cursor) (self : MariaDBConnection) :=
  {| config := config self;
     reconnect_attempts := reconnect_attempts self;
     reconnect_delay := reconnect_delay self;
     connection := connection self;
     cursor := c |}.

Definition emit (e : Event) (w : World) : World :=
  {| tick := tick w; live := live w; next_handle := next_handle w;
     log := log w ++ [e] |}.

Definition bump (w : World) : World :=
  {| tick := S (tick w); live := live w; next_handle := next_handle w;
     log := log w |}.

Definition open_session (w : World) : World :=
  {| tick := tick w; live := next_handle w :: live w;
     next_handle := S (next_handle w); log := log w |}.

Definition drop_session (h : handle) (w : World) : World :=
  {| tick := tick w; live := filter (fun x => negb (Nat.eqb x h)) (live w);
     next_handle := next_handle w; log := log w |}.

(** [range(n)] *)
Definition range (n : Z) : list Z := map Z.of_nat (seq 0 (Z.to_nat n)).

(* ===================================================================== *)
(** ** class MariaDBConnection (mariadb_connector.py)                     *)
(* ===================================================================== *)

Section Connector.

Variable drv : Oracle.

(** The object and the driver side it talks to. *)
Definition St : Type := MariaDBConnection * World.

Local Open Scope py_scope.

Definition get_self : M St MariaDBConnection := fun s => (Return (fst s), s).
Definition update_self (f : MariaDBConnection -> MariaDBConnection) : M St unit :=
  fun s => (Return tt, (f (fst s), snd s)).
Definition update_world (f : World -> World) : M St unit :=
  fun s => (Return tt, (fst s, f (snd s))).

(** A driver call that can raise: the environment decides, the call is
    counted. *)
Definition fallible : M St nat :=
  fun s => match raises drv (tick (snd s)) with
           | Some e => (Raise (DbError e), (fst s, bump (snd s)))
           | None => (Return (tick (snd s)), (fst s, bump (snd s)))
           end.

(** [connection.is_connected()]: what the client library answers.  In
    this model a session ends only when the connector closes it; that the
    server can end one, and that the driver may ask the server before it
    answers, is left out. *)
Definition is_connected (h : handle) : M St bool :=
  fun s => (Return (existsb (Nat.eqb h) (live (snd s))), s).

(** [connection.close()] *)
Definition conn_close (h : handle) : M St unit :=
  update_world (fun w => emit (EClose h) (drop_session h w)).

(** [mysql.connector.connect], called with the entries of [self.config]. *)
Definition mysql_connect (cfg : Config) : M St handle :=
  try_except
    (fallible ;;
     s <- get ;;
     let h := next_handle (snd s) in
     update_world (fun w => emit (EConnect cfg (Some h)) (open_session w)) ;;
     ret h)
    (fun e => update_world (emit (EConnect cfg None)) ;; raise e).

(** [connection.cursor()] *)
Definition conn_cursor (h : handle) : M St Cursor :=
  try_except
    (fallible ;; update_world (emit (ECursor h true)) ;; ret (CursorOf h))
    (fun e => update_world (emit (ECursor h false)) ;; raise e).

(** [time.sleep(d)] *)
Definition time_sleep (d : Z) : M St unit :=
  if d <? 0 then raise (ValueError "sleep length must be non-negative")
  else update_world (emit (ESleep d)).

(** Lines 55-64: the body of the [try] of one attempt. *)
Definition connect_attempt : M St bool :=
  self <- get_self ;;
  alive <- match connection self with
           | Some h => is_connected h
           | None => ret false
           end ;;
  if alive then ret true
  else
    match connection self with
    | Some h => conn_close h
    | None => ret tt
    end ;;
    h <- mysql_connect (config self) ;;
    update_self (set_connection (Some h)) ;;
    c <- conn_cursor h ;;
    update_self (set_cursor (Some c)) ;;
    ret true.

(** Lines 53-73: [for attempt in range(...)] with its [except Error]. *)
Fixpoint connect_loop (attempts : list Z) : M St bool :=
  match attempts with
  | [] => ret false
  | attempt :: rest =>
      try_except connect_attempt
        (fun e =>
           match e with
           | DbError err =>
               self <- get_self ;;
               if attempt <? reconnect_attempts self then
                 time_sleep (reconnect_delay self) ;;
                 connect_loop rest
               else ret false
           | _ => raise e
           end)
  end.

(** [MariaDBConnection._connect] *)
Definition _connect : M St bool :=
  self <- get_self ;;
  connect_loop (range (reconnect_attempts self + 1)).

(** [self.connection.rollback()]: a round trip to the server, which can
    raise like any other. *)
Definition conn_rollback : M St unit :=
  self <- get_self ;;
  match connection self with
  | Some h => update_world (emit (ERollback h)) ;; fallible ;; ret tt
  | None => raise (AttributeError "'NoneType' object has no attribute 'rollback'")
  end.

(** [self.connection.commit()] *)
Definition conn_commit : M St unit :=
  self <- get_self ;;
  match connection self with
  | Some h => update_world (emit (ECommit h)) ;; fallible ;; ret tt
  | None => raise (AttributeError "'NoneType' object has no attribute 'commit'")
  end.

(** [MariaDBConnection.get_cursor], a context manager: [body] is the block
    of the [with] statement, run on the yielded [self.cursor].  When the
    rollback of the handler raises, that exception leaves the handler in
    place of the one caught. *)
Definition get_cursor {A} (body : option Cursor -> M St A) : M St A :=
  ok <- _connect ;;
  if negb ok then raise (ConnectionError "Failed to connect to MariaDB")
  else
    self <- get_self ;;
    try_except (body (cursor self))
      (fun e => conn_rollback ;; raise e).

(** [cursor.execute(sql)] *)
Definition cursor_execute (cur : option Cursor) (sql : str) : M St ResultSet :=
  match cur with
  | None => raise (AttributeError "'NoneType' object has no attribute 'execute'")
  | Some (CursorOf c) =>
      update_world (emit (EExecute c sql)) ;;
      t <- fallible ;;
      ret (answer drv t sql)
  end.

(** [cursor.fetchall()] *)
Definition cursor_fetchall (cur : Cursor) (rs : ResultSet) : M St (list (list value)) :=
  let 'CursorOf c := cur in
  update_world (emit (EFetchall c)) ;;
  fallible ;;
  ret (unread rs).

(** [cursor.fetchmany(size)]: for [size] from 1 up the driver hands out
    [size] unread rows, or those that are left.  For other sizes the
    cursors of the driver differ; the model takes the pure-Python one
    ([size or arraysize] rows with [arraysize] 1, none for a negative
    size), and the statements on batches below are for sizes from 1 up. *)
Definition fetch_count (size : Z) : nat :=
  if size =? 0 then 1%nat else Z.to_nat size.

Definition cursor_fetchmany (cur : Cursor) (size : Z) (pending : list (list value))
  : M St (list (list value) * list (list value)) :=
  let 'CursorOf c := cur in
  update_world (emit (EFetchmany c size)) ;;
  fallible ;;
  ret (firstn (fetch_count size) pending, skipn (fetch_count size) pending).

(** [[desc[0] for desc in cursor.description]] *)
Definition column_names (rs : ResultSet) : M St (list str) :=
  match description rs with
  | Some descs => ret (map col_name descs)
  | None => raise (TypeError "'NoneType' object is not iterable")
  end.

(** [cursor.with_rows and cursor.description] as a condition. *)
Definition has_result_set (rs : ResultSet) : bool :=
  with_rows rs &&
  match description rs with
  | Some (_ :: _) => true
  | _ => false
  end.

Definition is_blank (sql : str) : bool := negb (truthy (strip sql)).

(** [MariaDBConnection.execute] *)
Definition execute (sql : str) : M St (list Dict) :=
  if is_blank sql then raise (ValueError "Empty SQL statement")
  else
    get_cursor (fun cur =>
      rs <- cursor_execute cur sql ;;
      if has_result_set rs then
        columns <- column_names rs ;;
        match cur with
        | Some c =>
            rows <- cursor_fetchall c rs ;;
            ret (map (fun row => dict_of (combine columns row)) rows)
        | None => raise (AttributeError "'NoneType' object has no attribute 'fetchall'")
        end
      else ret []).

(** [MariaDBConnection.execute_modify] *)
Definition execute_modify (sql : str) : M St Z :=
  if is_blank sql then raise (ValueError "Empty SQL statement")
  else
    get_cursor (fun cur =>
      rs <- cursor_execute cur sql ;;
      conn_commit ;;
      ret (rowcount rs)).

(** The [while True] loop of [query_generator]; every iteration that does
    not break consumes at least one unread row, so [fuel] above the number
    of unread rows is never used up. *)
Fixpoint fetch_loop (fuel : nat) (c : Cursor) (chunk_size : Z) (rs : ResultSet)
    (pending : list (list value)) : M St (list Dict) :=
  match fuel with
  | O => ret []
  | S fuel' =>
      chunk <- cursor_fetchmany c chunk_size pending ;;
      match fst chunk with
      | [] => ret []
      | rows =>
          columns <- column_names rs ;;
          let yielded := map (fun row => dict_of (combine columns row)) rows in
          update_world (fun w => fold_left (fun w d => emit (EYield d) w) yielded w) ;;
          more <- fetch_loop fuel' c chunk_size rs (snd chunk) ;;
          ret (yielded ++ more)
      end
  end.

(** [MariaDBConnection.query_generator], iterated to its end: the rows it
    yields, in order; the yields are in the trace as well, so the rows
    handed out before a raise stay visible. *)
Definition query_generator (sql : str) (chunk_size : Z) : M St (list Dict) :=
  get_cursor (fun cur =>
    rs <- cursor_execute cur sql ;;
    match cur with
    | Some c => fetch_loop (S (List.length (unread rs))) c chunk_size rs (unread rs)
    | None => raise (AttributeError "'NoneType' object has no attribute 'fetchmany'")
    end).

(** [MariaDBConnection.close] *)
Definition close : M St unit :=
  self <- get_self ;;
  match connection self with
  | Some h =>
      alive <- is_connected h ;;
      if alive then conn_close h else ret tt
  | None => ret tt
  end.

End Connector.

(** [MariaDBConnection.__init__] *)
Definition __init__ (host : str) (port : Z) (user password : str)
    (database : option str) (autocommit : bool) (charset : str)
    (reconnect_attempts reconnect_delay : Z) : MariaDBConnection :=
  {| config := {| host := host; port := port; user := user;
                  password := password; database := database;
                  autocommit := autocommit; charset := charset;
                  use_unicode := true; get_warnings := true;
                  raise_on_warnings := false; connection_timeout := 10 |};
     reconnect_attempts := reconnect_attempts;
     reconnect_delay := reconnect_delay;
     connection := None;
     cursor := None |}.


(* ===================================================================== *)
(** ** Reading a trace and a connector state                              *)
(* ===================================================================== *)

(** The exception [execute] and [execute_modify] raise on blank input. *)
Definition EMPTY_SQL : exn := ValueError "Empty SQL statement".

(** The configuration part of a connector: what [__init__] was given. *)
Definition same_configuration (a b : MariaDBConnection) : Prop :=
  config a = config b /\
  reconnect_attempts a = reconnect_attempts b /\
  reconnect_delay a = reconnect_delay b.

(** The object holds a session that is open on the driver side. *)
Definition holds_live_session (s : MariaDBConnection * World) : Prop :=
  exists h, connection (fst s) = Some h /\ In h (live (snd s)).






Definition is_execute (e : Event) : bool :=
  match e with EExecute _ _ => true | _ => false end.

Definition count (p : Event -> bool) (l : list Event) : nat :=
  List.length (filter p l).




(* ===================================================================== *)
(** ** class aiEnglishQuery: the result grid and the submit handler       *)
(* ===================================================================== *)

(** The options [Treeview.column] sets. *)
Record ColumnOpts := {
  anchor : str;
  width : Z;
  minwidth : Z;
  stretch : bool
}.

(** [self.result_tree]: the column identifiers, the heading text and the
    options of each column, and the [values] of the items from top to
    bottom. *)
Record Treeview := {
  tree_columns : list str;
  headings : list (str * str);
  column_opts : list (str * ColumnOpts);
  items : list (list value)
}.

(** Assigning to a key of an association list, as for [Dict]. *)
Fixpoint assoc_set {V} (l : list (str * V)) (k : str) (v : V) : list (str * V) :=
  match l with
  | [] => [(k, v)]
  | (k', v') :: l' =>
      if str_eqb k' k then (k', v) :: l' else (k', v') :: assoc_set l' k v
  end.

Fixpoint assoc_get {V} (l : list (str * V)) (k : str) : option V :=
  match l with
  | [] => None
  | (k', v') :: l' => if str_eqb k' k then Some v' else assoc_get l' k
  end.

(** [tree.delete(item)] for every item of [tree.get_children()]. *)
Definition delete_children (t : Treeview) : Treeview :=
  {| tree_columns := tree_columns t; headings := headings t;
     column_opts := column_opts t; items := [] |}.

(** [tree["columns"] = cols]: Tk builds the columns anew, without heading
    text and with default options. *)
Definition configure_columns (cols : list str) (t : Treeview) : Treeview :=
  {| tree_columns := cols; headings := []; column_opts := [];
     items := items t |}.

(** [tree.heading(col, text=txt)] *)
Definition heading (col txt : str) (t : Treeview) : Treeview :=
  {| tree_columns := tree_columns t;
     headings := assoc_set (headings t) col txt;
     column_opts := column_opts t; items := items t |}.

(** [tree.column(col, anchor=..., width=..., minwidth=..., stretch=...)] *)
Definition column (col : str) (o : ColumnOpts) (t : Treeview) : Treeview :=
  {| tree_columns := tree_columns t; headings := headings t;
     column_opts := assoc_set (column_opts t) col o; items := items t |}.

(** [tree.insert("", "end", values=vals)] *)
Definition insert_end (vals : list value) (t : Treeview) : Treeview :=
  {| tree_columns := tree_columns t; headings := headings t;
     column_opts := column_opts t; items := items t ++ [vals] |}.

Inductive Status :=
| Ready
| NothingToSubmit
| Submitted (chars : nat)
| Cleared.

(** The widgets and attributes of the frame that the handlers touch.
    [result_frame_shown] is whether the result frame is managed by the
    grid ([grid()]) or withdrawn ([grid_remove()]); [master_height] and
    [linespace] are what Tk reports for the window and the font. *)
Record App := {
  db : option MariaDBConnection;
  text : str;
  status_var : Status;
  warnings : list (string * string);
  result_tree : Treeview;
  result_frame_shown : bool;
  text_height : Z;
  row0_minsize : Z;
  master_height : option Z;
  linespace : Z
}.

Definition set_db (c : option MariaDBConnection) (a : App) : App :=
  {| db := c; text := text a; status_var := status_var a;
     warnings := warnings a; result_tree := result_tree a;
     result_frame_shown := result_frame_shown a;
     text_height := text_height a; row0_minsize := row0_minsize a;
     master_height := master_height a; linespace := linespace a |}.

Definition set_text (s : str) (a : App) : App :=
  {| db := db a; text := s; status_var := status_var a;
     warnings := warnings a; result_tree := result_tree a;
     result_frame_shown := result_frame_shown a;
     text_height := text_height a; row0_minsize := row0_minsize a;
     master_height := master_height a; linespace := linespace a |}.

Definition set_status (st : Status) (a : App) : App :=
  {| db := db a; text := text a; status_var := st;
     warnings := warnings a; result_tree := result_tree a;
     result_frame_shown := result_frame_shown a;
     text_height := text_height a; row0_minsize := row0_minsize a;
     master_height := master_height a; linespace := linespace a |}.

Definition showwarning (title msg : string) (a : App) : App :=
  {| db := db a; text := text a; status_var := status_var a;
     warnings := warnings a ++ [(title, msg)]; result_tree := result_tree a;
     result_frame_shown := result_frame_shown a;
     text_height := text_height a; row0_minsize := row0_minsize a;
     master_height := master_height a; linespace := linespace a |}.

Definition set_result_tree (t : Treeview) (a : App) : App :=
  {| db := db a; text := text a; status_var := status_var a;
     warnings := warnings a; result_tree := t;
     result_frame_shown := result_frame_shown a;
     text_height := text_height a; row0_minsize := row0_minsize a;
     master_height := master_height a; linespace := linespace a |}.

(** [self.result_frame.grid()] and [self.result_frame.grid_remove()] *)
Definition set_result_frame_shown (b : bool) (a : App) : App :=
  {| db := db a; text := text a; status_var := status_var a;
     warnings := warnings a; result_tree := result_tree a;
     result_frame_shown := b;
     text_height := text_height a; row0_minsize := row0_minsize a;
     master_height := master_height a; linespace := linespace a |}.

Definition set_text_height (h : Z) (a : App) : App :=
  {| db := db a; text := text a; status_var := status_var a;
     warnings := warnings a; result_tree := result_tree a;
     result_frame_shown := result_frame_shown a;
     text_height := h; row0_minsize := row0_minsize a;
     master_height := master_height a; linespace := linespace a |}.

Definition set_row0_minsize (m : Z) (a : App) : App :=
  {| db := db a; text := text a; status_var := status_var a;
     warnings := warnings a; result_tree := result_tree a;
     result_frame_shown := result_frame_shown a;
     text_height := text_height a; row0_minsize := m;
     master_height := master_height a; linespace := linespace a |}.

(** [aiEnglishQuery._on_root_resize].  For a positive height the products
    [total_height * 0.25] and [total_height * 0.5] are exact and [int]
    truncates them to the floor quotients by 4 and by 2.  Exceptions
    inside are swallowed: the [AttributeError] of a missing master and, in
    the branch of a withdrawn frame, the [UnboundLocalError] of reading
    [current_minsize], which is not assigned there. *)
Definition _on_root_resize (a : App) : App :=
  match master_height a with
  | None => a
  | Some total_height =>
      if total_height <=? 0 then a
      else
        let max_pixels := total_height / 4 in
        let line_height := if linespace a =? 0 then 1 else linespace a in
        let max_lines := Z.max 1 (max_pixels / line_height) in
        let min_lines := 2 in
        let desired_lines := Z.max min_lines max_lines in
        let a1 := if text_height a =? desired_lines then a
                  else set_text_height desired_lines a in
        let min_grid_pixels := total_height / 2 in
        if result_frame_shown a1 then
          if row0_minsize a1 =? min_grid_pixels then a1
          else set_row0_minsize min_grid_pixels a1
        else a1
  end.

(** The width [load_to_tkinter_grid] gives a column. *)
Definition column_width (col : str) : Z :=
  if str_eqb (lower col) (lit "name") then 200 else 120.

(** [[row.get(col, "") for col in columns]] *)
Definition row_values (columns : list str) (row : Dict) : list value :=
  map (fun col => dict_get row col (VStr [])) columns.

(** [aiEnglishQuery.load_to_tkinter_grid] *)
Definition load_to_tkinter_grid (results : list Dict) (a : App) : App :=
  match results with
  | [] => a
  | first :: _ =>
      let tree := delete_children (result_tree a) in
      let columns := keys first in
      let tree := configure_columns columns tree in
      let tree :=
        fold_left
          (fun t col =>
             let t := heading col col t in
             let width := column_width col in
             column col {| anchor := lit "w"; width := width;
                           minwidth := width; stretch := false |} t)
          columns tree in
      let tree :=
        fold_left (fun t row => insert_end (row_values columns row) t)
          results tree in
      let a := set_result_tree tree a in
      let a := set_result_frame_shown true a in
      _on_root_resize a
  end.

Section Orchestrator.

Variable drv : Oracle.

(** [self.payload.send_message]: the translator, an opaque function from
    the request to the reply. *)
Variable send_message : str -> str.

(** The frame and the driver side. *)
Definition AppSt : Type := App * World.

(** [aiEnglishQuery.generate_sql] *)
Definition generate_sql (user_msg : str) : str :=
  let reply := send_message user_msg in
  clean_ai_response reply.

(** [aiEnglishQuery.execute_sql] *)
Definition execute_sql (sql : str) : M AppSt (list Dict) :=
  fun s =>
    match db (fst s) with
    | None =>
        (Raise (RuntimeError
                  "No database connection configured. Call initialize_connection first."),
         s)
    | Some conn =>
        let out := execute drv sql (conn, snd s) in
        (fst out, (set_db (Some (fst (snd out))) (fst s), snd (snd out)))
    end.

(** [aiEnglishQuery.on_submit] *)
Definition on_submit : M AppSt unit :=
  fun s =>
    let content := text (fst s) in
    if negb (truthy (strip content)) then
      (Return tt,
       (set_status NothingToSubmit
          (showwarning "Empty" "Please enter some text before submitting."
             (fst s)),
        snd s))
    else
      let a := set_status (Submitted (List.length content)) (fst s) in
      let sql := generate_sql content in
      match execute_sql sql (a, snd s) with
      | (Return results, s') =>
          let a := load_to_tkinter_grid results (fst s') in
          let a := set_result_frame_shown true a in
          (Return tt, (a, snd s'))
      | (Raise e, s') => (Raise e, s')
      end.

End Orchestrator.

(** [aiEnglishQuery.on_clear] *)
Definition on_clear (a : App) : App :=
  let a := set_text [] a in
  let a := set_status Cleared a in
  let a := set_result_frame_shown false a in
  _on_root_resize a.

(** The frame as [create_widgets] leaves it: the tree has the two columns
    it is built with, the result frame is withdrawn. *)
Definition create_widgets (conn : option MariaDBConnection)
    (height : option Z) (line : Z) : App :=
  {| db := conn;
     text := [];
     status_var := Ready;
     warnings := [];
     result_tree :=
       {| tree_columns := [lit "name"; lit "population"];
          headings := [(lit "name", lit "Name");
                       (lit "population", lit "Population")];
          column_opts :=
            [(lit "name", {| anchor := lit "w"; width := 200;
                             minwidth := 200; stretch := false |});
             (lit "population", {| anchor := lit "e"; width := 120;
                                   minwidth := 120; stretch := false |})];
          items := [] |};
     result_frame_shown := false;
     text_height := 12;
     row0_minsize := 0;
     master_height := height;
     linespace := line |}.

(* ===================================================================== *)
(** ** class STTListener (stt_listener.py)                                *)
(* ===================================================================== *)

(** How the capture of one phrase ends: [recognizer.listen] followed by
    [recognizer.recognize_google].  These are the four cases
    [listen_speech] handles. *)
Inductive Outcome :=
| Transcribed (text : str)
| WaitTimeout
| UnknownValue
| RequestFailed (msg : str).

(** Where a worker thread running [listen_speech] stands. *)
Inductive Phase :=
| Spawned                      (* started, the [while] test not yet made *)
| Capturing                    (* in the loop body, waiting for the phrase *)
| Stopping (o : Outcome)       (* flags cleared, [on_stop] not yet called *)
| Exited (entered : bool).     (* returned; [entered]: the body was run *)

(** A call of the stop callback: by which worker thread ([None] for the
    thread that called [shutdown]) and the value of [is_listening] at
    that moment. *)
Definition Notification : Type := option nat * bool.

(** The listener, the worker threads it has started (a thread is named by
    its position) and what its callbacks have received. *)
Record STTListener := {
  microphone : bool;             (* [self.microphone] is not [None] *)
  is_listening : bool;
  stop_listening : bool;         (* the [Event]: set or clear *)
  speech_thread : option nat;
  callback : bool;               (* a transcription callback is installed *)
  on_stop : bool;                (* a stop callback is installed *)
  threads : list Phase;
  transcripts : list str;
  notifications : list Notification
}.

Definition set_flags (listening stop : bool) (l : STTListener) : STTListener :=
  {| microphone := microphone l; is_listening := listening;
     stop_listening := stop; speech_thread := speech_thread l;
     callback := callback l; on_stop := on_stop l; threads := threads l;
     transcripts := transcripts l; notifications := notifications l |}.

Definition set_speech_thread (t : option nat) (l : STTListener) : STTListener :=
  {| microphone := microphone l; is_listening := is_listening l;
     stop_listening := stop_listening l; speech_thread := t;
     callback := callback l; on_stop := on_stop l; threads := threads l;
     transcripts := transcripts l; notifications := notifications l |}.

Definition set_threads (ths : list Phase) (l : STTListener) : STTListener :=
  {| microphone := microphone l; is_listening := is_listening l;
     stop_listening := stop_listening l; speech_thread := speech_thread l;
     callback := callback l; on_stop := on_stop l; threads := ths;
     transcripts := transcripts l; notifications := notifications l |}.

(** [self._on_transcription(text)] *)
Definition _on_transcription (text : str) (l : STTListener) : STTListener :=
  if callback l then
    {| microphone := microphone l; is_listening := is_listening l;
       stop_listening := stop_listening l; speech_thread := speech_thread l;
       callback := callback l; on_stop := on_stop l; threads := threads l;
       transcripts := transcripts l ++ [text];
       notifications := notifications l |}
  else l.

(** [if self.on_stop: self.on_stop()], an exception of the callback being
    swallowed. *)
Definition notify_stop (who : option nat) (l : STTListener) : STTListener :=
  if on_stop l then
    {| microphone := microphone l; is_listening := is_listening l;
       stop_listening := stop_listening l; speech_thread := speech_thread l;
       callback := callback l; on_stop := on_stop l; threads := threads l;
       transcripts := transcripts l;
       notifications := notifications l ++ [(who, is_listening l)] |}
  else l.

(** [STTListener.toggle_speech].  Starting spawns the worker thread;
    stopping sets the flags and joins the worker for at most a second,
    which does not wait for its end. *)
Definition toggle_speech (l : STTListener) : STTListener :=
  if negb (is_listening l) then
    if negb (microphone l) then l
    else
      let l := set_flags true false l in
      let tid := List.length (threads l) in
      let l := set_speech_thread (Some tid) l in
      set_threads (threads l ++ [Spawned]) l
  else
    let l := set_flags false true l in
    match speech_thread l with
    | Some _ => set_speech_thread None l
    | None => l
    end.

(** [STTListener.start_speech] and [STTListener.stop_speech] *)
Definition start_speech (l : STTListener) : STTListener :=
  if negb (is_listening l) then toggle_speech l else l.

Definition stop_speech (l : STTListener) : STTListener :=
  if is_listening l then toggle_speech l else l.

(** [STTListener.shutdown] *)
Definition shutdown (l : STTListener) : STTListener :=
  notify_stop None (set_flags false true l).

(** Replacing the phase of thread [t]. *)
Fixpoint set_phase (t : nat) (p : Phase) (ths : list Phase) : list Phase :=
  match ths, t with
  | [], _ => []
  | _ :: rest, O => p :: rest
  | q :: rest, S t' => q :: set_phase t' p rest
  end.

(** [STTListener.listen_speech], run by worker [t], in three steps
    between which the other threads can run.  First the [while] test. *)
Definition worker_check (t : nat) (l : STTListener) : STTListener :=
  match nth_error (threads l) t with
  | Some Spawned =>
      if is_listening l && negb (stop_listening l)
      then set_threads (set_phase t Capturing (threads l)) l
      else set_threads (set_phase t (Exited false) (threads l)) l
  | _ => l
  end.

(** Then the phrase ends with outcome [o]: the text is handed over on
    success, [is_listening] is cleared and, except on a request error,
    the stop event is set. *)
Definition worker_hear (t : nat) (o : Outcome) (l : STTListener) : STTListener :=
  match nth_error (threads l) t with
  | Some Capturing =>
      let l := match o with
               | Transcribed text => _on_transcription text l
               | _ => l
               end in
      let l := match o with
               | RequestFailed _ => set_flags false (stop_listening l) l
               | _ => set_flags false true l
               end in
      set_threads (set_phase t (Stopping o) (threads l)) l
  | _ => l
  end.

(** Last the stop callback and the [break]. *)
Definition worker_notify (t : nat) (l : STTListener) : STTListener :=
  match nth_error (threads l) t with
  | Some (Stopping _) =>
      let l := notify_stop (Some t) l in
      set_threads (set_phase t (Exited true) (threads l)) l
  | _ => l
  end.

(** What can happen next: a call from the owner of the listener or a step
    of a worker thread. *)
Inductive Action :=
| StartSpeech
| StopSpeech
| Shutdown
| Check (t : nat)
| Hear (t : nat) (o : Outcome)
| Notify (t : nat).

Definition step (l : STTListener) (a : Action) : STTListener :=
  match a with
  | StartSpeech => start_speech l
  | StopSpeech => stop_speech l
  | Shutdown => shutdown l
  | Check t => worker_check t l
  | Hear t o => worker_hear t o l
  | Notify t => worker_notify t l
  end.

(** A schedule, run from left to right. *)
Definition run (schedule : list Action) (l : STTListener) : STTListener :=
  fold_left step schedule l.

(** The listener after [__init__] with a microphone that initialised. *)
Definition new_listener (callback on_stop : bool) : STTListener :=
  {| microphone := true; is_listening := false; stop_listening := false;
     speech_thread := None; callback := callback; on_stop := on_stop;
     threads := []; transcripts := []; notifications := [] |}.

(** How often worker [t] has called the stop callback. *)
Definition stops_by (t : nat) (l : STTListener) : nat :=
  List.length
    (filter (fun n => match fst n with
                      | Some t' => Nat.eqb t' t
                      | None => false
                      end) (notifications l)).

(** What worker [t] owes: one call when it ran the loop body to its end
    and a stop callback is installed, none otherwise. *)
Definition stops_due (t : nat) (l : STTListener) : nat :=
  match nth_error (threads l) t with
  | Some (Exited true) => if on_stop l then 1 else 0
  | _ => 0
  end.

(* ===================================================================== *)
(** ** The callers of the connector                                       *)
(* ===================================================================== *)

(** [MariaDBConnection.__enter__]: the answer of [_connect] is dropped. *)
Definition __enter__ (drv : Oracle) : M St unit :=
  (_connect drv ;; ret tt)%py.

(** [MariaDBConnection.__exit__]: returns [None], so an exception of the
    block is raised again after it. *)
Definition __exit__ : M St unit := close.

(** [with conn: body] *)
Definition with_block {A} (drv : Oracle) (body : M St A) : M St A :=
  (__enter__ drv ;;
   fun s =>
     match __exit__ (snd (body s)) with
     | (Return _, s') => (fst (body s), s')
     | (Raise e, s') => (Raise e, s')
     end)%py.











(* ===================================================================== *)
(** ** More readings of a trace                                           *)
(* ===================================================================== *)

Definition is_commit (e : Event) : bool :=
  match e with ECommit _ => true | _ => false end.

Definition is_rollback (e : Event) : bool :=
  match e with ERollback _ => true | _ => false end.

(** The events of connecting: what [_connect] may do to the outside. *)
Definition is_connection_event (e : Event) : bool :=
  match e with
  | EConnect _ _ | ECursor _ _ | EClose _ | ESleep _ => true
  | _ => false
  end.

(** The statements sent to the driver, in order. *)
Fixpoint statements (evs : list Event) : list str :=
  match evs with
  | [] => []
  | EExecute _ sql :: rest => sql :: statements rest
  | _ :: rest => statements rest
  end.

(** [dict(zip(columns, row))] *)
Definition row_dict (columns : list str) (row : list value) : Dict :=
  dict_of (combine columns row).

(** From tick [t] on, no driver call raises. *)
Definition calm_from (drv : Oracle) (t : nat) : Prop :=
  forall n, raises drv (t + n) = None.


(** A worker that has a phrase behind it: the capture has ended. *)
Definition heard (p : Phase) : bool :=
  match p with
  | Stopping _ | Exited true => true
  | _ => false
  end.

Definition is_start (a : Action) : bool :=
  match a with StartSpeech => true | _ => false end.

(* ===================================================================== *)
(** ** Notions the proofs are stated with                                 *)
(* ===================================================================== *)

(** The trace only grows. *)
Definition extends (w w' : World) : Prop :=
  exists tail, log w' = log w ++ tail.

(** A computation that keeps the configuration, only adds to the trace and
    never raises the empty-statement error. *)
Definition steady {A} (m : M St A) : Prop :=
  forall s, same_configuration (fst s) (fst (snd (m s))) /\
            extends (snd s) (snd (snd (m s))) /\
            forall e, fst (m s) = Raise e -> e <> EMPTY_SQL.

(** [self.connection and self.connection.is_connected()] *)
Definition session_alive (self : MariaDBConnection) (w : World) : bool :=
  match connection self with
  | Some h => existsb (Nat.eqb h) (live w)
  | None => false
  end.

(** The driver side once a stale connection object has been closed. *)
Definition stale_closed (self : MariaDBConnection) (w : World) : World :=
  match connection self with
  | Some h => emit (EClose h) (drop_session h w)
  | None => w
  end.

(** A computation that leaves the object and the open sessions alone. *)
Definition keeps_session {A} (m : M St A) : Prop :=
  forall s, fst (snd (m s)) = fst s /\ live (snd (snd (m s))) = live (snd s).

(** An event that neither sends a statement nor commits. *)
Definition silent (e : Event) : bool := negb (is_execute e) && negb (is_commit e).

(** An event that is no part of connecting. *)
Definition offline (e : Event) : bool := negb (is_connection_event e).

(** A computation that adds only events of one kind to the trace. *)
Definition adds (p : Event -> bool) {A} (m : M St A) : Prop :=
  forall s, exists evs,
    log (snd (snd (m s))) = log (snd s) ++ evs /\ forallb p evs = true.

(** A computation that neither sends a statement nor commits. *)
Definition mute {A} (m : M St A) : Prop := adds silent m.

(** At most the statement [sql] was sent, and at most once. *)
Definition sent_at_most (sql : str) (evs : list Event) : Prop :=
  statements evs = [] \/ statements evs = [sql].

Definition is_return {A} (r : result A) : bool :=
  match r with Return _ => true | Raise _ => false end.

(** The block of a [with self.get_cursor()] statement under the handler
    of [get_cursor]: roll back and raise again. *)
Definition guarded {A} (drv : Oracle) (block : M St A) : M St A :=
  try_except block (fun e => bind (conn_rollback drv) (fun _ => raise e)).

(** The exception that leaves the handler of [get_cursor] entered with
    [e], when its rollback is driver call number [t]: [e] raised again,
    or what the rollback raised. *)
Definition leaves_handler (drv : Oracle) (t : nat) (e : exn) : exn :=
  match raises drv t with
  | Some e' => DbError e'
  | None => e
  end.

(** The four ways one attempt can go when no session is alive: the state
    after a refused connect, the driver side after an accepted one, and
    the states after the cursor was refused or created. *)
Definition refused (self : MariaDBConnection) (w : World) : St :=
  (self, emit (EConnect (config self) None) (bump (stale_closed self w))).

Definition accepted (self : MariaDBConnection) (w : World) : World :=
  bump (emit (EConnect (config self) (Some (next_handle w)))
          (open_session (bump (stale_closed self w)))).

Definition cursorless (self : MariaDBConnection) (w : World) : St :=
  (set_connection (Some (next_handle w)) self,
   emit (ECursor (next_handle w) false) (accepted self w)).

Definition established (self : MariaDBConnection) (w : World) : St :=
  (set_cursor (Some (CursorOf (next_handle w)))
     (set_connection (Some (next_handle w)) self),
   emit (ECursor (next_handle w) true) (accepted self w)).

(** The events of closing a stale connection object. *)
Definition close_events (self : MariaDBConnection) : list Event :=
  match connection self with
  | Some h => [EClose h]
  | None => []
  end.



(** The loop that sets the headings and the column options. *)
Definition dress (t : Treeview) (col : str) : Treeview :=
  column col {| anchor := lit "w"; width := column_width col;
                minwidth := column_width col; stretch := false |}
    (heading col col t).

(** Every worker has called the stop callback as often as it owes. *)
Definition accounted (l : STTListener) : Prop :=
  forall t, stops_by t l = stops_due t l.

(* ===================================================================== *)
(** ** Sample inputs                                                      *)
(* ===================================================================== *)

(** A connector as [MariaDBLogin.on_connect] builds it, with the retry
    count and the delay given. *)
Definition sample_connection (attempts delay : Z) : MariaDBConnection :=
  __init__ (lit "localhost") 3306 (lit "root") (lit "secret") None true
    (lit "utf8mb4") attempts delay.

(** A driver side with no session and an empty trace. *)
Definition quiet_world : World :=
  {| tick := 0%nat; live := []; next_handle := 0%nat; log := [] |}.

(** A driver side on which session [0] is open. *)
Definition world_with_session : World :=
  {| tick := 0%nat; live := [0%nat]; next_handle := 1%nat; log := [] |}.

(** A connector that holds session [0]. *)
Definition connected_sample (attempts delay : Z) : MariaDBConnection :=
  set_cursor (Some (CursorOf 0%nat))
    (set_connection (Some 0%nat) (sample_connection attempts delay)).

Definition country_rows : ResultSet :=
  {| with_rows := true;
     description := Some [ {| col_name := lit "name"; type_code := 253 |};
                           {| col_name := lit "population"; type_code := 3 |} ];
     unread := [ [VStr (lit "Chad"); VInt 17]; [VStr (lit "Peru"); VInt 33] ];
     rowcount := 2 |}.

Definition no_rows : ResultSet :=
  {| with_rows := true;
     description := Some [ {| col_name := lit "name"; type_code := 253 |} ];
     unread := [];
     rowcount := 0 |}.

Definition SERVER_GONE : Error := mkError 2006.

(** A driver whose calls all return, every statement producing [rs]. *)
Definition driver_ok (rs : ResultSet) : Oracle :=
  {| raises := fun _ => None; answer := fun _ _ => rs |}.


Definition SYNTAX_ERROR : Error := mkError 1064.

Definition LOST_CONNECTION : Error := mkError 2013.

Definition DEADLOCK : Error := mkError 1213.

Definition QUERY_INTERRUPTED : Error := mkError 1317.

(** A driver whose [n]-th call that can raise raises [e], on a connection
    that stays usable: every other call returns. *)
Definition driver_raising_at (n : nat) (e : Error) (rs : ResultSet) : Oracle :=
  {| raises := fun t => if Nat.eqb t n then Some e else None;
     answer := fun _ _ => rs |}.

(** A driver whose connection is lost during call [n]: that call raises
    the loss, every later one finds the server gone. *)
Definition driver_lost_at (n : nat) (rs : ResultSet) : Oracle :=
  {| raises := fun t => if Nat.eqb t n then Some LOST_CONNECTION
                        else if Nat.ltb n t then Some SERVER_GONE else None;
     answer := fun _ _ => rs |}.

(** A driver that refuses every call. *)
Definition driver_down : Oracle :=
  {| raises := fun _ => Some SERVER_GONE; answer := fun _ _ => no_rows |}.

(** A translator that answers every request with one fenced statement. *)
Definition sample_translator (request : str) : str :=
  lit "```sql" ++ [LF] ++ lit "SELECT name, population FROM country;"
    ++ [LF] ++ lit "```".

(** The frame after start-up, connected, with a request typed in. *)
Definition sample_app : App :=
  set_text (lit "show all countries")
    (create_widgets (Some (connected_sample 3 2)) (Some 420) 16).

(** The frame after a submission that returned the two rows of
    [country_rows], and after [Clear] and a new request typed in. *)
Definition shown_sample : App * World :=
  snd (on_submit (driver_ok country_rows) sample_translator
         (sample_app, world_with_session)).

Definition cleared_sample : App * World :=
  (set_text (lit "show all cities") (on_clear (fst shown_sample)),
   snd shown_sample).


(* ===================================================================== *)
(** * Properties                                                          *)
(* ===================================================================== *)

Section StringFacts.

Lemma dropwhile_idem p s : dropwhile p (dropwhile p s) = dropwhile p s.
Proof.
  induction s as [|c s IH]; simpl; [reflexivity|].
  destruct (p c) eqn:E; [exact IH|]. simpl. now rewrite E.
Qed.

Lemma dropwhile_all p s : forallb p s = true -> dropwhile p s = [].
Proof.
  induction s as [|c s IH]; simpl; [reflexivity|].
  destruct (p c); simpl; [exact IH | discriminate].
Qed.

Lemma dropwhile_suffix p s : exists pre, s = pre ++ dropwhile p s.
Proof.
  induction s as [|c s [pre IH]]; simpl.
  - now exists [].
  - destruct (p c).
    + exists (c :: pre). simpl. now f_equal.
    + now exists [].
Qed.

Lemma dropwhile_head p s c t : dropwhile p s = c :: t -> p c = false.
Proof.
  induction s as [|a s IH]; simpl; [discriminate|].
  destruct (p a) eqn:E; [exact IH|]. intros H. injection H as -> _. exact E.
Qed.

End StringFacts.

Section FenceFacts.

Lemma has_fence_cons c s : has_fence (c :: s) = false -> has_fence s = false.
Proof.
  destruct s as [|a [|b s]]; try reflexivity.
  simpl. intros H. apply orb_false_elim in H. apply H.
Qed.

Lemma has_fence_suffix pre s : has_fence (pre ++ s) = false -> has_fence s = false.
Proof.
  induction pre as [|c pre IH]; simpl app; [easy|].
  intros H. apply IH. exact (has_fence_cons _ _ H).
Qed.

Lemma has_fence_prefix s suf : has_fence (s ++ suf) = false -> has_fence s = false.
Proof.
  induction s as [|a s IH]; [reflexivity|].
  intros H. pose proof (has_fence_cons _ _ H) as Hs. specialize (IH Hs).
  destruct s as [|b [|c s]]; try reflexivity.
  simpl in H. apply orb_false_elim in H. destruct H as [H _].
  change (has_fence (a :: b :: c :: s))
    with (((a =? BACKTICK) && (b =? BACKTICK) && (c =? BACKTICK))%N
          || has_fence (b :: c :: s)).
  now rewrite H, IH.
Qed.

Lemma has_fence_here pre suf :
  has_fence (pre ++ BACKTICK :: BACKTICK :: BACKTICK :: suf) = true.
Proof.
  destruct (has_fence (pre ++ BACKTICK :: BACKTICK :: BACKTICK :: suf)) eqn:E;
    [reflexivity|].
  apply has_fence_suffix in E. discriminate.
Qed.

Lemma rstrip_prefix s : exists suf, s = rstrip s ++ suf.
Proof.
  unfold rstrip. destruct (dropwhile_suffix isspace (rev s)) as [pre E].
  exists (rev pre). rewrite <- rev_app_distr, <- E. now rewrite rev_involutive.
Qed.

Lemma lstrip_suffix s : exists pre, s = pre ++ lstrip s.
Proof. apply dropwhile_suffix. Qed.

Lemma has_fence_strip s : has_fence s = false -> has_fence (strip s) = false.
Proof.
  intros H. unfold strip.
  destruct (lstrip_suffix s) as [pre E1].
  destruct (rstrip_prefix (lstrip s)) as [suf E2].
  rewrite E1 in H. apply has_fence_suffix in H.
  rewrite E2 in H. now apply has_fence_prefix in H.
Qed.

Lemma strip_idem s : strip (strip s) = strip s.
Proof.
  unfold strip.
  assert (L : lstrip (rstrip (lstrip s)) = rstrip (lstrip s)).
  { destruct (rstrip_prefix (lstrip s)) as [suf E].
    destruct (rstrip (lstrip s)) as [|c u] eqn:R; [reflexivity|].
    assert (Hc : isspace c = false).
    { unfold lstrip in E. simpl in E. eapply dropwhile_head. exact E. }
    unfold lstrip at 1. simpl. now rewrite Hc. }
  rewrite L. unfold rstrip. rewrite rev_involutive.
  now rewrite dropwhile_idem.
Qed.

Lemma strip_blank s : forallb isspace s = true -> strip s = [].
Proof.
  intros H. unfold strip, lstrip. now rewrite (dropwhile_all _ _ H).
Qed.

Lemma startswith_spec p s : startswith p s = true -> exists t, s = p ++ t.
Proof.
  revert s. induction p as [|a p IH]; intros s H.
  - now exists s.
  - destruct s as [|b s]; [discriminate|]. simpl in H.
    apply andb_true_iff in H. destruct H as [E H]. apply N.eqb_eq in E. subst b.
    destruct (IH _ H) as [t ->]. now exists t.
Qed.

Lemma endswith_spec p s : endswith p s = true -> exists t, s = t ++ p.
Proof.
  unfold endswith. intros H. apply startswith_spec in H. destruct H as [t E].
  exists (rev t). apply (f_equal (@rev _)) in E.
  now rewrite rev_involutive, rev_app_distr, rev_involutive in E.
Qed.

Lemma no_fence_startswith s : has_fence s = false -> startswith FENCE s = false.
Proof.
  intros H. destruct (startswith FENCE s) eqn:E; [|reflexivity].
  apply startswith_spec in E. destruct E as [t ->].
  pose proof (has_fence_here [] t) as X. unfold FENCE in H. simpl app in *.
  congruence.
Qed.

Lemma no_fence_endswith pre suf s :
  has_fence s = false -> endswith (pre ++ FENCE ++ suf) s = false.
Proof.
  intros H. destruct (endswith (pre ++ FENCE ++ suf) s) eqn:E; [|reflexivity].
  apply endswith_spec in E. destruct E as [t ->].
  pose proof (has_fence_here (t ++ pre) suf) as X.
  unfold FENCE in H. rewrite <- app_assoc in X. simpl app in *. congruence.
Qed.

Lemma sub_opening_fence_id s : has_fence s = false -> sub_opening_fence s = s.
Proof.
  intros H. unfold sub_opening_fence. now rewrite no_fence_startswith.
Qed.

Lemma sub_closing_fence_id s : has_fence s = false -> sub_closing_fence s = s.
Proof.
  intros H. unfold sub_closing_fence.
  pose proof (no_fence_endswith [LF] [] s H) as E1.
  pose proof (no_fence_endswith [] [] s H) as E2.
  pose proof (no_fence_endswith [LF] [LF] s H) as E3.
  pose proof (no_fence_endswith [] [LF] s H) as E4.
  rewrite app_nil_r in E1, E2. simpl app in *.
  now rewrite E1, E2, E3, E4.
Qed.

End FenceFacts.

Example clean_scenario :
  clean_ai_response
    (lit "```sql" ++ [LF] ++ lit "SELECT name, population FROM country;" ++ [LF] ++ lit "```")
  = lit "SELECT name, population FROM country;".
Proof. reflexivity. Qed.

Example closing_fence_before_final_newline :
  sub_closing_fence (lit "x" ++ [LF] ++ lit "```" ++ [LF]) = lit "x" ++ [LF].
Proof. reflexivity. Qed.

Example four_backticks : sub_closing_fence (lit "````") = lit "`".
Proof. reflexivity. Qed.

(* --------------------------------------------------------------------- *)
(** ** Frame facts of the connector                                       *)
(* --------------------------------------------------------------------- *)

Create HintDb steady.

Section ConnectorFrame.

Variable drv : Oracle.

Lemma same_configuration_refl a : same_configuration a a.
Proof. repeat split. Qed.

Lemma same_configuration_trans a b c :
  same_configuration a b -> same_configuration b c -> same_configuration a c.
Proof.
  unfold same_configuration. intros (H1 & H2 & H3) (H4 & H5 & H6).
  repeat split; congruence.
Qed.

Lemma extends_refl w : extends w w.
Proof. exists []. now rewrite app_nil_r. Qed.

Lemma extends_trans a b c : extends a b -> extends b c -> extends a c.
Proof.
  intros [t1 H1] [t2 H2]. exists (t1 ++ t2). now rewrite H2, H1, app_assoc.
Qed.

Lemma extends_emit e w : extends w (emit e w).
Proof. now exists [e]. Qed.

Lemma steady_pure {A} (m : M St A) :
  (forall s, exists a, m s = (Return a, s)) -> steady m.
Proof.
  intros H s. destruct (H s) as [a ->]. simpl.
  split; [apply same_configuration_refl|].
  split; [apply extends_refl | discriminate].
Qed.

Lemma steady_ret {A} (a : A) : steady (ret a).
Proof. apply steady_pure. intros s. now exists a. Qed.

Lemma steady_raise {A} e : e <> EMPTY_SQL -> steady (@raise St A e).
Proof.
  intros He s. split; [apply same_configuration_refl|].
  split; [apply extends_refl|].
  simpl. intros e' H. injection H as <-. exact He.
Qed.

Lemma steady_bind {A B} (m : M St A) (k : A -> M St B) :
  steady m -> (forall a, steady (k a)) -> steady (bind m k).
Proof.
  intros Hm Hk s. unfold bind. destruct (Hm s) as (C1 & X1 & R1).
  destruct (m s) as [[a|e] s'] eqn:E; simpl in *.
  - destruct (Hk a s') as (C2 & X2 & R2). split; [|split]; [| |exact R2].
    + eapply same_configuration_trans; eassumption.
    + eapply extends_trans; eassumption.
  - split; [exact C1|]. split; [exact X1|].
    intros e' H. injection H as <-. now apply R1.
Qed.

Lemma steady_try {A} (m : M St A) (h : exn -> M St A) :
  steady m -> (forall e, e <> EMPTY_SQL -> steady (h e)) ->
  steady (try_except m h).
Proof.
  intros Hm Hh s. unfold try_except. destruct (Hm s) as (C1 & X1 & R1).
  destruct (m s) as [[a|e] s'] eqn:E; simpl in *.
  - split; [exact C1|]. split; [exact X1 | discriminate].
  - assert (He : e <> EMPTY_SQL) by now apply R1.
    destruct (Hh e He s') as (C2 & X2 & R2). split; [|split]; [| |exact R2].
    + eapply same_configuration_trans; eassumption.
    + eapply extends_trans; eassumption.
Qed.

Lemma steady_get_self : steady get_self.
Proof. apply steady_pure. intros s. now exists (fst s). Qed.

Lemma steady_get : steady (@get St).
Proof. apply steady_pure. intros s. now exists s. Qed.

Lemma steady_update_world f :
  (forall w, extends w (f w)) -> steady (update_world f).
Proof.
  intros Hf s. split; [apply same_configuration_refl|].
  split; [apply Hf | discriminate].
Qed.

Lemma steady_emit e : steady (update_world (emit e)).
Proof. apply steady_update_world. intros w. apply extends_emit. Qed.

Lemma steady_set_connection c : steady (update_self (set_connection c)).
Proof.
  intros s. split; [repeat split|]. split; [apply extends_refl | discriminate].
Qed.

Lemma steady_set_cursor c : steady (update_self (set_cursor c)).
Proof.
  intros s. split; [repeat split|]. split; [apply extends_refl | discriminate].
Qed.

Lemma steady_fallible : steady (fallible drv).
Proof.
  intros s. unfold fallible. destruct (raises drv (tick (snd s)));
    (split; [apply same_configuration_refl|];
     split; [exists []; simpl; now rewrite app_nil_r|];
     intros e' H; simpl in H;
     first [discriminate H | injection H as <-; discriminate]).
Qed.

Lemma steady_is_connected h : steady (is_connected h).
Proof. apply steady_pure. intros s. now eexists. Qed.

Lemma extends_yields l w :
  extends w (fold_left (fun w d => emit (EYield d) w) l w).
Proof.
  revert w. induction l as [|d l IH]; intros w; simpl.
  - apply extends_refl.
  - eapply extends_trans; [apply (extends_emit (EYield d)) | apply IH].
Qed.

#[local] Hint Resolve steady_ret steady_get_self steady_get steady_emit
  steady_set_connection steady_set_cursor steady_fallible steady_is_connected
  : steady.

Ltac steady_step :=
  match goal with
  | |- steady (bind _ _) => apply steady_bind; [|intros ?]
  | |- steady (try_except _ _) => apply steady_try; [|intros ? ?]
  | |- steady (raise _) => apply steady_raise; try discriminate; try assumption
  | |- steady (if ?b then _ else _) => destruct b
  | |- steady (match ?x with _ => _ end) => destruct x
  | |- steady (let 'CursorOf _ := ?c in _) => destruct c
  | |- steady _ => solve [auto with steady]
  end.

Ltac steady_auto := repeat steady_step.

Lemma steady_conn_close h : steady (conn_close h).
Proof.
  unfold conn_close. apply steady_update_world. intros w.
  now exists [EClose h].
Qed.

Lemma steady_mysql_connect cfg : steady (mysql_connect drv cfg).
Proof.
  unfold mysql_connect. steady_auto.
  apply steady_update_world. intros w. now eexists [_].
Qed.

Lemma steady_conn_cursor h : steady (conn_cursor drv h).
Proof. unfold conn_cursor. steady_auto. Qed.

Lemma steady_time_sleep d : steady (time_sleep d).
Proof. unfold time_sleep. steady_auto. Qed.

#[local] Hint Resolve steady_conn_close steady_mysql_connect steady_conn_cursor
  steady_time_sleep : steady.

Lemma steady_connect_attempt : steady (connect_attempt drv).
Proof. unfold connect_attempt. steady_auto. Qed.

#[local] Hint Resolve steady_connect_attempt : steady.

Lemma steady_connect_loop attempts : steady (connect_loop drv attempts).
Proof.
  induction attempts as [|a rest IH]; simpl; [auto with steady|].
  steady_auto.
Qed.

#[local] Hint Resolve steady_connect_loop : steady.

Lemma steady_connect : steady (_connect drv).
Proof. unfold _connect. steady_auto. Qed.

Lemma steady_conn_rollback : steady (conn_rollback drv).
Proof. unfold conn_rollback. steady_auto. Qed.

Lemma steady_conn_commit : steady (conn_commit drv).
Proof. unfold conn_commit. steady_auto. Qed.

#[local] Hint Resolve steady_connect steady_conn_rollback steady_conn_commit : steady.

Lemma steady_get_cursor {A} (body : option Cursor -> M St A) :
  (forall c, steady (body c)) -> steady (get_cursor drv body).
Proof. intros Hb. unfold get_cursor. steady_auto. Qed.

Lemma steady_cursor_execute c sql : steady (cursor_execute drv c sql).
Proof. unfold cursor_execute. steady_auto. Qed.

Lemma steady_cursor_fetchall c rs : steady (cursor_fetchall drv c rs).
Proof. unfold cursor_fetchall. steady_auto. Qed.

Lemma steady_cursor_fetchmany c n p : steady (cursor_fetchmany drv c n p).
Proof. unfold cursor_fetchmany. steady_auto. Qed.

Lemma steady_column_names rs : steady (column_names rs).
Proof. unfold column_names. steady_auto. Qed.

#[local] Hint Resolve steady_cursor_execute steady_cursor_fetchall
  steady_cursor_fetchmany steady_column_names : steady.

Lemma steady_fetch_loop fuel c n rs p : steady (fetch_loop drv fuel c n rs p).
Proof.
  revert p. induction fuel as [|fuel IH]; intros p; simpl; [auto with steady|].
  steady_auto.
  apply steady_update_world. intros w.
  eapply extends_trans; [apply extends_emit | apply extends_yields].
Qed.

#[local] Hint Resolve steady_fetch_loop : steady.

Lemma steady_query_generator sql n : steady (query_generator drv sql n).
Proof.
  unfold query_generator. apply steady_get_cursor. intros c. steady_auto.
Qed.

Lemma steady_close : steady close.
Proof. unfold close. steady_auto. Qed.

End ConnectorFrame.

(* --------------------------------------------------------------------- *)
(** ** clean_ai_response                                                  *)
(* --------------------------------------------------------------------- *)

(** C3, first half and amended second half: the fenced statement of the
    specification cleans to the bare statement; an input without a code
    fence comes back stripped of leading and trailing whitespace, and so
    unchanged exactly when it has none. *)
Theorem clean_ai_response_spec :
  clean_ai_response (lit "```sql" ++ [LF] ++ lit "SELECT 1;" ++ [LF] ++ lit "```")
    = lit "SELECT 1;" /\
  (forall s, has_fence s = false -> clean_ai_response s = strip s) /\
  (forall s, has_fence s = false -> strip s = s -> clean_ai_response s = s).
Proof.
  split; [reflexivity|].
  assert (K : forall s, has_fence s = false -> clean_ai_response s = strip s).
  { intros s H. unfold clean_ai_response.
    pose proof (has_fence_strip s H) as Hs.
    rewrite (sub_opening_fence_id _ Hs), strip_idem.
    now apply sub_closing_fence_id. }
  split; [exact K|]. intros s H E. now rewrite K.
Qed.

Lemma clean_ai_response_spec_witness :
  has_fence (lit "  SELECT 1;") = false /\
  clean_ai_response (lit "  SELECT 1;") = strip (lit "  SELECT 1;").
Proof.
  split; [reflexivity|].
  apply (proj1 (proj2 clean_ai_response_spec)). reflexivity.
Defined.

(** C3 as stated fails: an input without any fence but with surrounding
    blanks is not returned unchanged. *)
Lemma clean_ai_response_not_identity :
  has_fence (lit " SELECT 1; ") = false /\
  clean_ai_response (lit " SELECT 1; ") = lit "SELECT 1;" /\
  clean_ai_response (lit " SELECT 1; ") <> lit " SELECT 1; ".
Proof. repeat split. discriminate. Qed.

(* --------------------------------------------------------------------- *)
(** ** Blank statements                                                   *)
(* --------------------------------------------------------------------- *)

Lemma is_blank_whitespace sql : forallb isspace sql = true -> is_blank sql = true.
Proof. intros H. unfold is_blank. now rewrite strip_blank. Qed.

(** C4: on an empty or whitespace-only statement, [execute] and
    [execute_modify] raise the empty-statement error at once: the object
    and the driver side (sessions, call counter, trace) are untouched. *)
Theorem blank_sql_is_rejected (drv : Oracle) (sql : str) (st : St) :
  forallb isspace sql = true ->
  execute drv sql st = (Raise (ValueError "Empty SQL statement"), st) /\
  execute_modify drv sql st = (Raise (ValueError "Empty SQL statement"), st).
Proof.
  intros H. unfold execute, execute_modify.
  now rewrite (is_blank_whitespace _ H).
Qed.

(* --------------------------------------------------------------------- *)
(** ** One connection attempt                                             *)
(* --------------------------------------------------------------------- *)

(** Unfolds the monad and the driver calls, and reads the fields of the
    worlds they build. *)
Ltac run_py :=
  cbv beta iota delta
    [bind try_except ret raise get get_self update_self update_world
     fallible is_connected conn_close mysql_connect conn_cursor time_sleep
     connect_attempt conn_rollback conn_commit cursor_execute cursor_fetchall
     cursor_fetchmany column_names
     emit bump open_session drop_session set_connection set_cursor];
  cbn [fst snd tick live next_handle log connection cursor config
       reconnect_attempts reconnect_delay].

Section ConnectAttempt.

Variable drv : Oracle.

Lemma attempt_alive self w :
  session_alive self w = true ->
  connect_attempt drv (self, w) = (Return true, (self, w)).
Proof.
  unfold session_alive. intros Ha. run_py.
  destruct (connection self) as [h|]; [|discriminate].
  run_py. rewrite Ha. reflexivity.
Qed.

Lemma attempt_refused self w e :
  session_alive self w = false ->
  raises drv (tick w) = Some e ->
  connect_attempt drv (self, w) = (Raise (DbError e), refused self w).
Proof.
  unfold session_alive, refused, stale_closed. intros Ha He. run_py.
  destruct (connection self) as [h|]; run_py; [rewrite Ha; run_py|];
    rewrite He; reflexivity.
Qed.

Lemma attempt_cursorless self w e :
  session_alive self w = false ->
  raises drv (tick w) = None ->
  raises drv (S (tick w)) = Some e ->
  connect_attempt drv (self, w) = (Raise (DbError e), cursorless self w).
Proof.
  unfold session_alive, cursorless, accepted, stale_closed.
  intros Ha H0 H1. run_py.
  destruct (connection self) as [h|]; run_py; [rewrite Ha; run_py|];
    rewrite H0; run_py; rewrite H1; reflexivity.
Qed.

Lemma attempt_established self w :
  session_alive self w = false ->
  raises drv (tick w) = None ->
  raises drv (S (tick w)) = None ->
  connect_attempt drv (self, w) = (Return true, established self w).
Proof.
  unfold session_alive, established, accepted, stale_closed.
  intros Ha H0 H1. run_py.
  destruct (connection self) as [h|]; run_py; [rewrite Ha; run_py|];
    rewrite H0; run_py; rewrite H1; reflexivity.
Qed.

End ConnectAttempt.

(* --------------------------------------------------------------------- *)
(** ** The retry loop of [_connect]                                       *)
(* --------------------------------------------------------------------- *)

Section ConnectLoop.

Variable drv : Oracle.

Lemma not_in_dropped h l :
  ~ In h (filter (fun x => negb (Nat.eqb x h)) l).
Proof.
  intros H. apply filter_In in H. destruct H as [_ H].
  now rewrite Nat.eqb_refl in H.
Qed.




Lemma session_alive_holds self w :
  session_alive self w = true -> holds_live_session (self, w).
Proof.
  unfold session_alive, holds_live_session. simpl.
  destruct (connection self) as [h|]; [|discriminate].
  intros H. exists h. split; [reflexivity|].
  apply existsb_exists in H. destruct H as (x & Hin & E).
  apply Nat.eqb_eq in E. now subst.
Qed.

Lemma stale_closed_log self w :
  log (stale_closed self w) = log w ++ close_events self.
Proof.
  unfold stale_closed, close_events. destruct (connection self); simpl.
  - reflexivity.
  - now rewrite app_nil_r.
Qed.

Lemma refused_log self w :
  log (snd (refused self w))
  = log w ++ close_events self ++ [EConnect (config self) None].
Proof.
  unfold refused. simpl. now rewrite stale_closed_log, app_assoc.
Qed.

Lemma accepted_log self w :
  log (accepted self w)
  = log w ++ close_events self
      ++ [EConnect (config self) (Some (next_handle w))].
Proof.
  unfold accepted. simpl. now rewrite stale_closed_log, app_assoc.
Qed.



Lemma cursorless_log self w :
  log (snd (cursorless self w))
  = log w ++ close_events self
      ++ [EConnect (config self) (Some (next_handle w));
          ECursor (next_handle w) false].
Proof.
  unfold cursorless. cbn [snd emit log]. rewrite accepted_log.
  now rewrite <- !app_assoc.
Qed.

Lemma established_log self w :
  log (snd (established self w))
  = log w ++ close_events self
      ++ [EConnect (config self) (Some (next_handle w));
          ECursor (next_handle w) true].
Proof.
  unfold established. cbn [snd emit log]. rewrite accepted_log.
  now rewrite <- !app_assoc.
Qed.

Lemma established_session self w : holds_live_session (established self w).
Proof.
  exists (next_handle w). split; [reflexivity|].
  unfold established, accepted, stale_closed.
  destruct (connection self); simpl; now left.
Qed.

Lemma connect_loop_cons attempt rest s :
  connect_loop drv (attempt :: rest) s
  = match connect_attempt drv s with
    | (Return a, s') => (Return a, s')
    | (Raise (DbError err), s') =>
        (self <- get_self ;;
         if attempt <? reconnect_attempts self then
           time_sleep (reconnect_delay self) ;; connect_loop drv rest
         else ret false)%py s'
    | (Raise e, s') => (Raise e, s')
    end.
Proof.
  cbn [connect_loop]. unfold try_except.
  destruct (connect_attempt drv s) as [[a|[]] s']; reflexivity.
Qed.



End ConnectLoop.

(* --------------------------------------------------------------------- *)
(** ** [_connect]                                                         *)
(* --------------------------------------------------------------------- *)

Section ConnectContract.

Variable drv : Oracle.

Lemma holds_session_alive self w :
  holds_live_session (self, w) -> session_alive self w = true.
Proof.
  unfold holds_live_session, session_alive. cbn [fst snd].
  intros (h & -> & Hin). apply existsb_exists. exists h.
  split; [exact Hin | apply Nat.eqb_refl].
Qed.

Lemma range_succ R :
  0 <= R -> range (R + 1) = map Z.of_nat (seq 0 (S (Z.to_nat R))).
Proof.
  intros H. unfold range. do 2 f_equal.
  rewrite Z2Nat.inj_add by lia. simpl. lia.
Qed.

(** Whenever the loop answers true, the object holds an open session. *)
Lemma connect_loop_true attempts : forall s s',
  connect_loop drv attempts s = (Return true, s') -> holds_live_session s'.
Proof.
  induction attempts as [|a rest IH]; intros [self w] s'.
  - discriminate.
  - rewrite connect_loop_cons.
    destruct (session_alive self w) eqn:A.
    { rewrite (attempt_alive drv _ _ A). intros H. injection H as <-.
      now apply session_alive_holds. }
    assert (K : forall s1 : St,
      (self0 <- get_self ;;
       if a <? reconnect_attempts self0 then
         time_sleep (reconnect_delay self0) ;; connect_loop drv rest
       else ret false)%py s1 = (Return true, s') -> holds_live_session s').
    { intros s1. run_py. destruct (a <? reconnect_attempts (fst s1)).
      - destruct (reconnect_delay (fst s1) <? 0); [discriminate|].
        apply IH.
      - discriminate. }
    destruct (raises drv (tick w)) as [e|] eqn:R0.
    { rewrite (attempt_refused drv _ _ e A R0). apply K. }
    destruct (raises drv (S (tick w))) as [e|] eqn:R1.
    { rewrite (attempt_cursorless drv _ _ e A R0 R1). apply K. }
    rewrite (attempt_established drv _ _ A R0 R1).
    intros H. injection H as <-. apply established_session.
Qed.

Lemma connect_true s s' :
  _connect drv s = (Return true, s') -> holds_live_session s'.
Proof. unfold _connect. run_py. apply connect_loop_true. Qed.


End ConnectContract.



(* --------------------------------------------------------------------- *)
(** ** Errors inside the [with] block                                     *)
(* --------------------------------------------------------------------- *)

Section Rollback.

Variable drv : Oracle.

(** The handler of [get_cursor] on an object that holds a connection:
    the rollback is called, and the exception caught is raised again
    unless the rollback raises. *)
Lemma handler_outcome {A} (e : exn) (s : St) h :
  connection (fst s) = Some h ->
  bind (conn_rollback drv) (fun _ => @raise St A e) s
  = (Raise (leaves_handler drv (tick (snd s)) e),
     (fst s, bump (emit (ERollback h) (snd s)))).
Proof.
  intros Hh. unfold leaves_handler. run_py. rewrite Hh. run_py.
  now destruct (raises drv (tick (snd s))).
Qed.

(** Whatever the block of [with self.get_cursor()] raises, the handler
    rolls back on the stored connection before anything is raised. *)
Lemma get_cursor_reraises {A} (body : option Cursor -> M St A) st st1 st2 e h :
  _connect drv st = (Return true, st1) ->
  body (cursor (fst st1)) st1 = (Raise e, st2) ->
  connection (fst st2) = Some h ->
  get_cursor drv body st
  = (Raise (leaves_handler drv (tick (snd st2)) e),
     (fst st2, bump (emit (ERollback h) (snd st2)))).
Proof.
  intros Hc Hb Hh. unfold get_cursor, bind at 1. rewrite Hc. cbn [negb].
  unfold bind at 1, get_self at 1. unfold try_except. rewrite Hb.
  now apply handler_outcome.
Qed.

(** The statement reaches the driver, which raises. *)
Lemma cursor_execute_raises c sql self w e :
  raises drv (tick w) = Some e ->
  cursor_execute drv (Some (CursorOf c)) sql (self, w)
  = (Raise (DbError e), (self, bump (emit (EExecute c sql) w))).
Proof. intros H. run_py. now rewrite H. Qed.

(** C5, amended: when the driver raises on the statement, [execute],
    [execute_modify] and the iteration of [query_generator] call
    [rollback] on the stored connection; the trace gains the one
    [execute] call followed by that rollback and nothing else, so the
    statement is sent once and not again, and the object is as [_connect]
    left it.  When the rollback returns, all
    three raise the very error of the driver; when the rollback raises,
    all three raise what the rollback raised. *)
Theorem driver_error_rolls_back (sql : str) (chunk : Z) (st st1 : St)
    (c : handle) (e : Error) :
  _connect drv st = (Return true, st1) ->
  cursor (fst st1) = Some (CursorOf c) ->
  raises drv (tick (snd st1)) = Some e ->
  exists h after,
    connection (fst st1) = Some h /\
    fst after = fst st1 /\
    log (snd after) = log (snd st1) ++ [EExecute c sql; ERollback h] /\
    count is_execute (log (snd after))
      = S (count is_execute (log (snd st1))) /\
    (raises drv (S (tick (snd st1))) = None ->
       (is_blank sql = false ->
          execute drv sql st = (Raise (DbError e), after)) /\
       (is_blank sql = false ->
          execute_modify drv sql st = (Raise (DbError e), after)) /\
       query_generator drv sql chunk st = (Raise (DbError e), after)) /\
    (forall e', raises drv (S (tick (snd st1))) = Some e' ->
       (is_blank sql = false ->
          execute drv sql st = (Raise (DbError e'), after)) /\
       (is_blank sql = false ->
          execute_modify drv sql st = (Raise (DbError e'), after)) /\
       query_generator drv sql chunk st = (Raise (DbError e'), after)).
Proof.
  intros Hc Hcur He.
  destruct (connect_true drv _ _ Hc) as (h & Hh & _).
  destruct st1 as [self1 w1]. cbn [fst snd] in *.
  exists h, (self1, bump (emit (ERollback h) (bump (emit (EExecute c sql) w1)))).
  split; [exact Hh|]. split; [reflexivity|].
  split; [cbn; now rewrite <- app_assoc|].
  split.
  { unfold count. cbn [snd emit bump log].
    rewrite !filter_app, !length_app. cbn. lia. }
  pose proof (cursor_execute_raises c sql self1 w1 e He) as X.
  assert (G : (is_blank sql = false ->
                 execute drv sql st
                 = (Raise (leaves_handler drv (S (tick w1)) (DbError e)),
                    (self1, bump (emit (ERollback h)
                                    (bump (emit (EExecute c sql) w1)))))) /\
              (is_blank sql = false ->
                 execute_modify drv sql st
                 = (Raise (leaves_handler drv (S (tick w1)) (DbError e)),
                    (self1, bump (emit (ERollback h)
                                    (bump (emit (EExecute c sql) w1)))))) /\
              query_generator drv sql chunk st
              = (Raise (leaves_handler drv (S (tick w1)) (DbError e)),
                 (self1, bump (emit (ERollback h)
                                 (bump (emit (EExecute c sql) w1)))))).
  { split; [|split].
    - intros Hb. unfold execute. rewrite Hb.
      apply (get_cursor_reraises _ st (self1, w1)
               (self1, bump (emit (EExecute c sql) w1)) (DbError e) h Hc);
        [|exact Hh].
      cbn [fst]. rewrite Hcur. unfold bind at 1. now rewrite X.
    - intros Hb. unfold execute_modify. rewrite Hb.
      apply (get_cursor_reraises _ st (self1, w1)
               (self1, bump (emit (EExecute c sql) w1)) (DbError e) h Hc);
        [|exact Hh].
      cbn [fst]. rewrite Hcur. unfold bind at 1. now rewrite X.
    - unfold query_generator.
      apply (get_cursor_reraises _ st (self1, w1)
               (self1, bump (emit (EExecute c sql) w1)) (DbError e) h Hc);
        [|exact Hh].
      cbn [fst]. rewrite Hcur. unfold bind at 1. now rewrite X. }
  unfold leaves_handler in G.
  split.
  - intros H1. now rewrite H1 in G.
  - intros e' H1. now rewrite H1 in G.
Qed.

End Rollback.

Lemma driver_error_rolls_back_witness :
  exists h after,
    connection (connected_sample 3 2) = Some h /\
    log (snd after) = [EExecute 0%nat (lit "SELEC 1"); ERollback h] /\
    execute (driver_raising_at 0 SYNTAX_ERROR no_rows) (lit "SELEC 1")
      (connected_sample 3 2, world_with_session)
    = (Raise (DbError SYNTAX_ERROR), after).
Proof.
  destruct (driver_error_rolls_back (driver_raising_at 0 SYNTAX_ERROR no_rows)
              (lit "SELEC 1") 1000
              (connected_sample 3 2, world_with_session)
              (connected_sample 3 2, world_with_session)
              0%nat SYNTAX_ERROR)
    as (h & after & H1 & _ & H4 & _ & H5 & _);
    [reflexivity | reflexivity | reflexivity |].
  exists h, after. split; [exact H1|]. split; [exact H4|].
  apply H5; reflexivity.
Defined.

(** C5 as stated fails: the connection is lost while the statement
    executes, the rollback of the handler finds the server gone, and the
    caller gets the error of the rollback, not the error the driver
    raised on the statement. *)
Lemma rollback_failure_replaces_error :
  raises (driver_lost_at 0 no_rows) 0 = Some LOST_CONNECTION /\
  fst (execute (driver_lost_at 0 no_rows) (lit "SELECT 1")
         (connected_sample 3 2, world_with_session))
  = Raise (DbError SERVER_GONE) /\
  log (snd (snd (execute (driver_lost_at 0 no_rows) (lit "SELECT 1")
                   (connected_sample 3 2, world_with_session))))
  = [EExecute 0%nat (lit "SELECT 1"); ERollback 0%nat] /\
  fst (execute (driver_lost_at 0 no_rows) (lit "SELECT 1")
         (connected_sample 3 2, world_with_session))
  <> Raise (DbError LOST_CONNECTION).
Proof.
  split; [reflexivity|]. split; [reflexivity|]. split; [reflexivity|].
  discriminate.
Qed.

Lemma blank_sql_is_rejected_witness :
  forallb isspace (lit "   ") = true /\
  execute (driver_ok country_rows) (lit "   ")
    (sample_connection 3 2, quiet_world)
  = (Raise (ValueError "Empty SQL statement"),
     (sample_connection 3 2, quiet_world)).
Proof.
  split; [reflexivity|].
  apply (blank_sql_is_rejected (driver_ok country_rows) (lit "   ")
           (sample_connection 3 2, quiet_world)).
  reflexivity.
Defined.

(* --------------------------------------------------------------------- *)
(** ** [close]                                                            *)
(* --------------------------------------------------------------------- *)

Lemma close_result self w :
  close (self, w)
  = (Return tt, (self, if session_alive self w then stale_closed self w else w)).
Proof.
  unfold close, session_alive, stale_closed. run_py.
  destruct (connection self) as [h|]; run_py; [|reflexivity].
  destruct (existsb (Nat.eqb h) (live w)); reflexivity.
Qed.

Lemma stale_closed_drops self w : ~ holds_live_session (self, stale_closed self w).
Proof.
  unfold stale_closed, holds_live_session. simpl.
  intros (h & Hc & Hin). rewrite Hc in *. simpl in Hin.
  now apply not_in_dropped in Hin.
Qed.

(** C8: [close] returns normally on every state of the connector and of
    the driver side; after it the object holds no open session, and a
    second call returns normally and changes nothing. *)
Theorem close_is_idempotent (st : St) :
  exists st',
    close st = (Return tt, st') /\
    ~ holds_live_session st' /\
    close st' = (Return tt, st').
Proof.
  destruct st as [self w]. rewrite close_result.
  set (w' := if session_alive self w then stale_closed self w else w).
  assert (N : ~ holds_live_session (self, w')).
  { subst w'. destruct (session_alive self w) eqn:A.
    - apply stale_closed_drops.
    - intros H. apply holds_session_alive in H. congruence. }
  exists (self, w'). split; [reflexivity|]. split; [exact N|].
  rewrite close_result.
  destruct (session_alive self w') eqn:A'; [|reflexivity].
  apply session_alive_holds in A'. contradiction.
Qed.

(* --------------------------------------------------------------------- *)
(** ** The configuration                                                  *)
(* --------------------------------------------------------------------- *)

(** C9: [__init__] stores the configuration it is given, and [_connect],
    [execute], [execute_modify], [query_generator] and [close] leave
    [config], [reconnect_attempts] and [reconnect_delay] as they found
    them, whatever the driver does and whether they return or raise. *)
Theorem configuration_is_kept (drv : Oracle) (sql : str) (chunk : Z) (st : St) :
  same_configuration (fst st) (fst (snd (_connect drv st))) /\
  same_configuration (fst st) (fst (snd (execute drv sql st))) /\
  same_configuration (fst st) (fst (snd (execute_modify drv sql st))) /\
  same_configuration (fst st) (fst (snd (query_generator drv sql chunk st))) /\
  same_configuration (fst st) (fst (snd (close st))) /\
  forall h p u pw db ac cs R D,
    let self := __init__ h p u pw db ac cs R D in
    host (config self) = h /\ port (config self) = p /\
    user (config self) = u /\ password (config self) = pw /\
    database (config self) = db /\ charset (config self) = cs /\
    autocommit (config self) = ac /\
    reconnect_attempts self = R /\ reconnect_delay self = D.
Proof.
  split; [apply steady_connect|].
  split.
  { unfold execute. destruct (is_blank sql).
    - apply same_configuration_refl.
    - apply steady_get_cursor. intros c.
      apply steady_bind; [apply steady_cursor_execute|]. intros rs.
      destruct (has_result_set rs); [|apply steady_ret].
      apply steady_bind; [apply steady_column_names|]. intros cols.
      destruct c as [c|].
      + apply steady_bind; [apply steady_cursor_fetchall|].
        intros rows. apply steady_ret.
      + apply steady_raise. discriminate. }
  split.
  { unfold execute_modify. destruct (is_blank sql).
    - apply same_configuration_refl.
    - apply steady_get_cursor. intros c.
      apply steady_bind; [apply steady_cursor_execute|]. intros rs.
      apply steady_bind; [apply steady_conn_commit|]. intros _.
      apply steady_ret. }
  split; [apply steady_query_generator|].
  split; [apply steady_close|].
  intros. repeat split.
Qed.

(* --------------------------------------------------------------------- *)
(** ** [query_generator] on a blank statement                             *)
(* --------------------------------------------------------------------- *)

(** C10: on an empty or whitespace-only statement the iteration of
    [query_generator] never raises the empty-statement error; it starts by
    connecting, raises [ConnectionError] when that fails, and when it
    succeeds the next event of the trace is the [execute] call of the
    driver with that same blank statement.  So with a retry count from 0
    up, an object without an open session and a driver that accepts the
    connect and the cursor call, the trace gains the connect call, the
    cursor call and then the [execute] call with the blank statement; and
    an object that holds an open session sends the blank statement at
    once. *)
Theorem query_generator_forwards_blank (drv : Oracle) (sql : str) (chunk : Z)
    (st : St) :
  forallb isspace sql = true ->
  fst (query_generator drv sql chunk st)
    <> Raise (ValueError "Empty SQL statement") /\
  (forall st1, _connect drv st = (Return false, st1) ->
     query_generator drv sql chunk st
     = (Raise (ConnectionError "Failed to connect to MariaDB"), st1)) /\
  (forall st1 c, _connect drv st = (Return true, st1) ->
     cursor (fst st1) = Some (CursorOf c) ->
     exists tail,
       log (snd (snd (query_generator drv sql chunk st)))
       = log (snd st1) ++ EExecute c sql :: tail) /\
  (0 <= reconnect_attempts (fst st) ->
   session_alive (fst st) (snd st) = false ->
   raises drv (tick (snd st)) = None ->
   raises drv (S (tick (snd st))) = None ->
   exists tail,
     log (snd (snd (query_generator drv sql chunk st)))
     = log (snd st) ++ close_events (fst st)
         ++ [EConnect (config (fst st)) (Some (next_handle (snd st)));
             ECursor (next_handle (snd st)) true;
             EExecute (next_handle (snd st)) sql] ++ tail) /\
  (forall c,
     0 <= reconnect_attempts (fst st) ->
     holds_live_session st ->
     cursor (fst st) = Some (CursorOf c) ->
     exists tail,
       log (snd (snd (query_generator drv sql chunk st)))
       = log (snd st) ++ EExecute c sql :: tail).
Proof.
  intros _.
  assert (Fwd : forall st1 c, _connect drv st = (Return true, st1) ->
            cursor (fst st1) = Some (CursorOf c) ->
            exists tail,
              log (snd (snd (query_generator drv sql chunk st)))
              = log (snd st1) ++ EExecute c sql :: tail).
  { intros [self1 w1] c Hc Hcur. cbn [fst snd] in *.
    unfold query_generator, get_cursor, bind at 1. rewrite Hc. cbn [negb].
    unfold bind at 1, get_self at 1. cbn [fst]. rewrite Hcur.
    unfold try_except, bind at 1, cursor_execute, bind at 1.
    unfold update_world at 1. cbn [fst snd].
    set (w2 := emit (EExecute c sql) w1).
    assert (L2 : log w2 = log w1 ++ [EExecute c sql]) by reflexivity.
    assert (G : forall (m : M St (list Dict)),
               steady m ->
               exists tail, log (snd (snd (m (self1, w2))))
                            = log w1 ++ EExecute c sql :: tail).
    { intros m Hm. destruct (Hm (self1, w2)) as (_ & [t Ht] & _).
      exists t. cbn [snd] in Ht. rewrite Ht, L2. now rewrite <- app_assoc. }
    match goal with
    | |- exists tail, log (snd (snd ?x)) = _ =>
        change x with
          ((try_except
              (rs <- (t <- fallible drv ;; ret (answer drv t sql)) ;;
               fetch_loop drv (S (List.length (unread rs))) (CursorOf c)
                 chunk rs (unread rs))
              (fun e => conn_rollback drv ;; raise e))%py (self1, w2))
    end.
    apply G.
    apply steady_try.
    + apply steady_bind.
      * apply steady_bind; [apply steady_fallible|]. intros t. apply steady_ret.
      * intros rs. apply steady_fetch_loop.
    + intros e He. apply steady_bind; [apply steady_conn_rollback|].
      intros _. now apply steady_raise. }
  split; [|split; [|split; [exact Fwd|split]]].
  - intros H. destruct (steady_query_generator drv sql chunk st) as (_ & _ & N).
    now apply (N _ H).
  - intros st1 Hc. unfold query_generator, get_cursor, bind at 1.
    now rewrite Hc.
  - destruct st as [self w]. cbn [fst snd]. intros HR A R0 R1.
    assert (Hc : _connect drv (self, w) = (Return true, established self w)).
    { unfold _connect. run_py. rewrite range_succ by exact HR.
      cbn [seq map]. rewrite connect_loop_cons.
      now rewrite (attempt_established drv self w A R0 R1). }
    destruct (Fwd (established self w) (next_handle w) Hc eq_refl) as [tail Ht].
    exists tail. rewrite Ht, established_log. now rewrite <- !app_assoc.
  - destruct st as [self w]. cbn [fst snd]. intros c HR Hl Hcur.
    assert (Hc : _connect drv (self, w) = (Return true, (self, w))).
    { unfold _connect. run_py. rewrite range_succ by exact HR.
      cbn [seq map]. rewrite connect_loop_cons.
      now rewrite (attempt_alive drv _ _ (holds_session_alive _ _ Hl)). }
    exact (Fwd (self, w) c Hc Hcur).
Qed.

Lemma query_generator_forwards_blank_witness :
  forallb isspace (lit "  ") = true /\
  fst (query_generator (driver_ok no_rows) (lit "  ") 1000
         (sample_connection 3 2, quiet_world))
    <> Raise (ValueError "Empty SQL statement") /\
  exists tail,
    log (snd (snd (query_generator (driver_ok no_rows) (lit "  ") 1000
                     (sample_connection 3 2, quiet_world))))
    = [EConnect (config (sample_connection 3 2)) (Some 0%nat);
       ECursor 0%nat true;
       EExecute 0%nat (lit "  ")] ++ tail.
Proof.
  split; [reflexivity|].
  destruct (query_generator_forwards_blank (driver_ok no_rows) (lit "  ") 1000
              (sample_connection 3 2, quiet_world) eq_refl)
    as (H1 & _ & _ & H4 & _).
  split; [exact H1|].
  destruct H4 as [tail Ht]; [simpl; lia | reflexivity | reflexivity | reflexivity |].
  exists tail. exact Ht.
Defined.

Example query_generator_blank_run :
  query_generator (driver_ok no_rows) (lit "  ") 1000
    (connected_sample 3 2, world_with_session)
  = (Return [],
     (connected_sample 3 2,
      {| tick := 2; live := [0%nat]; next_handle := 1%nat;
         log := [EExecute 0%nat (lit "  "); EFetchmany 0%nat 1000] |})).
Proof. reflexivity. Qed.

(* --------------------------------------------------------------------- *)
(** ** The result grid                                                    *)
(* --------------------------------------------------------------------- *)

Section Grid.

Lemma str_eqb_eq a b : str_eqb a b = true <-> a = b.
Proof.
  unfold str_eqb. destruct (list_eq_dec N.eq_dec a b); split;
    congruence.
Qed.

Lemma str_eqb_refl a : str_eqb a a = true.
Proof. now apply str_eqb_eq. Qed.

Lemma assoc_get_set {V} (l : list (str * V)) k v k' :
  assoc_get (assoc_set l k v) k'
  = if str_eqb k k' then Some v else assoc_get l k'.
Proof.
  induction l as [|[k0 v0] l IH]; simpl.
  - reflexivity.
  - destruct (str_eqb k0 k) eqn:E; simpl.
    + apply str_eqb_eq in E. subst. destruct (str_eqb _ k'); reflexivity.
    + rewrite IH. destruct (str_eqb k0 k') eqn:E0; [|reflexivity].
      destruct (str_eqb k k') eqn:E1; [|reflexivity].
      apply str_eqb_eq in E0, E1. subst. now rewrite str_eqb_refl in E.
Qed.

Lemma dict_get_assoc (d : Dict) k default :
  dict_get d k default
  = match assoc_get d k with Some v => v | None => default end.
Proof.
  induction d as [|[k0 v0] d IH]; simpl; [reflexivity|].
  destruct (str_eqb k0 k); [reflexivity | exact IH].
Qed.

Lemma assoc_get_missing {V} (l : list (str * V)) k :
  ~ In k (map fst l) -> assoc_get l k = None.
Proof.
  induction l as [|[k0 v0] l IH]; simpl; [reflexivity|].
  intros H. destruct (str_eqb k0 k) eqn:E.
  - apply str_eqb_eq in E. subst. exfalso. apply H. now left.
  - apply IH. intros X. apply H. now right.
Qed.

Lemma dress_all_frame cols t :
  tree_columns (fold_left dress cols t) = tree_columns t /\
  items (fold_left dress cols t) = items t.
Proof.
  revert t. induction cols as [|c cols IH]; intros t; simpl.
  - now split.
  - destruct (IH (dress t c)) as [H1 H2]. now rewrite H1, H2.
Qed.

Lemma dress_all_headings cols : forall t col,
  assoc_get (headings (fold_left dress cols t)) col
  = if existsb (fun c => str_eqb c col) cols then Some col
    else assoc_get (headings t) col.
Proof.
  induction cols as [|c cols IH]; intros t col; simpl; [reflexivity|].
  rewrite IH. destruct (existsb _ cols); [now rewrite orb_true_r|].
  rewrite orb_false_r. cbn [dress column heading headings].
  rewrite assoc_get_set. destruct (str_eqb c col) eqn:E; [|reflexivity].
  apply str_eqb_eq in E. now subst.
Qed.

Lemma insert_all (f : Dict -> list value) (rows : list Dict) : forall t,
  tree_columns (fold_left (fun t row => insert_end (f row) t) rows t)
    = tree_columns t /\
  headings (fold_left (fun t row => insert_end (f row) t) rows t)
    = headings t /\
  items (fold_left (fun t row => insert_end (f row) t) rows t)
    = items t ++ map f rows.
Proof.
  induction rows as [|r rows IH]; intros t; simpl.
  - now rewrite app_nil_r.
  - destruct (IH (insert_end (f r) t)) as (H1 & H2 & H3).
    rewrite H1, H2, H3. cbn [insert_end tree_columns headings items].
    now rewrite <- app_assoc.
Qed.

(** The resize handler touches neither the tree nor the visibility. *)
Lemma on_root_resize_frame a :
  result_tree (_on_root_resize a) = result_tree a /\
  result_frame_shown (_on_root_resize a) = result_frame_shown a /\
  db (_on_root_resize a) = db a.
Proof.
  unfold _on_root_resize. destruct (master_height a) as [h|]; [|now repeat split].
  destruct (h <=? 0); [now repeat split|]. cbv zeta.
  destruct (text_height a =? _); cbn [result_frame_shown set_text_height];
    destruct (result_frame_shown a) eqn:V;
    try destruct (row0_minsize _ =? _);
    repeat split; exact V.
Qed.

(** The tree [load_to_tkinter_grid] builds from a non-empty result set. *)
Lemma loaded_tree first rest a :
  result_tree (load_to_tkinter_grid (first :: rest) a)
  = fold_left (fun t row => insert_end (row_values (keys first) row) t)
      (first :: rest)
      (fold_left dress (keys first)
         (configure_columns (keys first) (delete_children (result_tree a)))).
Proof.
  unfold load_to_tkinter_grid. cbv zeta.
  destruct (on_root_resize_frame
              (set_result_frame_shown true
                 (set_result_tree
                    (fold_left
                       (fun t row => insert_end (row_values (keys first) row) t)
                       (first :: rest)
                       (fold_left dress (keys first)
                          (configure_columns (keys first)
                             (delete_children (result_tree a))))) a)))
    as (H & _ & _).
  exact H.
Qed.

End Grid.

(** C7: for a result set of N >= 1 row mappings, whose first row has the
    keys C in this order, the grid shows the columns C in that order, each
    headed by its own name, and exactly N rows, the i-th being the values
    of the i-th mapping under the keys of C in header order; every row
    has one cell per column, a key that a row lacks gives the empty
    string, a key it has gives its value; the frame is shown.  The
    function is total: no input makes it raise. *)
Theorem grid_renders_every_row (first : Dict) (rest : list Dict) (a : App) :
  let results := first :: rest in
  let C := keys first in
  let a' := load_to_tkinter_grid results a in
  tree_columns (result_tree a') = C /\
  (forall col, In col C -> assoc_get (headings (result_tree a')) col = Some col) /\
  List.length (items (result_tree a')) = List.length results /\
  items (result_tree a') = map (row_values C) results /\
  (forall i row, nth_error results i = Some row ->
     nth_error (items (result_tree a')) i
     = Some (map (fun col => dict_get row col (VStr [])) C)) /\
  (forall vals, In vals (items (result_tree a')) ->
     List.length vals = List.length C) /\
  (forall (row : Dict) col, ~ In col (keys row) ->
     dict_get row col (VStr []) = VStr []) /\
  (forall (row : Dict) col v, assoc_get row col = Some v ->
     dict_get row col (VStr []) = v) /\
  result_frame_shown a' = true.
Proof.
  intros results C a'.
  assert (T : result_tree a'
              = fold_left (fun t row => insert_end (row_values C row) t) results
                  (fold_left dress C
                     (configure_columns C (delete_children (result_tree a)))))
    by apply loaded_tree.
  destruct (insert_all (row_values C) results
              (fold_left dress C
                 (configure_columns C (delete_children (result_tree a)))))
    as (I1 & I2 & I3).
  destruct (dress_all_frame C
              (configure_columns C (delete_children (result_tree a))))
    as (D1 & D2).
  rewrite <- T in I1, I2, I3. rewrite D1 in I1. rewrite D2 in I3.
  cbn [configure_columns delete_children tree_columns items app] in I1, I3.
  split; [exact I1|].
  split.
  { intros col Hin. rewrite I2, dress_all_headings.
    assert (X : existsb (fun c => str_eqb c col) C = true)
      by (apply existsb_exists; exists col; split;
          [exact Hin | apply str_eqb_refl]).
    now rewrite X. }
  split; [rewrite I3; apply length_map|].
  split; [exact I3|].
  split.
  { intros i row Hi. rewrite I3.
    change (map (fun col => dict_get row col (VStr [])) C)
      with (row_values C row).
    now apply map_nth_error. }
  split.
  { intros vals Hin. rewrite I3 in Hin. apply in_map_iff in Hin.
    destruct Hin as (row & <- & _). apply length_map. }
  split.
  { intros row col Hc. rewrite dict_get_assoc.
    now rewrite (assoc_get_missing row col Hc). }
  split.
  { intros row col v Hv. now rewrite dict_get_assoc, Hv. }
  subst a' results. unfold load_to_tkinter_grid. cbv zeta.
  match goal with
  | |- result_frame_shown (_on_root_resize ?x) = true =>
      destruct (on_root_resize_frame x) as (_ & H & _); now rewrite H
  end.
Qed.

Lemma grid_renders_every_row_witness :
  items (result_tree
           (load_to_tkinter_grid
              [ [(lit "name", VStr (lit "Chad")); (lit "population", VInt 17)];
                [(lit "name", VStr (lit "Peru"))] ]
              sample_app))
  = [ [VStr (lit "Chad"); VInt 17]; [VStr (lit "Peru"); VStr []] ].
Proof.
  exact (proj1 (proj2 (proj2 (proj2
    (grid_renders_every_row
       [(lit "name", VStr (lit "Chad")); (lit "population", VInt 17)]
       [ [(lit "name", VStr (lit "Peru"))] ]
       sample_app))))).
Defined.

(* --------------------------------------------------------------------- *)
(** ** [on_submit] on an empty result set                                 *)
(* --------------------------------------------------------------------- *)

(** What [on_submit] does when the request is not blank and the query
    returns an empty result set: [load_to_tkinter_grid] returns before it
    touches the tree, and [on_submit] calls [result_frame.grid()] after
    it whatever the result. *)
Lemma empty_result_keeps_tree_and_shows_frame (drv : Oracle)
    (send_message : str -> str) (a : App) (w : World)
    (conn conn' : MariaDBConnection) (w' : World) :
  truthy (strip (text a)) = true ->
  db a = Some conn ->
  execute drv (clean_ai_response (send_message (text a))) (conn, w)
    = (Return [], (conn', w')) ->
  exists a',
    on_submit drv send_message (a, w) = (Return tt, (a', w')) /\
    result_tree a' = result_tree a /\
    result_frame_shown a' = true.
Proof.
  intros Ht Hdb Hex. unfold on_submit, execute_sql, generate_sql.
  cbn [fst snd]. rewrite Ht. cbn [negb set_status db text].
  rewrite Hdb, Hex. cbn [fst snd load_to_tkinter_grid].
  eexists. split; [reflexivity|]. now split.
Qed.

(** The frame as it is built, withdrawn: the query returns no row, and
    the frame is shown afterwards. *)
Example empty_result_shows_withdrawn_frame :
  result_frame_shown sample_app = false /\
  fst (execute_sql (driver_ok no_rows)
         (generate_sql sample_translator (text sample_app))
         (sample_app, world_with_session)) = Return [] /\
  fst (on_submit (driver_ok no_rows) sample_translator
         (sample_app, world_with_session)) = Return tt /\
  result_frame_shown
    (fst (snd (on_submit (driver_ok no_rows) sample_translator
                 (sample_app, world_with_session)))) = true.
Proof. repeat split. Qed.

(** C6: the code at a failing input.  A first submission has shown two
    rows, [Clear] has withdrawn the result frame, and a new request is
    typed in whose query returns an empty result set.  [on_submit]
    returns normally and the frame that was hidden is shown again, with
    the two rows of the earlier query in it. *)
Theorem empty_result_shows_stale_rows :
  result_frame_shown (fst cleared_sample) = false /\
  items (result_tree (fst cleared_sample))
  = [ [VStr (lit "Chad"); VInt 17]; [VStr (lit "Peru"); VInt 33] ] /\
  fst (execute_sql (driver_ok no_rows)
         (generate_sql sample_translator (text (fst cleared_sample)))
         cleared_sample) = Return [] /\
  fst (on_submit (driver_ok no_rows) sample_translator cleared_sample)
  = Return tt /\
  result_frame_shown
    (fst (snd (on_submit (driver_ok no_rows) sample_translator
                 cleared_sample))) = true /\
  items (result_tree
           (fst (snd (on_submit (driver_ok no_rows) sample_translator
                        cleared_sample))))
  = [ [VStr (lit "Chad"); VInt 17]; [VStr (lit "Peru"); VInt 33] ].
Proof. repeat split. Qed.

(* --------------------------------------------------------------------- *)
(** ** The speech listener                                                *)
(* --------------------------------------------------------------------- *)

Section Listener.

Lemma nth_error_set_phase ths : forall t p t',
  nth_error (set_phase t p ths) t'
  = if Nat.eqb t t'
    then match nth_error ths t with Some _ => Some p | None => None end
    else nth_error ths t'.
Proof.
  induction ths as [|q ths IH]; intros t p t'.
  - destruct t, t'; simpl; try reflexivity.
    now destruct (Nat.eqb t t').
  - destruct t as [|t], t' as [|t']; try reflexivity.
    simpl. apply IH.
Qed.

Lemma accounted_new cb stop : accounted (new_listener cb stop).
Proof. intros t. unfold stops_by, stops_due. simpl. now destruct t. Qed.

Lemma stops_due_spawn l t :
  stops_due t (set_threads (threads l ++ [Spawned]) l) = stops_due t l.
Proof.
  unfold stops_due. cbn [threads set_threads on_stop].
  destruct (Nat.lt_ge_cases t (List.length (threads l))) as [L|L].
  - now rewrite nth_error_app1.
  - rewrite nth_error_app2 by exact L.
    rewrite (proj2 (nth_error_None (threads l) t) L).
    destruct (t - List.length (threads l))%nat as [|[|n]]; reflexivity.
Qed.

Lemma accounted_start l : accounted l -> accounted (start_speech l).
Proof.
  intros H t. unfold start_speech, toggle_speech.
  destruct (is_listening l); cbn [negb]; [apply H|].
  destruct (microphone l); cbn [negb]; [|apply H].
  cbv zeta. rewrite stops_due_spawn. exact (H t).
Qed.

Lemma accounted_stop l : accounted l -> accounted (stop_speech l).
Proof.
  intros H t. unfold stop_speech, toggle_speech.
  destruct (is_listening l); cbn [negb]; [|apply H].
  cbn [set_flags speech_thread].
  destruct (speech_thread l); exact (H t).
Qed.

Lemma accounted_shutdown l : accounted l -> accounted (shutdown l).
Proof.
  intros H t. unfold shutdown, notify_stop. cbn [set_flags on_stop].
  destruct (on_stop l) eqn:S; [|exact (H t)].
  specialize (H t). unfold stops_by, stops_due in *.
  cbn [notifications threads on_stop].
  rewrite filter_app, length_app. cbn. rewrite Nat.add_0_r.
  rewrite S in H. exact H.
Qed.

Lemma accounted_check t0 l : accounted l -> accounted (worker_check t0 l).
Proof.
  intros H t. unfold worker_check.
  destruct (nth_error (threads l) t0) as [[| | |]|] eqn:P; try apply H.
  assert (K : forall p, p = Capturing \/ p = Exited false ->
            stops_by t (set_threads (set_phase t0 p (threads l)) l)
            = stops_due t (set_threads (set_phase t0 p (threads l)) l)).
  { intros p Hp. transitivity (stops_due t l); [exact (H t)|].
    unfold stops_due. cbn [set_threads threads on_stop].
    rewrite nth_error_set_phase. destruct (Nat.eqb_spec t0 t) as [->|N].
    - rewrite P. destruct Hp as [-> | ->]; reflexivity.
    - reflexivity. }
  destruct (is_listening l && negb (stop_listening l)); apply K; auto.
Qed.

Lemma accounted_hear t0 o l : accounted l -> accounted (worker_hear t0 o l).
Proof.
  intros H t. unfold worker_hear.
  destruct (nth_error (threads l) t0) as [[| | |]|] eqn:P; try apply H.
  transitivity (stops_due t l).
  - rewrite <- (H t). unfold stops_by.
    destruct o; unfold _on_transcription; try destruct (callback l);
      reflexivity.
  - unfold stops_due.
    assert (T : forall x, threads (set_threads (set_phase t0 (Stopping o) (threads x)) x)
                          = set_phase t0 (Stopping o) (threads x)) by reflexivity.
    destruct o; unfold _on_transcription; try destruct (callback l);
      cbn [set_threads set_flags threads on_stop];
      rewrite nth_error_set_phase;
      (destruct (Nat.eqb_spec t0 t) as [->|N]; [now rewrite P | reflexivity]).
Qed.

Lemma accounted_notify t0 l : accounted l -> accounted (worker_notify t0 l).
Proof.
  intros H t. unfold worker_notify.
  destruct (nth_error (threads l) t0) as [[| |o|]|] eqn:P; try apply H.
  pose proof (H t) as Ht. unfold stops_by, stops_due, Notification in *.
  unfold notify_stop. destruct (on_stop l) eqn:S;
    cbn [set_threads threads on_stop notifications];
    rewrite nth_error_set_phase; rewrite ?S;
    rewrite ?filter_app, ?length_app; cbn [filter fst];
    destruct (Nat.eqb_spec t0 t) as [->|N].
  - rewrite P in *. unfold Notification. rewrite Ht. reflexivity.
  - unfold Notification. cbn. rewrite Nat.add_0_r. exact Ht.
  - rewrite P in *. exact Ht.
  - exact Ht.
Qed.

Lemma accounted_step l a : accounted l -> accounted (step l a).
Proof.
  destruct a; simpl.
  - apply accounted_start.
  - apply accounted_stop.
  - apply accounted_shutdown.
  - apply accounted_check.
  - apply accounted_hear.
  - apply accounted_notify.
Qed.

Lemma accounted_run schedule : forall l, accounted l -> accounted (run schedule l).
Proof.
  induction schedule as [|a rest IH]; intros l H; simpl; [exact H|].
  apply IH. now apply accounted_step.
Qed.

Lemma on_stop_step l a : on_stop (step l a) = on_stop l.
Proof.
  destruct a; simpl.
  - unfold start_speech, toggle_speech.
    destruct (is_listening l); [reflexivity|]. cbn [negb].
    now destruct (microphone l).
  - unfold stop_speech, toggle_speech.
    destruct (is_listening l); [|reflexivity]. cbn [negb set_flags speech_thread].
    now destruct (speech_thread l).
  - unfold shutdown, notify_stop. cbn [set_flags on_stop].
    destruct (on_stop l) eqn:E; cbn; congruence.
  - unfold worker_check.
    destruct (nth_error (threads l) t) as [[| | |]|]; try reflexivity.
    now destruct (is_listening l && negb (stop_listening l)).
  - unfold worker_hear.
    destruct (nth_error (threads l) t) as [[| | |]|]; try reflexivity.
    destruct o; unfold _on_transcription; try destruct (callback l);
      reflexivity.
  - unfold worker_notify, notify_stop.
    destruct (nth_error (threads l) t) as [[| | |]|]; try reflexivity.
    destruct (on_stop l) eqn:E; cbn; congruence.
Qed.

Lemma on_stop_run schedule : forall l, on_stop (run schedule l) = on_stop l.
Proof.
  induction schedule as [|a rest IH]; intros l; simpl; [reflexivity|].
  now rewrite IH, on_stop_step.
Qed.

End Listener.

(** C2, amended: what holds of the stop callback when one is installed.
    A worker that is in its loop body and ends the phrase in any of the
    four ways, then notifies without another thread in between, calls
    [on_stop] once, with [is_listening] false at the call and after it.
    In every interleaving of [start_speech], [stop_speech], [shutdown]
    and worker steps from a new listener, each worker has called
    [on_stop] exactly once if it has returned after running the loop body
    and not at all otherwise, in particular when a stop came before its
    first [while] test.  [start_speech] and [stop_speech] themselves never
    call it.  A cycle that is left alone, and one in which [stop_speech]
    comes while the worker captures, both end with the one call. *)
Theorem stop_callback_accounting :
  (forall l t o,
     nth_error (threads l) t = Some Capturing ->
     on_stop l = true ->
     let l' := worker_notify t (worker_hear t o l) in
     notifications l' = notifications l ++ [(Some t, false)] /\
     is_listening l' = false /\
     nth_error (threads l') t = Some (Exited true)) /\
  (forall cb schedule t,
     let l := run schedule (new_listener cb true) in
     stops_by t l = match nth_error (threads l) t with
                    | Some (Exited true) => 1%nat
                    | _ => 0%nat
                    end) /\
  (forall l,
     notifications (start_speech l) = notifications l /\
     notifications (stop_speech l) = notifications l) /\
  (forall cb o,
     let l := run [StartSpeech; Check 0; Hear 0 o; Notify 0]
                (new_listener cb true) in
     notifications l = [(Some 0%nat, false)] /\ is_listening l = false) /\
  (forall cb o,
     let l := run [StartSpeech; Check 0; StopSpeech; Hear 0 o; Notify 0]
                (new_listener cb true) in
     notifications l = [(Some 0%nat, false)] /\ is_listening l = false).
Proof.
  split; [|split; [|split; [|split]]].
  - intros l t o P S l'. subst l'.
    unfold worker_hear. rewrite P.
    destruct o; unfold _on_transcription; try destruct (callback l);
      unfold worker_notify; cbn [set_threads set_flags threads];
      rewrite nth_error_set_phase, Nat.eqb_refl, P;
      unfold notify_stop; cbn [on_stop set_threads set_flags]; rewrite S;
      cbn [set_threads threads notifications is_listening];
      rewrite !nth_error_set_phase, !Nat.eqb_refl, P;
      repeat split.
  - intros cb schedule t l.
    pose proof (accounted_run schedule _ (accounted_new cb true) t) as H.
    fold l in H. rewrite H. unfold stops_due.
    subst l. now rewrite on_stop_run.
  - intros l. unfold start_speech, stop_speech, toggle_speech. split.
    + destruct (is_listening l); [reflexivity|]. cbn [negb].
      now destruct (microphone l).
    + destruct (is_listening l); [|reflexivity].
      cbn [set_flags speech_thread]. now destruct (speech_thread l).
  - intros [|] [text| | |msg]; now split.
  - intros [|] [text| | |msg]; now split.
Qed.

Lemma stop_callback_accounting_witness :
  let l := run [StartSpeech; Check 0] (new_listener true true) in
  nth_error (threads l) 0 = Some Capturing /\
  on_stop l = true /\
  notifications (worker_notify 0 (worker_hear 0 WaitTimeout l))
    = [(Some 0%nat, false)].
Proof.
  cbv zeta. split; [reflexivity|]. split; [reflexivity|].
  apply (proj1 stop_callback_accounting
           (run [StartSpeech; Check 0] (new_listener true true)) 0%nat
           WaitTimeout); reflexivity.
Defined.

(** C2 as stated fails for a cycle ended by [stop_speech]: when the stop
    comes before the worker has made its first [while] test, the worker
    leaves without entering the loop; the listener is idle, the worker
    has returned, and the stop callback was never called. *)
Lemma explicit_stop_skips_stop_callback :
  let l := run [StartSpeech; StopSpeech; Check 0] (new_listener true true) in
  on_stop l = true /\
  threads l = [Exited false] /\
  is_listening l = false /\
  speech_thread l = None /\
  notifications l = [].
Proof. repeat split. Qed.

(* --------------------------------------------------------------------- *)
(** ** The fuel of the streaming loop                                     *)
(* --------------------------------------------------------------------- *)

Lemma firstn_cons_skipn_shorter {A} (k : nat) (l : list A) x xs :
  firstn k l = x :: xs -> (List.length (skipn k l) < List.length l)%nat.
Proof.
  destruct k as [|k]; [discriminate|].
  destruct l as [|y l]; [discriminate|].
  intros _. simpl. pose proof (length_skipn k l). lia.
Qed.

(** Any fuel above the number of unread rows gives the same run: the loop
    of [query_generator] always ends by its [break]. *)
Lemma fetch_loop_fuel (drv : Oracle) (c : Cursor) (n : Z) (rs : ResultSet) :
  forall fuel fuel' pending s,
    (List.length pending < fuel)%nat ->
    (List.length pending < fuel')%nat ->
    fetch_loop drv fuel c n rs pending s = fetch_loop drv fuel' c n rs pending s.
Proof.
  induction fuel as [|fuel IH]; intros fuel' pending s H H'; [lia|].
  destruct fuel' as [|fuel']; [lia|].
  cbn [fetch_loop]. unfold bind at 1. symmetry. unfold bind at 1. symmetry.
  destruct (cursor_fetchmany drv c n pending s) as [[chunk|e] s1] eqn:F;
    [|reflexivity].
  assert (C : chunk = (firstn (fetch_count n) pending,
                       skipn (fetch_count n) pending)).
  { revert F. destruct c as [h]. run_py.
    destruct (raises drv (tick (snd s))); [discriminate|].
    intros X. now injection X as <- _. }
  subst chunk. cbn [fst snd].
  destruct (firstn (fetch_count n) pending) as [|row rows] eqn:R;
    [reflexivity|].
  unfold bind at 1. symmetry. unfold bind at 1. symmetry.
  destruct (column_names rs s1) as [[cols|e] s2]; [|reflexivity].
  unfold bind at 1. symmetry. unfold bind at 1. symmetry.
  destruct (update_world _ s2) as [[u|e] s3]; [|reflexivity].
  unfold bind at 1. symmetry. unfold bind at 1. symmetry.
  pose proof (firstn_cons_skipn_shorter _ _ _ _ R) as L.
  rewrite (IH fuel' (skipn (fetch_count n) pending) s3) by lia.
  reflexivity.
Qed.

(* ===================================================================== *)
(** * Further properties of the connector                                 *)
(* ===================================================================== *)

Section RowDicts.

Lemma dict_set_fresh (d : Dict) k v :
  ~ In k (keys d) -> dict_set d k v = d ++ [(k, v)].
Proof.
  induction d as [|[k0 v0] d IH]; simpl; [reflexivity|].
  intros H. destruct (str_eqb k0 k) eqn:E.
  - apply str_eqb_eq in E. subst. exfalso. apply H. now left.
  - rewrite IH; [reflexivity|]. intros X. apply H. now right.
Qed.

Lemma dict_of_distinct_acc (pairs : list (str * value)) : forall acc : Dict,
  NoDup (map fst pairs) ->
  (forall k, In k (map fst pairs) -> ~ In k (keys acc)) ->
  fold_left (fun d kv => dict_set d (fst kv) (snd kv)) pairs acc = acc ++ pairs.
Proof.
  induction pairs as [|[k v] pairs IH]; intros acc ND Hd; simpl.
  - now rewrite app_nil_r.
  - inversion ND as [|? ? Hk ND']; subst.
    rewrite dict_set_fresh by (apply Hd; now left).
    rewrite IH; [now rewrite <- app_assoc | exact ND' |].
    intros k' Hin. unfold keys. rewrite map_app, in_app_iff. simpl.
    intros [X|[X|[]]].
    + apply (Hd k'); [now right | exact X].
    + subst. contradiction.
Qed.

Lemma dict_of_distinct (pairs : list (str * value)) :
  NoDup (map fst pairs) -> dict_of pairs = pairs.
Proof.
  intros ND. unfold dict_of. now rewrite dict_of_distinct_acc.
Qed.

Lemma combine_keys (cols : list str) : forall row : list value,
  List.length row = List.length cols -> map fst (combine cols row) = cols.
Proof.
  induction cols as [|c cols IH]; intros [|v row] H; simpl in *;
    try discriminate; [reflexivity|].
  f_equal. apply IH. lia.
Qed.

Lemma combine_values (cols : list str) : forall (row : list value) default,
  NoDup cols -> List.length row = List.length cols ->
  map (fun col => dict_get (combine cols row) col default) cols = row.
Proof.
  induction cols as [|c cols IH]; intros [|v row] default ND H; simpl in *;
    try discriminate; [reflexivity|].
  inversion ND as [|? ? Hc ND']; subst.
  rewrite str_eqb_refl. f_equal.
  transitivity (map (fun col => dict_get (combine cols row) col default) cols);
    [|apply IH; [exact ND' | lia]].
  apply map_ext_in. intros col Hin.
  destruct (str_eqb c col) eqn:E; [|reflexivity].
  apply str_eqb_eq in E. subst. contradiction.
Qed.

(** A row turned into a mapping under distinct column names has these
    names as keys, in order, and gives the row back when read by them. *)
Lemma row_dict_round_trip cols row :
  NoDup cols -> List.length row = List.length cols ->
  keys (row_dict cols row) = cols /\
  row_values cols (row_dict cols row) = row.
Proof.
  intros ND H. unfold row_dict, row_values, keys.
  rewrite dict_of_distinct by now rewrite combine_keys.
  split; [now apply combine_keys | now apply combine_values].
Qed.

End RowDicts.

Section ConnectorRuns.

Variable drv : Oracle.

Lemma get_cursor_returns {A} (body : option Cursor -> M St A) st st1 st2 a :
  _connect drv st = (Return true, st1) ->
  body (cursor (fst st1)) st1 = (Return a, st2) ->
  get_cursor drv body st = (Return a, st2).
Proof.
  intros Hc Hb. unfold get_cursor, bind at 1. rewrite Hc. cbn [negb].
  unfold bind at 1, get_self at 1. unfold try_except. now rewrite Hb.
Qed.

Lemma get_cursor_unconnected {A} (body : option Cursor -> M St A) st st1 :
  _connect drv st = (Return false, st1) ->
  get_cursor drv body st
  = (Raise (ConnectionError "Failed to connect to MariaDB"), st1).
Proof. intros Hc. unfold get_cursor, bind at 1. now rewrite Hc. Qed.

Lemma cursor_execute_returns c sql self w :
  raises drv (tick w) = None ->
  cursor_execute drv (Some (CursorOf c)) sql (self, w)
  = (Return (answer drv (tick w) sql), (self, bump (emit (EExecute c sql) w))).
Proof. intros H. run_py. now rewrite H. Qed.

(** X1: a statement with a result set, run on a connected object while
    the driver raises nothing, returns one mapping per row the cursor
    holds, in order; the trace gains the [execute] and the [fetchall]
    call and nothing else (no commit, no rollback) and the object is as
    [_connect] left it.  When the column names are distinct and every row
    has one cell per column, each mapping has the column names as its
    keys, in order, and read by them gives its row back. *)
Theorem execute_returns_rows (sql : str) (st st1 : St) (c : handle)
    (descs : list ColumnDesc) :
  is_blank sql = false ->
  _connect drv st = (Return true, st1) ->
  cursor (fst st1) = Some (CursorOf c) ->
  raises drv (tick (snd st1)) = None ->
  raises drv (S (tick (snd st1))) = None ->
  with_rows (answer drv (tick (snd st1)) sql) = true ->
  description (answer drv (tick (snd st1)) sql) = Some descs ->
  descs <> [] ->
  let rows := unread (answer drv (tick (snd st1)) sql) in
  let cols := map col_name descs in
  exists st2,
    execute drv sql st = (Return (map (row_dict cols) rows), st2) /\
    fst st2 = fst st1 /\
    live (snd st2) = live (snd st1) /\
    log (snd st2) = log (snd st1) ++ [EExecute c sql; EFetchall c] /\
    List.length (map (row_dict cols) rows) = List.length rows /\
    (NoDup cols ->
     Forall (fun row => List.length row = List.length cols) rows ->
     Forall (fun d => keys d = cols) (map (row_dict cols) rows) /\
     map (row_values cols) (map (row_dict cols) rows) = rows).
Proof.
  intros Hb Hc Hcur H0 H1 Hw Hd Hne rows cols.
  destruct st1 as [self1 w1]. cbn [fst snd] in *.
  exists (self1, bump (emit (EFetchall c) (bump (emit (EExecute c sql) w1)))).
  split.
  { unfold execute. rewrite Hb.
    apply (get_cursor_returns _ st (self1, w1) _ _ Hc).
    cbn [fst]. rewrite Hcur. unfold bind at 1.
    rewrite (cursor_execute_returns c sql self1 w1 H0).
    unfold has_result_set. rewrite Hw, Hd.
    destruct descs as [|d0 descs]; [contradiction|]. cbn [andb].
    unfold column_names. rewrite Hd. run_py. rewrite H1. reflexivity. }
  split; [reflexivity|]. split; [reflexivity|].
  split; [cbn; now rewrite <- app_assoc|].
  split; [apply length_map|].
  intros ND Hlen. split.
  - apply Forall_forall. intros d Hin. apply in_map_iff in Hin.
    destruct Hin as (row & <- & Hrow).
    rewrite Forall_forall in Hlen.
    now apply row_dict_round_trip; [|apply Hlen].
  - rewrite map_map. rewrite <- (map_id rows) at 2.
    apply map_ext_in. intros row Hrow. rewrite Forall_forall in Hlen.
    now apply row_dict_round_trip; [|apply Hlen].
Qed.

End ConnectorRuns.

Lemma execute_returns_rows_witness :
  exists st2,
    execute (driver_ok country_rows) (lit "SELECT name, population FROM country;")
      (connected_sample 3 2, world_with_session)
    = (Return [ [(lit "name", VStr (lit "Chad")); (lit "population", VInt 17)];
                [(lit "name", VStr (lit "Peru")); (lit "population", VInt 33)] ],
       st2) /\
    log (snd st2)
    = [EExecute 0%nat (lit "SELECT name, population FROM country;");
       EFetchall 0%nat].
Proof.
  destruct (execute_returns_rows (driver_ok country_rows)
              (lit "SELECT name, population FROM country;")
              (connected_sample 3 2, world_with_session)
              (connected_sample 3 2, world_with_session) 0%nat
              [ {| col_name := lit "name"; type_code := 253 |};
                {| col_name := lit "population"; type_code := 3 |} ])
    as (st2 & E & _ & _ & L & _);
    try reflexivity; [discriminate|].
  exists st2. split; [exact E | exact L].
Defined.

Section ConnectorLatePaths.

Variable drv : Oracle.

(** X2: on a connected object, when the driver runs the statement,
    [execute_modify] commits once, right after the statement, and returns
    the affected-row count the cursor reports, without any rollback; when
    the commit itself raises, [rollback] is called on the same connection,
    and the error of the commit is raised again if the rollback returns,
    the error of the rollback if that raises. *)
Theorem execute_modify_commits (sql : str) (st st1 : St) (c : handle) :
  is_blank sql = false ->
  _connect drv st = (Return true, st1) ->
  cursor (fst st1) = Some (CursorOf c) ->
  raises drv (tick (snd st1)) = None ->
  exists h,
    connection (fst st1) = Some h /\
    (raises drv (S (tick (snd st1))) = None ->
     exists st2,
       execute_modify drv sql st
       = (Return (rowcount (answer drv (tick (snd st1)) sql)), st2) /\
       fst st2 = fst st1 /\
       log (snd st2) = log (snd st1) ++ [EExecute c sql; ECommit h]) /\
    (forall e, raises drv (S (tick (snd st1))) = Some e ->
     exists st2,
       fst st2 = fst st1 /\
       log (snd st2)
       = log (snd st1) ++ [EExecute c sql; ECommit h; ERollback h] /\
       (raises drv (S (S (tick (snd st1)))) = None ->
        execute_modify drv sql st = (Raise (DbError e), st2)) /\
       (forall e', raises drv (S (S (tick (snd st1)))) = Some e' ->
        execute_modify drv sql st = (Raise (DbError e'), st2))).
Proof.
  intros Hb Hc Hcur H0.
  destruct (connect_true drv _ _ Hc) as (h & Hh & _).
  destruct st1 as [self1 w1]. cbn [fst snd] in *.
  exists h. split; [exact Hh|]. split.
  - intros H1.
    exists (self1, bump (emit (ECommit h) (bump (emit (EExecute c sql) w1)))).
    split; [|split; [reflexivity | cbn; now rewrite <- app_assoc]].
    unfold execute_modify. rewrite Hb.
    apply (get_cursor_returns drv _ st (self1, w1) _ _ Hc).
    cbn [fst]. rewrite Hcur. unfold bind at 1.
    rewrite (cursor_execute_returns drv c sql self1 w1 H0).
    run_py. rewrite Hh. run_py. rewrite H1. reflexivity.
  - intros e H1.
    exists (self1, bump (emit (ERollback h)
                     (bump (emit (ECommit h) (bump (emit (EExecute c sql) w1)))))).
    split; [reflexivity|]. split; [cbn; now rewrite <- !app_assoc|].
    assert (G : execute_modify drv sql st
                = (Raise (leaves_handler drv (S (S (tick w1))) (DbError e)),
                   (self1, bump (emit (ERollback h)
                                   (bump (emit (ECommit h)
                                            (bump (emit (EExecute c sql) w1)))))))).
    { unfold execute_modify. rewrite Hb.
      apply (get_cursor_reraises drv _ st (self1, w1)
               (self1, bump (emit (ECommit h) (bump (emit (EExecute c sql) w1))))
               (DbError e) h Hc); [|exact Hh].
      cbn [fst]. rewrite Hcur. unfold bind at 1.
      rewrite (cursor_execute_returns drv c sql self1 w1 H0).
      run_py. rewrite Hh. run_py. rewrite H1. reflexivity. }
    unfold leaves_handler in G. split.
    + intros H2. now rewrite H2 in G.
    + intros e' H2. now rewrite H2 in G.
Qed.

(** X3: on a connected object, a statement that leaves no result set
    ([with_rows] false, or no description) makes [execute] return the
    empty list without fetching; and when [fetchall] raises after the
    statement ran, [rollback] is called, and the error of [fetchall] is
    raised again if the rollback returns, the error of the rollback if
    that raises. *)
Theorem execute_without_rows_or_fetch (sql : str) (st st1 : St) (c : handle) :
  is_blank sql = false ->
  _connect drv st = (Return true, st1) ->
  cursor (fst st1) = Some (CursorOf c) ->
  raises drv (tick (snd st1)) = None ->
  exists h,
    connection (fst st1) = Some h /\
    (has_result_set (answer drv (tick (snd st1)) sql) = false ->
     exists st2,
       execute drv sql st = (Return [], st2) /\
       fst st2 = fst st1 /\
       log (snd st2) = log (snd st1) ++ [EExecute c sql]) /\
    (forall e,
     has_result_set (answer drv (tick (snd st1)) sql) = true ->
     raises drv (S (tick (snd st1))) = Some e ->
     exists st2,
       fst st2 = fst st1 /\
       log (snd st2)
       = log (snd st1) ++ [EExecute c sql; EFetchall c; ERollback h] /\
       (raises drv (S (S (tick (snd st1)))) = None ->
        execute drv sql st = (Raise (DbError e), st2)) /\
       (forall e', raises drv (S (S (tick (snd st1)))) = Some e' ->
        execute drv sql st = (Raise (DbError e'), st2))).
Proof.
  intros Hb Hc Hcur H0.
  destruct (connect_true drv _ _ Hc) as (h & Hh & _).
  destruct st1 as [self1 w1]. cbn [fst snd] in *.
  exists h. split; [exact Hh|]. split.
  - intros Hn.
    exists (self1, bump (emit (EExecute c sql) w1)).
    split; [|split; reflexivity].
    unfold execute. rewrite Hb.
    apply (get_cursor_returns drv _ st (self1, w1) _ _ Hc).
    cbn [fst]. rewrite Hcur. unfold bind at 1.
    rewrite (cursor_execute_returns drv c sql self1 w1 H0).
    now rewrite Hn.
  - intros e Hy H1.
    exists (self1, bump (emit (ERollback h)
                     (bump (emit (EFetchall c) (bump (emit (EExecute c sql) w1)))))).
    split; [reflexivity|]. split; [cbn; now rewrite <- !app_assoc|].
    assert (G : execute drv sql st
                = (Raise (leaves_handler drv (S (S (tick w1))) (DbError e)),
                   (self1, bump (emit (ERollback h)
                                   (bump (emit (EFetchall c)
                                            (bump (emit (EExecute c sql) w1)))))))).
    { unfold execute. rewrite Hb.
      apply (get_cursor_reraises drv _ st (self1, w1)
               (self1, bump (emit (EFetchall c) (bump (emit (EExecute c sql) w1))))
               (DbError e) h Hc); [|exact Hh].
      cbn [fst]. rewrite Hcur. unfold bind at 1.
      rewrite (cursor_execute_returns drv c sql self1 w1 H0).
      rewrite Hy. unfold has_result_set in Hy.
      apply andb_true_iff in Hy. destruct Hy as [_ Hy].
      unfold column_names.
      destruct (description (answer drv (tick w1) sql)) as [[|d0 ds]|];
        try discriminate.
      run_py. rewrite H1. reflexivity. }
    unfold leaves_handler in G. split.
    + intros H2. now rewrite H2 in G.
    + intros e' H2. now rewrite H2 in G.
Qed.

End ConnectorLatePaths.

Lemma execute_modify_commits_witness :
  (exists st2,
     execute_modify (driver_ok country_rows) (lit "DELETE FROM country;")
       (connected_sample 3 2, world_with_session)
     = (Return 2, st2) /\
     log (snd st2)
     = [EExecute 0%nat (lit "DELETE FROM country;"); ECommit 0%nat]) /\
  (exists st2,
     execute_modify (driver_raising_at 1 DEADLOCK country_rows)
       (lit "DELETE FROM country;")
       (connected_sample 3 2, world_with_session)
     = (Raise (DbError DEADLOCK), st2) /\
     log (snd st2)
     = [EExecute 0%nat (lit "DELETE FROM country;"); ECommit 0%nat;
        ERollback 0%nat]).
Proof.
  split.
  - destruct (execute_modify_commits (driver_ok country_rows)
                (lit "DELETE FROM country;")
                (connected_sample 3 2, world_with_session)
                (connected_sample 3 2, world_with_session) 0%nat)
      as (h & Hh & Hok & _); try reflexivity.
    injection Hh as <-.
    destruct (Hok eq_refl) as (st2 & E & _ & L).
    exists st2. split; [exact E | exact L].
  - destruct (execute_modify_commits (driver_raising_at 1 DEADLOCK country_rows)
                (lit "DELETE FROM country;")
                (connected_sample 3 2, world_with_session)
                (connected_sample 3 2, world_with_session) 0%nat)
      as (h & Hh & _ & Herr); try reflexivity.
    injection Hh as <-.
    destruct (Herr DEADLOCK eq_refl) as (st2 & _ & L & E & _).
    exists st2. split; [exact (E eq_refl) | exact L].
Defined.

Lemma execute_without_rows_or_fetch_witness :
  exists st2,
    execute (driver_raising_at 1 QUERY_INTERRUPTED country_rows) (lit "SELECT 1")
      (connected_sample 3 2, world_with_session)
    = (Raise (DbError QUERY_INTERRUPTED), st2) /\
    log (snd st2)
    = [EExecute 0%nat (lit "SELECT 1"); EFetchall 0%nat; ERollback 0%nat].
Proof.
  destruct (execute_without_rows_or_fetch
              (driver_raising_at 1 QUERY_INTERRUPTED country_rows)
              (lit "SELECT 1")
              (connected_sample 3 2, world_with_session)
              (connected_sample 3 2, world_with_session) 0%nat)
    as (h & Hh & _ & Herr); try reflexivity.
  injection Hh as <-.
  destruct (Herr QUERY_INTERRUPTED eq_refl eq_refl) as (st2 & _ & L & E & _).
  exists st2. split; [exact (E eq_refl) | exact L].
Defined.

Section Streaming.

Variable drv : Oracle.

Lemma calm_from_next t : calm_from drv t -> calm_from drv (S t).
Proof.
  intros H n. replace (S t + n)%nat with (t + S n)%nat by lia. apply H.
Qed.

Lemma calm_from_here t : calm_from drv t -> raises drv t = None.
Proof. intros H. rewrite <- (Nat.add_0_r t). apply H. Qed.

Lemma fetch_count_positive n : 1 <= n -> (1 <= fetch_count n)%nat.
Proof.
  intros H. unfold fetch_count. destruct (Z.eqb_spec n 0); lia.
Qed.

(** With a calm driver the loop hands out every unread row, whatever the
    size of the batches from 1 up. *)
Lemma fetch_loop_streams (c : Cursor) (n : Z) (rs : ResultSet) descs :
  description rs = Some descs ->
  1 <= n ->
  forall fuel pending self w,
    calm_from drv (tick w) ->
    (List.length pending < fuel)%nat ->
    fst (fetch_loop drv fuel c n rs pending (self, w))
    = Return (map (row_dict (map col_name descs)) pending).
Proof.
  intros Hd Hn. pose proof (fetch_count_positive n Hn) as Hk.
  induction fuel as [|fuel IH]; intros pending self w Hcalm Hf; [lia|].
  cbn [fetch_loop]. destruct c as [h]. unfold bind at 1.
  unfold cursor_fetchmany. run_py. rewrite (calm_from_here _ Hcalm).
  destruct (firstn (fetch_count n) pending) as [|row rows] eqn:F.
  - destruct pending as [|p pending]; [reflexivity|].
    destruct (fetch_count n); [lia | discriminate].
  - unfold column_names. rewrite Hd. run_py.
    set (w' := fold_left _ _ _).
    assert (Tw : tick w' = S (tick w)).
    { subst w'.
      assert (G : forall l w0,
                tick (fold_left (fun w1 d => emit (EYield d) w1) l w0) = tick w0).
      { induction l as [|d l IHl]; intros w0; simpl; [reflexivity|].
        now rewrite IHl. }
      apply (G (map _ rows)). }
    pose proof (firstn_cons_skipn_shorter _ _ _ _ F) as L.
    specialize (IH (skipn (fetch_count n) pending) self w').
    rewrite Tw in IH. specialize (IH (calm_from_next _ Hcalm)).
    assert (Hf' : (List.length (skipn (fetch_count n) pending) < fuel)%nat) by lia.
    specialize (IH Hf').
    destruct (fetch_loop drv fuel (CursorOf h) n rs
                (skipn (fetch_count n) pending) (self, w')) as [r s'].
    cbn [fst] in IH. subst r. cbn [fst].
    rewrite <- (firstn_skipn (fetch_count n) pending) at 2.
    now rewrite map_app, F.
Qed.

(** X4: on a connected object and with a driver that raises nothing,
    iterating [query_generator] with any chunk size from 1 up yields one
    mapping for every row of the result set, in order: the same mappings
    [execute] returns, whatever the size of the batches. *)
Theorem query_generator_streams_all (sql : str) (chunk : Z) (st st1 : St)
    (c : handle) (descs : list ColumnDesc) :
  _connect drv st = (Return true, st1) ->
  cursor (fst st1) = Some (CursorOf c) ->
  calm_from drv (tick (snd st1)) ->
  description (answer drv (tick (snd st1)) sql) = Some descs ->
  1 <= chunk ->
  fst (query_generator drv sql chunk st)
  = Return (map (row_dict (map col_name descs))
              (unread (answer drv (tick (snd st1)) sql))).
Proof.
  intros Hc Hcur Hcalm Hd Hn. destruct st1 as [self1 w1]. cbn [fst snd] in *.
  pose proof (calm_from_here _ Hcalm) as H0.
  assert (E : forall a st2,
            fetch_loop drv
              (S (List.length (unread (answer drv (tick w1) sql))))
              (CursorOf c) chunk (answer drv (tick w1) sql)
              (unread (answer drv (tick w1) sql))
              (self1, bump (emit (EExecute c sql) w1)) = (Return a, st2) ->
            query_generator drv sql chunk st = (Return a, st2)).
  { intros a st2 Hl. unfold query_generator.
    apply (get_cursor_returns drv _ st (self1, w1) _ _ Hc).
    cbn [fst]. rewrite Hcur. unfold bind at 1.
    now rewrite (cursor_execute_returns drv c sql self1 w1 H0). }
  pose proof (fetch_loop_streams (CursorOf c) chunk _ descs Hd Hn
                (S (List.length (unread (answer drv (tick w1) sql))))
                (unread (answer drv (tick w1) sql)) self1
                (bump (emit (EExecute c sql) w1))
                (calm_from_next _ Hcalm) (Nat.lt_succ_diag_r _)) as X.
  destruct (fetch_loop _ _ _ _ _ _ _) as [r s2] eqn:L.
  cbn [fst] in X. subst r. now rewrite (E _ _ eq_refl).
Qed.

End Streaming.

Lemma query_generator_streams_all_witness :
  fst (query_generator (driver_ok country_rows) (lit "SELECT 1") 1
         (connected_sample 3 2, world_with_session))
  = Return [ [(lit "name", VStr (lit "Chad")); (lit "population", VInt 17)];
             [(lit "name", VStr (lit "Peru")); (lit "population", VInt 33)] ].
Proof.
  apply (query_generator_streams_all (driver_ok country_rows)
           (lit "SELECT 1") 1
           (connected_sample 3 2, world_with_session)
           (connected_sample 3 2, world_with_session) 0%nat
           [ {| col_name := lit "name"; type_code := 253 |};
             {| col_name := lit "population"; type_code := 3 |} ]
           eq_refl eq_refl (fun _ => eq_refl) eq_refl).
  lia.
Defined.

(* --------------------------------------------------------------------- *)
(** ** Without a session                                                  *)
(* --------------------------------------------------------------------- *)

Section Unconnected.

Variable drv : Oracle.

Lemma close_events_connection self :
  forallb is_connection_event (close_events self) = true.
Proof. unfold close_events. now destruct (connection self). Qed.

(** Whatever the driver does and however the loop ends, it adds only
    events of connecting to the trace. *)
Lemma connect_loop_events attempts : forall s,
  exists evs,
    log (snd (snd (connect_loop drv attempts s))) = log (snd s) ++ evs /\
    forallb is_connection_event evs = true.
Proof.
  induction attempts as [|a rest IH]; intros [self w].
  - exists []. cbn. now rewrite app_nil_r.
  - rewrite connect_loop_cons.
    destruct (session_alive self w) eqn:A.
    { rewrite (attempt_alive drv _ _ A). exists []. cbn.
      now rewrite app_nil_r. }
    assert (K : forall s1 : St, exists evs,
      log (snd (snd ((self0 <- get_self ;;
                      if a <? reconnect_attempts self0 then
                        time_sleep (reconnect_delay self0) ;; connect_loop drv rest
                      else ret false)%py s1))) = log (snd s1) ++ evs /\
      forallb is_connection_event evs = true).
    { intros s1. run_py. destruct (a <? reconnect_attempts (fst s1)).
      - destruct (reconnect_delay (fst s1) <? 0).
        + exists []. cbn. now rewrite app_nil_r.
        + destruct (IH (fst s1, {| tick := tick (snd s1);
                                   live := live (snd s1);
                                   next_handle := next_handle (snd s1);
                                   log := log (snd s1)
                                          ++ [ESleep (reconnect_delay (fst s1))] |}))
            as (evs & L & F).
          exists (ESleep (reconnect_delay (fst s1)) :: evs).
          cbn [snd log] in L. rewrite L, <- app_assoc. now split.
      - exists []. cbn. now rewrite app_nil_r. }
    destruct (raises drv (tick w)) as [e|] eqn:R0.
    { rewrite (attempt_refused drv _ _ e A R0).
      destruct (K (refused self w)) as (evs & L & F).
      exists ((close_events self ++ [EConnect (config self) None]) ++ evs).
      rewrite L, refused_log. cbn [snd]. rewrite <- !app_assoc. split; [reflexivity|].
      rewrite !forallb_app, close_events_connection, F. reflexivity. }
    destruct (raises drv (S (tick w))) as [e|] eqn:R1.
    { rewrite (attempt_cursorless drv _ _ e A R0 R1).
      destruct (K (cursorless self w)) as (evs & L & F).
      exists ((close_events self
                 ++ [EConnect (config self) (Some (next_handle w));
                     ECursor (next_handle w) false]) ++ evs).
      rewrite L, cursorless_log. cbn [snd]. rewrite <- !app_assoc.
      split; [reflexivity|].
      rewrite !forallb_app, close_events_connection, F. reflexivity. }
    rewrite (attempt_established drv _ _ A R0 R1).
    exists (close_events self
              ++ [EConnect (config self) (Some (next_handle w));
                  ECursor (next_handle w) true]).
    cbn [snd]. rewrite established_log. cbn [snd]. split; [reflexivity|].
    rewrite forallb_app, close_events_connection. reflexivity.
Qed.

Lemma statements_connection evs :
  forallb is_connection_event evs = true -> statements evs = [].
Proof.
  induction evs as [|e evs IH]; [reflexivity|].
  cbn [forallb]. intros H. apply andb_prop in H. destruct H as [He H].
  destruct e; try discriminate; cbn [statements]; now apply IH.
Qed.

Lemma statements_app a b : statements (a ++ b) = statements a ++ statements b.
Proof.
  induction a as [|e a IH]; [reflexivity|].
  destruct e; cbn [app statements]; rewrite IH; reflexivity.
Qed.

(** X5: when [_connect] answers false, [execute], [execute_modify] and
    [query_generator] raise the connection error from the state [_connect]
    left; up to there the trace has gained only events of connecting
    (connect, cursor, close and sleep calls): the statement was never
    sent, and nothing was fetched, committed or rolled back. *)
Theorem unconnected_sends_nothing (sql : str) (chunk : Z) (st st1 : St) :
  is_blank sql = false ->
  _connect drv st = (Return false, st1) ->
  execute drv sql st
  = (Raise (ConnectionError "Failed to connect to MariaDB"), st1) /\
  execute_modify drv sql st
  = (Raise (ConnectionError "Failed to connect to MariaDB"), st1) /\
  query_generator drv sql chunk st
  = (Raise (ConnectionError "Failed to connect to MariaDB"), st1) /\
  exists evs,
    log (snd st1) = log (snd st) ++ evs /\
    forallb is_connection_event evs = true /\
    statements (log (snd st1)) = statements (log (snd st)).
Proof.
  intros Hb Hc. unfold execute, execute_modify, query_generator. rewrite Hb.
  rewrite !(get_cursor_unconnected drv _ st st1 Hc).
  repeat (split; [reflexivity|]).
  destruct (connect_loop_events
              (range (reconnect_attempts (fst st) + 1)) st) as (evs & L & F).
  assert (E : _connect drv st
              = connect_loop drv (range (reconnect_attempts (fst st) + 1)) st).
  { unfold _connect. run_py. reflexivity. }
  rewrite <- E, Hc in L. cbn [snd] in L.
  exists evs. split; [exact L|]. split; [exact F|].
  rewrite L, statements_app, (statements_connection _ F). apply app_nil_r.
Qed.

Lemma stale_closed_tick self w :
  tick (stale_closed self w) = tick w /\
  next_handle (stale_closed self w) = next_handle w.
Proof. unfold stale_closed. now destruct (connection self). Qed.




End Unconnected.

Lemma unconnected_sends_nothing_witness :
  execute driver_down (lit "SELECT 1") (sample_connection 1 0, quiet_world)
  = (Raise (ConnectionError "Failed to connect to MariaDB"),
     snd (_connect driver_down (sample_connection 1 0, quiet_world))).
Proof.
  apply (unconnected_sends_nothing driver_down (lit "SELECT 1") 10
           (sample_connection 1 0, quiet_world)
           (snd (_connect driver_down (sample_connection 1 0, quiet_world)))).
  - reflexivity.
  - vm_compute. reflexivity.
Defined.


(* --------------------------------------------------------------------- *)
(** ** Closing and coming back                                            *)
(* --------------------------------------------------------------------- *)

Section Reconnect.

Variable drv : Oracle.

Lemma closed_not_alive self w :
  session_alive self
    (if session_alive self w then stale_closed self w else w) = false.
Proof.
  destruct (session_alive self w) eqn:A; [|exact A].
  destruct (session_alive self (stale_closed self w)) eqn:B; [|reflexivity].
  apply session_alive_holds in B. now apply stale_closed_drops in B.
Qed.

(** X7: [close] keeps the connection object in [self.connection], so the
    next [_connect] finds it not connected, closes it once more and opens
    a new session: with a retry count from 0 up and a driver that accepts
    the connect and the cursor call, [_connect] after [close] answers true
    on the first attempt, the object holds the new session with a cursor
    on it, and the session held before is open no longer. *)
Theorem close_then_reconnect (self : MariaDBConnection) (w : World) :
  0 <= reconnect_attempts self ->
  raises drv (tick w) = None ->
  raises drv (S (tick w)) = None ->
  exists w1 st2,
    close (self, w) = (Return tt, (self, w1)) /\
    _connect drv (self, w1) = (Return true, st2) /\
    connection (fst st2) = Some (next_handle w) /\
    cursor (fst st2) = Some (CursorOf (next_handle w)) /\
    In (next_handle w) (live (snd st2)) /\
    log (snd st2)
    = log w1 ++ close_events self
        ++ [EConnect (config self) (Some (next_handle w));
            ECursor (next_handle w) true] /\
    (forall h, connection self = Some h -> h <> next_handle w ->
               ~ In h (live (snd st2))).
Proof.
  intros HR H0 H1. rewrite close_result.
  set (w1 := if session_alive self w then stale_closed self w else w).
  assert (A : session_alive self w1 = false) by apply closed_not_alive.
  assert (T : tick w1 = tick w /\ next_handle w1 = next_handle w).
  { subst w1. destruct (session_alive self w); [|now split].
    apply stale_closed_tick. }
  destruct T as [T N].
  exists w1, (established self w1).
  split; [reflexivity|].
  split.
  { unfold _connect. run_py. rewrite range_succ by exact HR.
    cbn [seq map]. rewrite connect_loop_cons.
    now rewrite (attempt_established drv self w1 A)
      by (rewrite T; assumption). }
  unfold established. cbn [fst snd]. rewrite N.
  split; [reflexivity|]. split; [reflexivity|].
  split.
  { unfold accepted, stale_closed. destruct (connection self); simpl;
      rewrite N; now left. }
  split.
  { pose proof (established_log self w1) as L. unfold established in L.
    cbn [snd] in L. now rewrite N in L. }
  intros h Hc Hne Hin.
  assert (Hin' : In h (live (stale_closed self w1))).
  { unfold accepted in Hin. cbn in Hin.
    destruct Hin as [E|Hin]; [|exact Hin].
    rewrite (proj2 (stale_closed_tick self w1)), N in E. now symmetry in E. }
  apply (stale_closed_drops self w1). exists h. split; assumption.
Qed.

End Reconnect.

Lemma close_then_reconnect_witness :
  exists w1 st2,
    close (connected_sample 3 2, world_with_session)
    = (Return tt, (connected_sample 3 2, w1)) /\
    _connect (driver_ok no_rows) (connected_sample 3 2, w1) = (Return true, st2) /\
    connection (fst st2) = Some 1%nat /\
    live (snd st2) = [1%nat].
Proof.
  destruct (close_then_reconnect (driver_ok no_rows) (connected_sample 3 2)
              world_with_session) as (w1 & st2 & C & E & Hc & _).
  - simpl. lia.
  - reflexivity.
  - reflexivity.
  - exists w1, st2. split; [exact C|]. split; [exact E|]. split; [exact Hc|].
    injection C as <-. injection E as <-. reflexivity.
Defined.

(* ===================================================================== *)
(** * The callers of the connector                                        *)
(* ===================================================================== *)

Section Callers.

Variable drv : Oracle.

Lemma closed_holds_nothing self w :
  ~ holds_live_session
      (self, if session_alive self w then stale_closed self w else w).
Proof.
  intros H. apply holds_session_alive in H.
  now rewrite closed_not_alive in H.
Qed.

(** X8: used as a context manager, the connector runs the block whatever
    [_connect] answered in [__enter__], hands on what the block returned
    or raised, and has closed the session by then: after the [with]
    statement the object holds no open session, and is otherwise as the
    block left it. *)
Theorem with_block_closes {A} (body : M St A) (s s1 : St) (b : bool) :
  _connect drv s = (Return b, s1) ->
  fst (with_block drv body s) = fst (body s1) /\
  fst (snd (with_block drv body s)) = fst (snd (body s1)) /\
  ~ holds_live_session (snd (with_block drv body s)).
Proof.
  intros Hc.
  assert (E : with_block drv body s
              = match close (snd (body s1)) with
                | (Return _, s') => (fst (body s1), s')
                | (Raise e, s') => (Raise e, s')
                end).
  { unfold with_block, __enter__, __exit__, bind, ret. now rewrite Hc. }
  rewrite E. destruct (body s1) as [r [self2 w2]]. cbn [fst snd].
  rewrite close_result. cbn [fst snd].
  split; [reflexivity|]. split; [reflexivity|].
  apply closed_holds_nothing.
Qed.




End Callers.


Lemma with_block_closes_witness :
  fst (with_block (driver_ok country_rows)
         (execute (driver_ok country_rows) (lit "SELECT 1"))
         (sample_connection 3 2, quiet_world))
  = fst (execute (driver_ok country_rows) (lit "SELECT 1")
           (snd (_connect (driver_ok country_rows)
                   (sample_connection 3 2, quiet_world)))).
Proof.
  apply (with_block_closes (driver_ok country_rows)
           (execute (driver_ok country_rows) (lit "SELECT 1"))
           (sample_connection 3 2, quiet_world) _ true).
  vm_compute. reflexivity.
Defined.

(* ===================================================================== *)
(** * Further properties of the frame                                     *)
(* ===================================================================== *)

Section GridMore.

Lemma dress_all_opts cols : forall t col,
  assoc_get (column_opts (fold_left dress cols t)) col
  = if existsb (fun c => str_eqb c col) cols
    then Some {| anchor := lit "w"; width := column_width col;
                 minwidth := column_width col; stretch := false |}
    else assoc_get (column_opts t) col.
Proof.
  induction cols as [|c cols IH]; intros t col; simpl; [reflexivity|].
  rewrite IH. destruct (existsb _ cols); [now rewrite orb_true_r|].
  rewrite orb_false_r. cbn [dress column heading column_opts].
  rewrite assoc_get_set. destruct (str_eqb c col) eqn:E; [|reflexivity].
  apply str_eqb_eq in E. now subst.
Qed.

Lemma insert_all_opts (f : Dict -> list value) (rows : list Dict) : forall t,
  column_opts (fold_left (fun t row => insert_end (f row) t) rows t)
  = column_opts t.
Proof.
  induction rows as [|r rows IH]; intros t; simpl; [reflexivity|].
  now rewrite IH.
Qed.

Lemma existsb_str_eqb col cols :
  existsb (fun c => str_eqb c col) cols = true <-> In col cols.
Proof.
  rewrite existsb_exists. split.
  - intros (c & Hin & E). apply str_eqb_eq in E. now subst.
  - intros Hin. exists col. split; [exact Hin | apply str_eqb_refl].
Qed.

(** X11: the tree [load_to_tkinter_grid] builds from a non-empty result
    set depends on the result set alone: no column, heading, option or
    row of what was shown before survives.  Every column of the first row
    is left-anchored, fixed (minimal width equal to its width, no
    stretch) and 200 wide when its name is [name] in any letter case, 120
    otherwise; a name that is no key of the first row has neither options
    nor heading. *)
Theorem grid_replaces_previous (first : Dict) (rest : list Dict) (a : App) :
  (forall b, result_tree (load_to_tkinter_grid (first :: rest) b)
             = result_tree (load_to_tkinter_grid (first :: rest) a)) /\
  (forall col, In col (keys first) ->
     assoc_get
       (column_opts (result_tree (load_to_tkinter_grid (first :: rest) a))) col
     = Some {| anchor := lit "w";
               width := if str_eqb (lower col) (lit "name") then 200 else 120;
               minwidth := if str_eqb (lower col) (lit "name") then 200 else 120;
               stretch := false |}) /\
  (forall col, ~ In col (keys first) ->
     assoc_get
       (column_opts (result_tree (load_to_tkinter_grid (first :: rest) a))) col
     = None /\
     assoc_get
       (headings (result_tree (load_to_tkinter_grid (first :: rest) a))) col
     = None).
Proof.
  split; [intros b; now rewrite !loaded_tree|].
  rewrite loaded_tree.
  destruct (insert_all (row_values (keys first)) (first :: rest)
              (fold_left dress (keys first)
                 (configure_columns (keys first)
                    (delete_children (result_tree a))))) as (_ & Hh & _).
  rewrite Hh, insert_all_opts.
  split.
  - intros col Hin. rewrite dress_all_opts.
    apply existsb_str_eqb in Hin. now rewrite Hin.
  - intros col Hin. rewrite dress_all_opts, dress_all_headings.
    destruct (existsb (fun c => str_eqb c col) (keys first)) eqn:E.
    + now apply existsb_str_eqb in E.
    + now split.
Qed.

(** What the resize handler leaves alone besides the tree. *)
Lemma on_root_resize_rest a :
  text (_on_root_resize a) = text a /\
  status_var (_on_root_resize a) = status_var a /\
  warnings (_on_root_resize a) = warnings a /\
  master_height (_on_root_resize a) = master_height a /\
  linespace (_on_root_resize a) = linespace a.
Proof.
  unfold _on_root_resize. destruct (master_height a) as [h|] eqn:Hm;
    [|now repeat split].
  destruct (h <=? 0); [now repeat split|]. cbv zeta.
  destruct (text_height a =? _);
    cbn [result_frame_shown set_text_height];
    destruct (result_frame_shown a);
    try destruct (row0_minsize _ =? _);
    repeat split; exact Hm.
Qed.

(** The height the handler gives the text widget. *)
Lemma on_root_resize_height a H :
  master_height a = Some H ->
  0 < H ->
  text_height (_on_root_resize a)
  = Z.max 2 (Z.max 1 (H / 4 / (if linespace a =? 0 then 1 else linespace a))).
Proof.
  intros Hm Hpos. unfold _on_root_resize. rewrite Hm.
  destruct (Z.leb_spec H 0) as [L|L]; [lia|]. cbv zeta.
  destruct (Z.eqb_spec (text_height a)
              (Z.max 2 (Z.max 1 (H / 4 / (if linespace a =? 0 then 1
                                            else linespace a))))) as [E|E].
  - destruct (result_frame_shown a); [|exact E].
    destruct (row0_minsize a =? H / 2); exact E.
  - cbn [result_frame_shown set_text_height].
    destruct (result_frame_shown a); [|reflexivity].
    cbn [row0_minsize set_text_height].
    destruct (row0_minsize a =? H / 2); reflexivity.
Qed.

(** X12: in a window of positive height [H], with a font whose line
    height is not negative, the resize handler sets the height of the
    text widget to at least two lines, and to more than two only when
    these lines fit into a quarter of [H]; the height depends on [H] and
    the font alone, so handling the same event again changes nothing of
    it. *)
Theorem resize_bounds_text (a : App) (H : Z) :
  master_height a = Some H ->
  0 < H ->
  0 <= linespace a ->
  2 <= text_height (_on_root_resize a) /\
  (text_height (_on_root_resize a) = 2 \/
   4 * (text_height (_on_root_resize a)
        * (if linespace a =? 0 then 1 else linespace a)) <= H) /\
  text_height (_on_root_resize (_on_root_resize a))
  = text_height (_on_root_resize a) /\
  (forall b, master_height b = Some H -> linespace b = linespace a ->
             text_height (_on_root_resize b) = text_height (_on_root_resize a)).
Proof.
  intros Hm Hpos Hl.
  destruct (on_root_resize_rest a) as (_ & _ & _ & Hm' & Hl').
  rewrite Hm in Hm'.
  rewrite (on_root_resize_height _ H Hm' Hpos), Hl'.
  rewrite (on_root_resize_height _ H Hm Hpos).
  set (lh := if linespace a =? 0 then 1 else linespace a).
  assert (Hlh : 1 <= lh).
  { subst lh. destruct (Z.eqb_spec (linespace a) 0); lia. }
  split; [lia|].
  split.
  - destruct (Z.le_gt_cases (H / 4 / lh) 2) as [Q|Q]; [left; lia|].
    right. replace (Z.max 2 (Z.max 1 (H / 4 / lh))) with (H / 4 / lh) by lia.
    pose proof (Z.mul_div_le (H / 4) lh ltac:(lia)) as M1.
    pose proof (Z.mul_div_le H 4 ltac:(lia)) as M2.
    rewrite (Z.mul_comm (H / 4 / lh) lh). lia.
  - split; [reflexivity|].
    intros b Hb Lb. rewrite (on_root_resize_height _ H Hb Hpos), Lb.
    reflexivity.
Qed.

End GridMore.

Section SubmitMore.

Variable drv : Oracle.
Variable send_message : str -> str.

(** X13: a submission that raises leaves the result grid alone.  With a
    request that is not blank, whenever [on_submit] raises, the tree and
    the visibility of the result frame are as before and the status line
    reads the length of the request.  It raises the run-time error, the
    driver side untouched, when no connector is set; and it raises the
    empty-statement error, again without a driver call, when the reply
    of the translator is blank once cleaned. *)
Theorem failed_submit_keeps_grid (a : App) (w : World) :
  truthy (strip (text a)) = true ->
  (forall e s',
     on_submit drv send_message (a, w) = (Raise e, s') ->
     result_tree (fst s') = result_tree a /\
     result_frame_shown (fst s') = result_frame_shown a /\
     text (fst s') = text a /\
     status_var (fst s') = Submitted (List.length (text a))) /\
  (db a = None ->
   exists a',
     on_submit drv send_message (a, w)
     = (Raise (RuntimeError
                 "No database connection configured. Call initialize_connection first."),
        (a', w))) /\
  (db a <> None ->
   is_blank (clean_ai_response (send_message (text a))) = true ->
   exists a',
     on_submit drv send_message (a, w) = (Raise EMPTY_SQL, (a', w))).
Proof.
  intros Ht. unfold on_submit, execute_sql, generate_sql. cbn [fst snd].
  rewrite Ht. cbn [negb set_status db].
  split.
  - intros e s'. destruct (db a) as [conn|].
    + destruct (execute drv _ (conn, w)) as [[r|e0] [self1 w1]]; cbn [fst snd];
        [discriminate|].
      intros X. injection X as _ <-. now repeat split.
    + intros X. injection X as _ <-. now repeat split.
  - split.
    + intros Hdb. rewrite Hdb. eexists. reflexivity.
    + intros Hdb Hb. destruct (db a) as [conn|]; [|contradiction].
      unfold execute. rewrite Hb. unfold raise. cbn [fst snd].
      eexists. reflexivity.
Qed.

(** X14: [on_clear] empties the request and hides the result frame but
    keeps the rows of the tree; a submission right after it only warns:
    it returns without a call to the driver, shows the one warning, and
    the frame stays hidden with the tree as it was. *)
Theorem clear_then_submit_warns (a : App) (w : World) :
  result_tree (on_clear a) = result_tree a /\
  result_frame_shown (on_clear a) = false /\
  text (on_clear a) = [] /\
  exists a',
    on_submit drv send_message (on_clear a, w) = (Return tt, (a', w)) /\
    status_var a' = NothingToSubmit /\
    warnings a'
    = warnings a ++ [("Empty"%string,
                      "Please enter some text before submitting."%string)] /\
    result_tree a' = result_tree a /\
    result_frame_shown a' = false.
Proof.
  unfold on_clear. cbv zeta.
  set (b := set_result_frame_shown false (set_status Cleared (set_text [] a))).
  destruct (on_root_resize_frame b) as (Ht & Hs & _).
  destruct (on_root_resize_rest b) as (Hx & _ & Hw & _).
  split; [now rewrite Ht|]. split; [now rewrite Hs|]. split; [now rewrite Hx|].
  unfold on_submit. cbn [fst snd]. rewrite Hx. cbn [strip truthy negb].
  eexists. split; [reflexivity|].
  cbn [set_status showwarning status_var warnings result_tree
       result_frame_shown].
  rewrite Hw, Ht, Hs. now repeat split.
Qed.

End SubmitMore.

Lemma resize_bounds_text_witness :
  2 <= text_height (_on_root_resize sample_app) /\
  (text_height (_on_root_resize sample_app) = 2 \/
   4 * (text_height (_on_root_resize sample_app) * 16) <= 420).
Proof.
  destruct (resize_bounds_text sample_app 420 eq_refl) as (H2 & Hq & _).
  - lia.
  - simpl. lia.
  - split; [exact H2 | exact Hq].
Defined.

Lemma failed_submit_keeps_grid_witness :
  exists a',
    on_submit (driver_ok country_rows) (fun _ => lit "```sql" ++ [LF] ++ lit "```")
      (sample_app, world_with_session)
    = (Raise EMPTY_SQL, (a', world_with_session)).
Proof.
  apply (failed_submit_keeps_grid (driver_ok country_rows)
           (fun _ => lit "```sql" ++ [LF] ++ lit "```")
           sample_app world_with_session).
  - reflexivity.
  - discriminate.
  - reflexivity.
Defined.

(* ===================================================================== *)
(** * Further properties of [clean_ai_response]                           *)
(* ===================================================================== *)

Section CleanMore.

Lemma strip_inside s : exists pre post, s = pre ++ strip s ++ post.
Proof.
  unfold strip. destruct (lstrip_suffix s) as [pre E1].
  destruct (rstrip_prefix (lstrip s)) as [post E2].
  exists pre, post. now rewrite <- E2.
Qed.

Lemma strip_head s c t : strip s = c :: t -> isspace c = false.
Proof.
  unfold strip. intros H. destruct (rstrip_prefix (lstrip s)) as [suf E].
  rewrite H in E. unfold lstrip in E. simpl in E.
  eapply dropwhile_head. exact E.
Qed.

Lemma strip_last s t c : strip s = t ++ [c] -> isspace c = false.
Proof.
  unfold strip, rstrip. intros H. apply (f_equal (@rev _)) in H.
  rewrite rev_involutive, rev_app_distr in H. simpl in H.
  eapply dropwhile_head. exact H.
Qed.

Lemma strip_fixed a m z :
  isspace a = false -> isspace z = false ->
  strip (a :: m ++ [z]) = a :: m ++ [z].
Proof.
  intros Ha Hz. unfold strip, lstrip. cbn [dropwhile]. rewrite Ha.
  unfold rstrip. change (a :: m ++ [z]) with ((a :: m) ++ [z]).
  rewrite rev_app_distr. cbn [rev app dropwhile]. rewrite Hz.
  cbn [rev]. rewrite rev_app_distr, !rev_involutive. reflexivity.
Qed.

Lemma sub_opening_fence_suffix s : exists pre, s = pre ++ sub_opening_fence s.
Proof.
  unfold sub_opening_fence. destruct (startswith FENCE s); [|now exists []].
  destruct (dropwhile_suffix is_ascii_letter (skipn 3 s)) as [pre E].
  destruct (dropwhile is_ascii_letter (skipn 3 s)) as [|c rest].
  - exists s. now rewrite app_nil_r.
  - destruct (c =? LF)%N.
    + exists (firstn 3 s ++ pre ++ [c]).
      rewrite <- !app_assoc. cbn [app]. rewrite <- E. now rewrite firstn_skipn.
    + exists (firstn 3 s ++ pre).
      rewrite <- app_assoc, <- E. now rewrite firstn_skipn.
Qed.

Lemma endswith_last p c s :
  endswith (p ++ [c]) (strip s) = true -> isspace c = false.
Proof.
  intros H. apply endswith_spec in H. destruct H as [t E].
  rewrite app_assoc in E. exact (strip_last _ _ _ E).
Qed.

Lemma sub_closing_fence_prefix s :
  exists post, strip s = sub_closing_fence (strip s) ++ post.
Proof.
  unfold sub_closing_fence.
  destruct (endswith (LF :: FENCE) (strip s));
    [eexists; symmetry; apply firstn_skipn|].
  destruct (endswith FENCE (strip s));
    [eexists; symmetry; apply firstn_skipn|].
  destruct (endswith (LF :: FENCE ++ [LF]) (strip s)) eqn:E3.
  { change (LF :: FENCE ++ [LF]) with ((LF :: FENCE) ++ [LF]) in E3.
    apply endswith_last in E3. discriminate. }
  destruct (endswith (FENCE ++ [LF]) (strip s)) eqn:E4.
  { apply endswith_last in E4. discriminate. }
  exists []. now rewrite app_nil_r.
Qed.

(** X15: [clean_ai_response] only deletes at the two ends: for every
    reply the result is one contiguous piece of it, so nothing is
    inserted, reordered or taken out of the middle, and the result is not
    longer than the reply. *)
Theorem clean_only_deletes (reply : str) :
  (exists pre post, reply = pre ++ clean_ai_response reply ++ post) /\
  (List.length (clean_ai_response reply) <= List.length reply)%nat.
Proof.
  assert (X : exists pre post, reply = pre ++ clean_ai_response reply ++ post).
  { unfold clean_ai_response. cbv zeta.
    destruct (strip_inside reply) as (p1 & q1 & E1).
    destruct (sub_opening_fence_suffix (strip reply)) as (p2 & E2).
    destruct (strip_inside (sub_opening_fence (strip reply))) as (p3 & q3 & E3).
    destruct (sub_closing_fence_prefix (sub_opening_fence (strip reply)))
      as (q4 & E4).
    exists (p1 ++ p2 ++ p3), (q4 ++ q3 ++ q1).
    rewrite E1 at 1. rewrite E2 at 1. rewrite E3 at 1. rewrite E4 at 1.
    now rewrite <- !app_assoc. }
  split; [exact X|].
  destruct X as (pre & post & E). rewrite E at 2.
  rewrite !length_app. lia.
Qed.

Lemma dropwhile_app_stop p a c r :
  forallb p a = true -> p c = false -> dropwhile p (a ++ c :: r) = c :: r.
Proof.
  intros Ha Hc. induction a as [|x a IH]; cbn [app dropwhile].
  - now rewrite Hc.
  - cbn [forallb] in Ha. apply andb_prop in Ha. destruct Ha as [Hx Ha].
    rewrite Hx. now apply IH.
Qed.

Lemma startswith_app a b : startswith a (a ++ b) = true.
Proof.
  induction a as [|x a IH]; [reflexivity|].
  cbn [app startswith]. now rewrite N.eqb_refl, IH.
Qed.

Lemma endswith_app a b : endswith b (a ++ b) = true.
Proof. unfold endswith. rewrite rev_app_distr. apply startswith_app. Qed.

(** A text that ends with a line feed and a fence loses exactly these. *)
Lemma sub_closing_fence_wrapped p :
  sub_closing_fence (p ++ LF :: FENCE) = p.
Proof.
  unfold sub_closing_fence. rewrite endswith_app.
  rewrite length_app. cbn [List.length FENCE].
  replace (List.length p + 4 - 4)%nat with (List.length p + 0)%nat by lia.
  rewrite firstn_app_2. cbn [firstn]. apply app_nil_r.
Qed.

(** X16: a reply that consists of an opening fence with any language tag
    of ASCII letters (none included), a line feed, a text [p] without
    white space at its ends, a line feed and a closing fence is cleaned
    to exactly [p]. *)
Theorem fenced_reply_unwrapped (tag p : str) :
  forallb is_ascii_letter tag = true ->
  strip p = p ->
  clean_ai_response (FENCE ++ tag ++ LF :: p ++ LF :: FENCE) = p.
Proof.
  intros Htag Hp. unfold clean_ai_response. cbv zeta.
  assert (S1 : strip (FENCE ++ tag ++ LF :: p ++ LF :: FENCE)
               = FENCE ++ tag ++ LF :: p ++ LF :: FENCE).
  { replace (FENCE ++ tag ++ LF :: p ++ LF :: FENCE)
      with (BACKTICK :: ([BACKTICK; BACKTICK] ++ tag ++ LF :: p
                           ++ [LF; BACKTICK; BACKTICK]) ++ [BACKTICK]).
    - now apply strip_fixed.
    - unfold FENCE. cbn [app]. do 3 f_equal. rewrite <- !app_assoc.
      cbn [app]. f_equal. f_equal. rewrite <- app_assoc. reflexivity. }
  rewrite S1.
  assert (S2 : sub_opening_fence (FENCE ++ tag ++ LF :: p ++ LF :: FENCE)
               = p ++ LF :: FENCE).
  { unfold sub_opening_fence. rewrite startswith_app.
    change (skipn 3 (FENCE ++ tag ++ LF :: p ++ LF :: FENCE))
      with (tag ++ LF :: p ++ LF :: FENCE).
    rewrite (dropwhile_app_stop is_ascii_letter tag LF (p ++ LF :: FENCE) Htag eq_refl).
    now rewrite N.eqb_refl. }
  rewrite S2.
  destruct p as [|c p'].
  - reflexivity.
  - assert (Hc : isspace c = false) by exact (strip_head _ _ _ Hp).
    assert (S3 : strip ((c :: p') ++ LF :: FENCE) = (c :: p') ++ LF :: FENCE).
    { replace ((c :: p') ++ LF :: FENCE)
        with (c :: (p' ++ [LF; BACKTICK; BACKTICK]) ++ [BACKTICK]).
      - now apply strip_fixed.
      - cbn [app]. f_equal. rewrite <- app_assoc. reflexivity. }
    rewrite S3. apply sub_closing_fence_wrapped.
Qed.

End CleanMore.

Lemma fenced_reply_unwrapped_witness :
  clean_ai_response
    (FENCE ++ lit "json" ++ LF :: lit "SELECT 1;" ++ LF :: FENCE)
  = lit "SELECT 1;".
Proof.
  apply (fenced_reply_unwrapped (lit "json") (lit "SELECT 1;")); reflexivity.
Defined.

(* ===================================================================== *)
(** * Further properties of the speech listener                           *)
(* ===================================================================== *)

Section ListenerMore.

(** X17: the wrappers are idempotent: [start_speech] on a listener that
    listens and [stop_speech] on one that does not change nothing, so a
    second call in a row has no effect and starts no second worker.
    [start_speech] makes the listener listen exactly when there is a
    microphone, and without one changes nothing; [stop_speech] always
    ends listening, sets the stop event, and neither starts a worker nor
    calls a callback. *)
Theorem start_stop_wrappers (l : STTListener) :
  start_speech (start_speech l) = start_speech l /\
  stop_speech (stop_speech l) = stop_speech l /\
  is_listening (start_speech l) = is_listening l || microphone l /\
  (microphone l = false -> start_speech l = l) /\
  (List.length (threads (start_speech l)) <= S (List.length (threads l)))%nat /\
  is_listening (stop_speech l) = false /\
  (is_listening l = true -> stop_listening (stop_speech l) = true) /\
  threads (stop_speech l) = threads l /\
  notifications (stop_speech l) = notifications l /\
  transcripts (stop_speech l) = transcripts l.
Proof.
  destruct l as [mic listening stop th cb os ths tr ns].
  unfold start_speech, stop_speech, toggle_speech.
  destruct listening, mic, th; cbn;
    repeat split; try reflexivity; try discriminate;
    rewrite ?length_app; cbn; lia.
Qed.

Lemma heard_set_phase ths : forall t p q,
  nth_error ths t = Some q ->
  (List.length (filter heard (set_phase t p ths)) + Nat.b2n (heard q)
   = List.length (filter heard ths) + Nat.b2n (heard p))%nat.
Proof.
  induction ths as [|a ths IH]; intros [|t] p q H; cbn in H; try discriminate.
  - injection H as ->. cbn [set_phase filter].
    destruct (heard p), (heard q); cbn; lia.
  - specialize (IH t p q H). cbn [set_phase filter].
    destruct (heard a); cbn [List.length]; lia.
Qed.

Lemma set_phase_length ths : forall t p,
  List.length (set_phase t p ths) = List.length ths.
Proof.
  induction ths as [|a ths IH]; intros [|t] p; cbn; try reflexivity.
  now rewrite IH.
Qed.

(** One step adds at most one transcript, and only together with a
    worker that gets a phrase behind it; only a start adds a worker. *)
Lemma heard_step l a :
  (List.length (transcripts l) <= List.length (filter heard (threads l)))%nat ->
  (List.length (transcripts (step l a))
   <= List.length (filter heard (threads (step l a))))%nat /\
  (List.length (threads (step l a))
   <= List.length (threads l) + Nat.b2n (is_start a))%nat.
Proof.
  intros Inv. destruct a as [| | |t|t o|t]; cbn [step is_start Nat.b2n].
  - unfold start_speech, toggle_speech.
    destruct (is_listening l); cbn [negb]; [split; lia|].
    destruct (microphone l); cbn [negb]; [|split; lia].
    cbn [set_threads set_speech_thread set_flags threads transcripts].
    rewrite filter_app, !length_app. cbn. split; lia.
  - unfold stop_speech, toggle_speech.
    destruct (is_listening l); cbn [negb]; [|split; lia].
    cbn [set_flags speech_thread].
    destruct (speech_thread l); cbn; split; lia.
  - unfold shutdown, notify_stop. cbn [set_flags on_stop].
    destruct (on_stop l); cbn; split; lia.
  - unfold worker_check.
    destruct (nth_error (threads l) t) as [[| | |]|] eqn:N; try (split; lia).
    destruct (is_listening l && negb (stop_listening l));
      cbn [set_threads threads transcripts];
      rewrite set_phase_length;
      pose proof (heard_set_phase _ t Capturing _ N) as H1;
      pose proof (heard_set_phase _ t (Exited false) _ N) as H2;
      cbn [heard Nat.b2n] in H1, H2; split; lia.
  - unfold worker_hear.
    destruct (nth_error (threads l) t) as [[| | |]|] eqn:N; try (split; lia).
    pose proof (heard_set_phase _ t (Stopping o) _ N) as H1.
    cbn [heard Nat.b2n] in H1.
    assert (T : forall l0 : STTListener,
              threads l0 = threads l ->
              (List.length (transcripts l0) <= S (List.length (transcripts l)))%nat ->
              (List.length
                 (transcripts
                    (set_threads (set_phase t (Stopping o) (threads l0)) l0))
               <= List.length
                    (filter heard
                       (threads
                          (set_threads (set_phase t (Stopping o) (threads l0)) l0))))%nat /\
              (List.length
                 (threads (set_threads (set_phase t (Stopping o) (threads l0)) l0))
               <= List.length (threads l) + 0)%nat).
    { intros l0 E L. cbn [set_threads threads transcripts].
      rewrite E, set_phase_length. split; lia. }
    destruct o as [text| | |msg]; cbv zeta.
    + unfold _on_transcription. destruct (callback l);
        apply T; cbn [set_flags threads transcripts]; try reflexivity;
        rewrite ?length_app; cbn; lia.
    + apply T; cbn; [reflexivity | lia].
    + apply T; cbn; [reflexivity | lia].
    + apply T; cbn; [reflexivity | lia].
  - unfold worker_notify.
    destruct (nth_error (threads l) t) as [[| |o|]|] eqn:N; try (split; lia).
    pose proof (heard_set_phase _ t (Exited true) _ N) as H1.
    cbn [heard Nat.b2n] in H1. cbv zeta.
    unfold notify_stop. destruct (on_stop l);
      cbn [set_threads threads transcripts];
      rewrite set_phase_length; split; lia.
Qed.

Lemma heard_run schedule : forall l,
  (List.length (transcripts l) <= List.length (filter heard (threads l)))%nat ->
  (List.length (transcripts (run schedule l))
   <= List.length (filter heard (threads (run schedule l))))%nat /\
  (List.length (threads (run schedule l))
   <= List.length (threads l) + List.length (filter is_start schedule))%nat.
Proof.
  induction schedule as [|a schedule IH]; intros l Inv.
  - cbn. split; lia.
  - destruct (heard_step l a Inv) as [I1 I2].
    destruct (IH (step l a) I1) as [J1 J2].
    change (run (a :: schedule) l) with (run schedule (step l a)).
    split; [exact J1|]. cbn [filter].
    destruct (is_start a); cbn [Nat.b2n List.length] in *; lia.
Qed.

(** X18: a worker hands over at most one phrase.  However the calls of
    the owner and the steps of the workers interleave, a listener that
    started without workers has received no more transcripts than it has
    workers whose capture has ended, hence no more than it has workers,
    and no more workers than [start_speech] was called. *)
Theorem one_phrase_per_worker (cb stop : bool) (schedule : list Action) :
  (List.length (transcripts (run schedule (new_listener cb stop)))
   <= List.length
        (filter heard (threads (run schedule (new_listener cb stop)))))%nat /\
  (List.length
     (filter heard (threads (run schedule (new_listener cb stop))))
   <= List.length (threads (run schedule (new_listener cb stop))))%nat /\
  (List.length (threads (run schedule (new_listener cb stop)))
   <= List.length (filter is_start schedule))%nat /\
  (cb = false -> transcripts (run schedule (new_listener cb stop)) = []).
Proof.
  destruct (heard_run schedule (new_listener cb stop)) as [H1 H2];
    [cbn; lia|].
  split; [exact H1|]. split; [apply filter_length_le|].
  split; [exact H2|].
  intros ->.
  assert (G : forall sched l, callback l = false -> transcripts l = [] ->
                callback (run sched l) = false /\ transcripts (run sched l) = []).
  { induction sched as [|a sched IHs]; intros l Hc Ht; [now split|].
    change (run (a :: sched) l) with (run sched (step l a)).
    apply IHs.
    - destruct a as [| | |t|t o|t]; cbn [step].
      + unfold start_speech, toggle_speech.
        destruct (is_listening l), (microphone l); exact Hc.
      + unfold stop_speech, toggle_speech.
        destruct (is_listening l); [|exact Hc]. cbn.
        destruct (speech_thread l); exact Hc.
      + unfold shutdown, notify_stop. cbn. destruct (on_stop l); exact Hc.
      + unfold worker_check. destruct (nth_error (threads l) t) as [[| | |]|];
          try exact Hc.
        destruct (is_listening l && negb (stop_listening l)); exact Hc.
      + unfold worker_hear, _on_transcription.
        destruct (nth_error (threads l) t) as [[| | |]|]; try exact Hc.
        rewrite Hc. destruct o; exact Hc.
      + unfold worker_notify, notify_stop.
        destruct (nth_error (threads l) t) as [[| | |]|]; try exact Hc.
        destruct (on_stop l); exact Hc.
    - destruct a as [| | |t|t o|t]; cbn [step].
      + unfold start_speech, toggle_speech.
        destruct (is_listening l), (microphone l); exact Ht.
      + unfold stop_speech, toggle_speech.
        destruct (is_listening l); [|exact Ht]. cbn.
        destruct (speech_thread l); exact Ht.
      + unfold shutdown, notify_stop. cbn. destruct (on_stop l); exact Ht.
      + unfold worker_check. destruct (nth_error (threads l) t) as [[| | |]|];
          try exact Ht.
        destruct (is_listening l && negb (stop_listening l)); exact Ht.
      + unfold worker_hear, _on_transcription.
        destruct (nth_error (threads l) t) as [[| | |]|]; try exact Ht.
        rewrite Hc. destruct o; exact Ht.
      + unfold worker_notify, notify_stop.
        destruct (nth_error (threads l) t) as [[| | |]|]; try exact Ht.
        destruct (on_stop l); exact Ht. }
  now apply G.
Qed.

End ListenerMore.

(* ===================================================================== *)
(** * The kinds of events a computation adds                              *)
(* ===================================================================== *)

Section Adds.

Variable drv : Oracle.
Variable p : Event -> bool.

Lemma adds_ret {A} (a : A) : adds p (ret a).
Proof. intros s. exists []. cbn. now rewrite app_nil_r. Qed.

Lemma adds_raise {A} e : adds p (@raise St A e).
Proof. intros s. exists []. cbn. now rewrite app_nil_r. Qed.

Lemma adds_bind {A B} (m : M St A) (k : A -> M St B) :
  adds p m -> (forall a, adds p (k a)) -> adds p (bind m k).
Proof.
  intros Hm Hk s. unfold bind. destruct (Hm s) as (evs & L & F).
  destruct (m s) as [[a|e] s1]; cbn [fst snd] in *; [|now exists evs].
  destruct (Hk a s1) as (evs' & L' & F'). exists (evs ++ evs').
  rewrite L', L, forallb_app, F, F', app_assoc. now split.
Qed.

Lemma adds_try {A} (m : M St A) (h : exn -> M St A) :
  adds p m -> (forall e, adds p (h e)) -> adds p (try_except m h).
Proof.
  intros Hm Hh s. unfold try_except. destruct (Hm s) as (evs & L & F).
  destruct (m s) as [[a|e] s1]; cbn [fst snd] in *; [now exists evs|].
  destruct (Hh e s1) as (evs' & L' & F'). exists (evs ++ evs').
  rewrite L', L, forallb_app, F, F', app_assoc. now split.
Qed.

Lemma adds_emit e : p e = true -> adds p (update_world (emit e)).
Proof. intros H s. exists [e]. cbn. now rewrite H. Qed.

Lemma adds_fallible : adds p (fallible drv).
Proof.
  intros s. exists []. unfold fallible.
  destruct (raises drv (tick (snd s))); cbn; now rewrite app_nil_r.
Qed.

Lemma adds_get_self : adds p get_self.
Proof. intros s. exists []. cbn. now rewrite app_nil_r. Qed.

Lemma yields_log (ds : list Dict) : forall w,
  log (fold_left (fun w d => emit (EYield d) w) ds w) = log w ++ map EYield ds.
Proof.
  induction ds as [|d ds IH]; intros w; cbn [fold_left map].
  - now rewrite app_nil_r.
  - rewrite IH. cbn [emit log]. now rewrite <- app_assoc.
Qed.

Lemma adds_yields (ds : list Dict) :
  (forall d, p (EYield d) = true) ->
  adds p (update_world (fun w => fold_left (fun w d => emit (EYield d) w) ds w)).
Proof.
  intros Hy [self w]. exists (map EYield ds). unfold update_world.
  cbn [fst snd]. split; [apply yields_log|].
  induction ds as [|d ds IH]; [reflexivity|]. cbn. now rewrite Hy, IH.
Qed.

Lemma adds_rollback :
  (forall h, p (ERollback h) = true) -> adds p (conn_rollback drv).
Proof.
  intros Hr. unfold conn_rollback. apply adds_bind; [apply adds_get_self|].
  intros self. destruct (connection self); [|apply adds_raise].
  apply adds_bind; [now apply adds_emit|]. intros _.
  apply adds_bind; [apply adds_fallible|]. intros _. apply adds_ret.
Qed.

Lemma adds_guarded {A} (block : M St A) :
  (forall h, p (ERollback h) = true) ->
  adds p block -> adds p (guarded drv block).
Proof.
  intros Hr H. apply adds_try; [exact H|]. intros e.
  apply adds_bind; [now apply adds_rollback|]. intros _. apply adds_raise.
Qed.

Lemma adds_commit :
  (forall h, p (ECommit h) = true) -> adds p (conn_commit drv).
Proof.
  intros Hc. unfold conn_commit. apply adds_bind; [apply adds_get_self|].
  intros self. destruct (connection self); [|apply adds_raise].
  apply adds_bind; [now apply adds_emit|]. intros _.
  apply adds_bind; [apply adds_fallible|]. intros _. apply adds_ret.
Qed.

Lemma adds_cursor_execute cur sql :
  (forall c, p (EExecute c sql) = true) -> adds p (cursor_execute drv cur sql).
Proof.
  intros He. unfold cursor_execute. destruct cur as [[c]|]; [|apply adds_raise].
  apply adds_bind; [now apply adds_emit|]. intros _.
  apply adds_bind; [apply adds_fallible|]. intros t. apply adds_ret.
Qed.

Lemma adds_cursor_fetchall c rs :
  (forall c, p (EFetchall c) = true) -> adds p (cursor_fetchall drv c rs).
Proof.
  intros Hf. unfold cursor_fetchall. destruct c as [c].
  apply adds_bind; [now apply adds_emit|]. intros _.
  apply adds_bind; [apply adds_fallible|]. intros _. apply adds_ret.
Qed.

Lemma adds_cursor_fetchmany c n pending :
  (forall c, p (EFetchmany c n) = true) ->
  adds p (cursor_fetchmany drv c n pending).
Proof.
  intros Hf. unfold cursor_fetchmany. destruct c as [c].
  apply adds_bind; [now apply adds_emit|]. intros _.
  apply adds_bind; [apply adds_fallible|]. intros _. apply adds_ret.
Qed.

Lemma adds_column_names rs : adds p (column_names rs).
Proof.
  unfold column_names. destruct (description rs);
    [apply adds_ret | apply adds_raise].
Qed.

Lemma adds_fetch_loop c n rs :
  (forall c, p (EFetchmany c n) = true) ->
  (forall d, p (EYield d) = true) ->
  forall fuel pending, adds p (fetch_loop drv fuel c n rs pending).
Proof.
  intros Hf Hy. induction fuel as [|fuel IH]; intros pending; cbn [fetch_loop].
  - apply adds_ret.
  - apply adds_bind; [now apply adds_cursor_fetchmany|].
    intros chunk. destruct (fst chunk) as [|row rows]; [apply adds_ret|].
    apply adds_bind; [apply adds_column_names|].
    intros cols. apply adds_bind; [now apply adds_yields|]. intros _.
    apply adds_bind; [apply IH|]. intros more. apply adds_ret.
Qed.

End Adds.

(* ===================================================================== *)
(** * The connection across calls                                         *)
(* ===================================================================== *)

Section SessionKept.

Variable drv : Oracle.

Lemma keeps_ret {A} (a : A) : keeps_session (ret a).
Proof. intros s. now split. Qed.

Lemma keeps_raise {A} e : keeps_session (@raise St A e).
Proof. intros s. now split. Qed.

Lemma keeps_bind {A B} (m : M St A) (k : A -> M St B) :
  keeps_session m -> (forall a, keeps_session (k a)) -> keeps_session (bind m k).
Proof.
  intros Hm Hk s. unfold bind. specialize (Hm s).
  destruct (m s) as [[a|e] s1]; cbn [fst snd] in *; [|exact Hm].
  destruct (Hk a s1) as [K1 K2]. destruct Hm as [M1 M2].
  split; congruence.
Qed.

Lemma keeps_try {A} (m : M St A) (h : exn -> M St A) :
  keeps_session m -> (forall e, keeps_session (h e)) ->
  keeps_session (try_except m h).
Proof.
  intros Hm Hh s. unfold try_except. specialize (Hm s).
  destruct (m s) as [[a|e] s1]; cbn [fst snd] in *; [exact Hm|].
  destruct (Hh e s1) as [K1 K2]. destruct Hm as [M1 M2].
  split; congruence.
Qed.

Lemma keeps_emit e : keeps_session (update_world (emit e)).
Proof. intros s. now split. Qed.

Lemma keeps_fallible : keeps_session (fallible drv).
Proof.
  intros s. unfold fallible. destruct (raises drv (tick (snd s))); now split.
Qed.

Lemma keeps_get_self : keeps_session get_self.
Proof. intros s. now split. Qed.

Lemma keeps_yields (ds : list Dict) :
  keeps_session
    (update_world (fun w => fold_left (fun w d => emit (EYield d) w) ds w)).
Proof.
  intros [self w]. unfold update_world. cbn [fst snd]. split; [reflexivity|].
  revert w. induction ds as [|d ds IH]; intros w; [reflexivity|].
  cbn [fold_left]. now rewrite IH.
Qed.

Lemma keeps_rollback : keeps_session (conn_rollback drv).
Proof.
  unfold conn_rollback. apply keeps_bind; [apply keeps_get_self|].
  intros self. destruct (connection self); [|apply keeps_raise].
  apply keeps_bind; [apply keeps_emit|]. intros _.
  apply keeps_bind; [apply keeps_fallible|]. intros _. apply keeps_ret.
Qed.

Lemma keeps_commit : keeps_session (conn_commit drv).
Proof.
  unfold conn_commit. apply keeps_bind; [apply keeps_get_self|].
  intros self. destruct (connection self); [|apply keeps_raise].
  apply keeps_bind; [apply keeps_emit|]. intros _.
  apply keeps_bind; [apply keeps_fallible|]. intros _. apply keeps_ret.
Qed.

Lemma keeps_cursor_execute cur sql : keeps_session (cursor_execute drv cur sql).
Proof.
  unfold cursor_execute. destruct cur as [[c]|]; [|apply keeps_raise].
  apply keeps_bind; [apply keeps_emit|]. intros _.
  apply keeps_bind; [apply keeps_fallible|]. intros t. apply keeps_ret.
Qed.

Lemma keeps_cursor_fetchall c rs : keeps_session (cursor_fetchall drv c rs).
Proof.
  unfold cursor_fetchall. destruct c as [c].
  apply keeps_bind; [apply keeps_emit|]. intros _.
  apply keeps_bind; [apply keeps_fallible|]. intros _. apply keeps_ret.
Qed.

Lemma keeps_cursor_fetchmany c n pending :
  keeps_session (cursor_fetchmany drv c n pending).
Proof.
  unfold cursor_fetchmany. destruct c as [c].
  apply keeps_bind; [apply keeps_emit|]. intros _.
  apply keeps_bind; [apply keeps_fallible|]. intros _. apply keeps_ret.
Qed.

Lemma keeps_column_names rs : keeps_session (column_names rs).
Proof.
  unfold column_names. destruct (description rs);
    [apply keeps_ret | apply keeps_raise].
Qed.

Lemma keeps_fetch_loop c n rs : forall fuel pending,
  keeps_session (fetch_loop drv fuel c n rs pending).
Proof.
  induction fuel as [|fuel IH]; intros pending; cbn [fetch_loop].
  - apply keeps_ret.
  - apply keeps_bind; [apply keeps_cursor_fetchmany|]. intros chunk.
    destruct (fst chunk) as [|row rows]; [apply keeps_ret|].
    apply keeps_bind; [apply keeps_column_names|]. intros cols.
    apply keeps_bind; [apply keeps_yields|]. intros _.
    apply keeps_bind; [apply IH|]. intros more. apply keeps_ret.
Qed.

(** The block of the [with] statement together with the handler of
    [get_cursor], once [_connect] has answered true. *)
Lemma get_cursor_connected {A} (body : option Cursor -> M St A) st st1 :
  _connect drv st = (Return true, st1) ->
  get_cursor drv body st = guarded drv (body (cursor (fst st1))) st1.
Proof.
  intros Hc. unfold get_cursor, bind at 1. rewrite Hc. cbn [negb].
  unfold bind at 1, get_self at 1. reflexivity.
Qed.

Lemma keeps_guarded {A} (m : M St A) :
  keeps_session m -> keeps_session (guarded drv m).
Proof.
  intros Hm. apply keeps_try; [exact Hm|]. intros e.
  apply keeps_bind; [apply keeps_rollback|]. intros _. apply keeps_raise.
Qed.

(** X19: once [_connect] has answered true, none of the three operations
    touches the connection again, whether it returns or raises: the
    object ([config], [connection], [cursor]) is as [_connect] left it,
    and what the trace gains holds no connect, cursor, close or sleep
    call; a statement that failed is followed by the rollback, not by a
    close or a new attempt to connect. *)
Theorem call_leaves_connection_alone (sql : str) (chunk : Z) (st st1 : St) :
  is_blank sql = false ->
  _connect drv st = (Return true, st1) ->
  forall st2,
    st2 = snd (execute drv sql st) \/
    st2 = snd (execute_modify drv sql st) \/
    st2 = snd (query_generator drv sql chunk st) ->
    fst st2 = fst st1 /\
    exists tail,
      log (snd st2) = log (snd st1) ++ tail /\
      forallb offline tail = true.
Proof.
  intros Hb Hc st2 Hop.
  assert (R : forall h, offline (ERollback h) = true) by reflexivity.
  destruct Hop as [-> | [-> | ->]];
    unfold execute, execute_modify, query_generator; rewrite ?Hb;
    rewrite (get_cursor_connected _ st st1 Hc).
  - split.
    + apply keeps_guarded.
      apply keeps_bind; [apply keeps_cursor_execute|]. intros rs.
      destruct (has_result_set rs); [|apply keeps_ret].
      apply keeps_bind; [apply keeps_column_names|]. intros cols.
      destruct (cursor (fst st1)) as [c|]; [|apply keeps_raise].
      apply keeps_bind; [apply keeps_cursor_fetchall|]. intros rows.
      apply keeps_ret.
    + apply (adds_guarded drv offline _ R).
      apply adds_bind; [now apply adds_cursor_execute|]. intros rs.
      destruct (has_result_set rs); [|apply adds_ret].
      apply adds_bind; [apply adds_column_names|]. intros cols.
      destruct (cursor (fst st1)) as [c|]; [|apply adds_raise].
      apply adds_bind; [now apply adds_cursor_fetchall|]. intros rows.
      apply adds_ret.
  - split.
    + apply keeps_guarded.
      apply keeps_bind; [apply keeps_cursor_execute|]. intros rs.
      apply keeps_bind; [apply keeps_commit|]. intros _. apply keeps_ret.
    + apply (adds_guarded drv offline _ R).
      apply adds_bind; [now apply adds_cursor_execute|]. intros rs.
      apply adds_bind; [now apply adds_commit|]. intros _. apply adds_ret.
  - split.
    + apply keeps_guarded.
      apply keeps_bind; [apply keeps_cursor_execute|]. intros rs.
      destruct (cursor (fst st1)) as [c|]; [|apply keeps_raise].
      apply keeps_fetch_loop.
    + apply (adds_guarded drv offline _ R).
      apply adds_bind; [now apply adds_cursor_execute|]. intros rs.
      destruct (cursor (fst st1)) as [c|]; [|apply adds_raise].
      now apply adds_fetch_loop.
Qed.

End SessionKept.

Lemma call_leaves_connection_alone_witness :
  fst (snd (execute (driver_lost_at 2 country_rows) (lit "SELECT 1")
              (sample_connection 3 2, quiet_world)))
  = fst (snd (_connect (driver_lost_at 2 country_rows)
                (sample_connection 3 2, quiet_world))).
Proof.
  apply (call_leaves_connection_alone (driver_lost_at 2 country_rows)
           (lit "SELECT 1") 10 (sample_connection 3 2, quiet_world)
           (snd (_connect (driver_lost_at 2 country_rows)
                   (sample_connection 3 2, quiet_world)))).
  - reflexivity.
  - vm_compute. reflexivity.
  - left. reflexivity.
Defined.

(* ===================================================================== *)
(** * What a call sends                                                   *)
(* ===================================================================== *)

Section Sent.

Variable drv : Oracle.

Lemma mute_ret {A} (a : A) : mute (ret a).
Proof. apply adds_ret. Qed.

Lemma mute_raise {A} e : mute (@raise St A e).
Proof. apply adds_raise. Qed.

Lemma mute_bind {A B} (m : M St A) (k : A -> M St B) :
  mute m -> (forall a, mute (k a)) -> mute (bind m k).
Proof. apply adds_bind. Qed.

Lemma mute_rollback : mute (conn_rollback drv).
Proof. now apply adds_rollback. Qed.

Lemma mute_handler {A} e :
  mute (bind (conn_rollback drv) (fun _ => @raise St A e)).
Proof. apply mute_bind; [apply mute_rollback|]. intros _. apply mute_raise. Qed.

Lemma handler_raises {A} e s :
  is_return (fst (bind (conn_rollback drv) (fun _ => @raise St A e) s)) = false.
Proof. unfold bind. now destruct (conn_rollback drv s) as [[u|e'] s2]. Qed.

Lemma mute_guarded {A} (block : M St A) : mute block -> mute (guarded drv block).
Proof. now apply adds_guarded. Qed.

Lemma mute_connect : mute (_connect drv).
Proof.
  intros s.
  destruct (connect_loop_events drv
              (range (reconnect_attempts (fst s) + 1)) s) as (evs & L & F).
  exists evs. split; [exact L|].
  clear L. induction evs as [|e evs IH]; [reflexivity|].
  cbn [forallb] in *. apply andb_prop in F. destruct F as [Fe F].
  rewrite (IH F). now destruct e.
Qed.

Lemma mute_cursor_fetchall c rs : mute (cursor_fetchall drv c rs).
Proof. now apply adds_cursor_fetchall. Qed.

Lemma mute_column_names rs : mute (column_names rs).
Proof. apply adds_column_names. Qed.

Lemma mute_fetch_loop c n rs : forall fuel pending,
  mute (fetch_loop drv fuel c n rs pending).
Proof. now apply adds_fetch_loop. Qed.

Lemma silent_tail evs tail :
  forallb silent tail = true ->
  statements (evs ++ tail) = statements evs /\
  count is_commit (evs ++ tail) = count is_commit evs.
Proof.
  intros F.
  assert (S0 : statements tail = [] /\ count is_commit tail = 0%nat).
  { induction tail as [|e tail IH]; [now split|].
    cbn [forallb] in F. apply andb_prop in F. destruct F as [Fe F].
    destruct (IH F) as [I1 I2]. unfold count in *.
    destruct e; try discriminate; cbn; auto. }
  destruct S0 as [S1 S2]. unfold count in *.
  rewrite statements_app, filter_app, length_app, S1, S2, app_nil_r.
  split; [reflexivity | lia].
Qed.

Lemma silent_head evs0 evs :
  forallb silent evs0 = true ->
  statements (evs0 ++ evs) = statements evs /\
  count is_commit (evs0 ++ evs) = count is_commit evs.
Proof.
  intros F. destruct (silent_tail [] evs0 F) as [S1 S2]. unfold count in *.
  cbn [app] in S1, S2.
  rewrite statements_app, filter_app, length_app, S1, S2.
  split; reflexivity.
Qed.

(** The three ways [cursor.execute] leaves a guarded block: there is no
    cursor, the driver raises, or the rest of the block runs. *)
Lemma guarded_execute {A} (rest : ResultSet -> M St A) cur sql (s : St) :
  (cur = None /\
   guarded drv (bind (cursor_execute drv cur sql) rest) s
   = bind (conn_rollback drv)
       (fun _ => raise (AttributeError
                          "'NoneType' object has no attribute 'execute'")) s) \/
  (exists c e,
     cur = Some (CursorOf c) /\
     guarded drv (bind (cursor_execute drv cur sql) rest) s
     = bind (conn_rollback drv) (fun _ => raise (DbError e))
         (fst s, bump (emit (EExecute c sql) (snd s)))) \/
  (exists c,
     cur = Some (CursorOf c) /\
     guarded drv (bind (cursor_execute drv cur sql) rest) s
     = guarded drv (rest (answer drv (tick (snd s)) sql))
         (fst s, bump (emit (EExecute c sql) (snd s)))).
Proof.
  destruct cur as [[c]|].
  - destruct (raises drv (tick (snd s))) as [e|] eqn:R.
    + right. left. exists c, e. split; [reflexivity|].
      unfold guarded, try_except, bind at 1. run_py. now rewrite R.
    + right. right. exists c. split; [reflexivity|].
      unfold guarded, try_except, bind at 1. run_py. now rewrite R.
  - left. split; reflexivity.
Qed.

(** What a guarded block adds when the rest after [cursor.execute] is
    mute: the statement at most once, and exactly once if it returns. *)
Lemma block_trace {A} (rest : ResultSet -> M St A) cur sql (s : St) :
  (forall rs, mute (rest rs)) ->
  exists evs,
    log (snd (snd (guarded drv (bind (cursor_execute drv cur sql) rest) s)))
    = log (snd s) ++ evs /\
    sent_at_most sql evs /\
    count is_commit evs = 0%nat /\
    (is_return (fst (guarded drv (bind (cursor_execute drv cur sql) rest) s)) = true ->
     statements evs = [sql]).
Proof.
  intros Hrest.
  destruct (guarded_execute rest cur sql s)
    as [[_ E] | [(c & e & _ & E) | (c & _ & E)]]; rewrite E.
  - destruct (mute_handler (A:=A)
                (AttributeError "'NoneType' object has no attribute 'execute'") s)
      as (tail & L & F).
    exists tail. split; [exact L|].
    destruct (silent_tail [] tail F) as [S1 S2]. cbn [app] in S1, S2.
    split; [now left|]. split; [exact S2|].
    now rewrite handler_raises.
  - destruct (mute_handler (A:=A) (DbError e)
                (fst s, bump (emit (EExecute c sql) (snd s)))) as (tail & L & F).
    exists ([EExecute c sql] ++ tail). cbn [snd bump emit log] in L.
    rewrite L, <- app_assoc. split; [reflexivity|].
    destruct (silent_tail [EExecute c sql] tail F) as [S1 S2].
    split; [right; exact S1|]. split; [exact S2|].
    now rewrite handler_raises.
  - destruct (mute_guarded _ (Hrest (answer drv (tick (snd s)) sql))
                (fst s, bump (emit (EExecute c sql) (snd s)))) as (tail & L & F).
    exists ([EExecute c sql] ++ tail). cbn [snd bump emit log] in L.
    rewrite L, <- app_assoc. split; [reflexivity|].
    destruct (silent_tail [EExecute c sql] tail F) as [S1 S2].
    split; [right; exact S1|]. split; [exact S2|]. intros _. exact S1.
Qed.

(** The block of [execute_modify]: one commit at most, after the
    statement, and exactly one if it returns. *)
Lemma modify_trace cur sql (s : St) :
  exists evs,
    log (snd (snd (guarded drv
                     (bind (cursor_execute drv cur sql)
                        (fun rs => bind (conn_commit drv)
                                     (fun _ => ret (rowcount rs)))) s)))
    = log (snd s) ++ evs /\
    sent_at_most sql evs /\
    (count is_commit evs <= 1)%nat /\
    (count is_commit evs = 1%nat -> statements evs = [sql]) /\
    (is_return (fst (guarded drv
                       (bind (cursor_execute drv cur sql)
                          (fun rs => bind (conn_commit drv)
                                       (fun _ => ret (rowcount rs)))) s)) = true ->
     statements evs = [sql] /\ count is_commit evs = 1%nat).
Proof.
  destruct (guarded_execute
              (fun rs => bind (conn_commit drv) (fun _ => ret (rowcount rs)))
              cur sql s)
    as [[_ E] | [(c & e & _ & E) | (c & _ & E)]]; rewrite E.
  - destruct (mute_handler (A:=Z)
                (AttributeError "'NoneType' object has no attribute 'execute'") s)
      as (tail & L & F).
    exists tail. split; [exact L|].
    destruct (silent_tail [] tail F) as [S1 S2]. cbn [app] in S1, S2.
    rewrite S2. split; [now left|]. split; [cbn; lia|].
    split; [discriminate|]. now rewrite handler_raises.
  - destruct (mute_handler (A:=Z) (DbError e)
                (fst s, bump (emit (EExecute c sql) (snd s)))) as (tail & L & F).
    exists ([EExecute c sql] ++ tail). cbn [snd bump emit log] in L.
    rewrite L, <- app_assoc. split; [reflexivity|].
    destruct (silent_tail [EExecute c sql] tail F) as [S1 S2].
    rewrite S2. split; [right; exact S1|]. split; [cbn; lia|].
    split; [intros _; exact S1|]. now rewrite handler_raises.
  - set (rs := answer drv (tick (snd s)) sql).
    destruct (connection (fst s)) as [h|] eqn:Hh.
    + destruct (raises drv (S (tick (snd s)))) as [e|] eqn:R.
      * assert (E2 : guarded drv (bind (conn_commit drv) (fun _ => ret (rowcount rs))) (fst s, bump (emit (EExecute c sql) (snd s)))
                     = bind (conn_rollback drv) (fun _ => raise (DbError e))
                         (fst s, bump (emit (ECommit h) (bump (emit (EExecute c sql) (snd s)))))).
        { unfold guarded, try_except, bind at 1, conn_commit. 
          run_py. rewrite Hh. run_py. rewrite R. run_py. rewrite ?Hh.
          reflexivity. }
        rewrite E2.
        destruct (mute_handler (A:=Z) (DbError e)
                    (fst s, bump (emit (ECommit h) (bump (emit (EExecute c sql) (snd s)))))) as (tail & L & F).
        exists ([EExecute c sql; ECommit h] ++ tail).
        cbn [snd bump emit log] in L.
        rewrite L, <- !app_assoc. split; [reflexivity|].
        destruct (silent_tail [EExecute c sql; ECommit h] tail F) as [S1 S2].
        rewrite S2. split; [right; exact S1|]. split; [cbn; lia|].
        split; [intros _; exact S1|]. now rewrite handler_raises.
      * assert (E2 : guarded drv (bind (conn_commit drv) (fun _ => ret (rowcount rs))) (fst s, bump (emit (EExecute c sql) (snd s)))
                     = (Return (rowcount rs),
                        (fst s, bump (emit (ECommit h) (bump (emit (EExecute c sql) (snd s))))))).
        { unfold guarded, try_except, bind at 1, conn_commit. 
          run_py. rewrite Hh. run_py. rewrite R. run_py. rewrite ?Hh.
          reflexivity. }
        rewrite E2. exists [EExecute c sql; ECommit h].
        cbn [fst snd bump emit log is_return].
        rewrite <- app_assoc. split; [reflexivity|].
        split; [now right|]. split; [cbn; lia|]. now split.
    + assert (E2 : guarded drv (bind (conn_commit drv) (fun _ => ret (rowcount rs))) (fst s, bump (emit (EExecute c sql) (snd s)))
                   = bind (conn_rollback drv)
                       (fun _ => raise (AttributeError
                                          "'NoneType' object has no attribute 'commit'"))
                       (fst s, bump (emit (EExecute c sql) (snd s)))).
      { unfold guarded, try_except, bind at 1, conn_commit. 
        run_py. rewrite Hh. run_py. rewrite ?Hh. reflexivity. }
      rewrite E2.
      destruct (mute_handler (A:=Z)
                  (AttributeError "'NoneType' object has no attribute 'commit'")
                  (fst s, bump (emit (EExecute c sql) (snd s))))
        as (tail & L & F).
      exists ([EExecute c sql] ++ tail). cbn [snd bump emit log] in L.
      rewrite L, <- app_assoc. split; [reflexivity|].
      destruct (silent_tail [EExecute c sql] tail F) as [S1 S2].
      rewrite S2. split; [right; exact S1|]. split; [cbn; lia|].
      split; [intros _; exact S1|]. now rewrite handler_raises.
Qed.

(** What [get_cursor] adds around a guarded block. *)
Lemma get_cursor_trace {A} (body : option Cursor -> M St A)
    (Q : bool -> list Event -> Prop) (st : St) :
  Q false [] ->
  (forall evs0 evs r, forallb silent evs0 = true -> Q r evs -> Q r (evs0 ++ evs)) ->
  (forall st1, exists evs,
     log (snd (snd (guarded drv (body (cursor (fst st1))) st1)))
     = log (snd st1) ++ evs /\
     Q (is_return (fst (guarded drv (body (cursor (fst st1))) st1))) evs) ->
  exists evs,
    log (snd (snd (get_cursor drv body st))) = log (snd st) ++ evs /\
    Q (is_return (fst (get_cursor drv body st))) evs.
Proof.
  intros Q0 Qc Hb. destruct (mute_connect st) as (evs0 & L0 & F0).
  assert (Q1 : Q false evs0).
  { rewrite <- (app_nil_r evs0). now apply Qc. }
  destruct (_connect drv st) as [[[]|e] st1] eqn:Hc; cbn [fst snd] in L0.
  - rewrite (get_cursor_connected drv body st st1 Hc).
    destruct (Hb st1) as (evs & L & HQ).
    exists (evs0 ++ evs). rewrite L, L0, app_assoc.
    split; [reflexivity | now apply Qc].
  - rewrite (get_cursor_unconnected drv body st st1 Hc). cbn [fst snd is_return].
    now exists evs0.
  - assert (E : get_cursor drv body st = (Raise e, st1)).
    { unfold get_cursor, bind at 1. now rewrite Hc. }
    rewrite E. cbn [fst snd is_return]. now exists evs0.
Qed.

(** X20: whatever the driver does and however the call ends, [execute],
    [execute_modify] and [query_generator] send the statement they were
    given at most once and no other statement; the call that returns has
    sent it exactly once.  [execute] and [query_generator] never commit;
    [execute_modify] commits at most once, only after the statement was
    sent, and exactly once when it returns. *)
Theorem statement_sent_at_most_once (sql : str) (chunk : Z) (st : St) :
  (exists evs,
     log (snd (snd (execute drv sql st))) = log (snd st) ++ evs /\
     sent_at_most sql evs /\
     count is_commit evs = 0%nat /\
     (forall rows, fst (execute drv sql st) = Return rows ->
                   statements evs = [sql])) /\
  (exists evs,
     log (snd (snd (execute_modify drv sql st))) = log (snd st) ++ evs /\
     sent_at_most sql evs /\
     (count is_commit evs <= 1)%nat /\
     (count is_commit evs = 1%nat -> statements evs = [sql]) /\
     (forall n, fst (execute_modify drv sql st) = Return n ->
                statements evs = [sql] /\ count is_commit evs = 1%nat)) /\
  (exists evs,
     log (snd (snd (query_generator drv sql chunk st))) = log (snd st) ++ evs /\
     sent_at_most sql evs /\
     count is_commit evs = 0%nat /\
     (forall rows, fst (query_generator drv sql chunk st) = Return rows ->
                   statements evs = [sql])).
Proof.
  assert (Lift : forall evs0 evs r,
            forallb silent evs0 = true ->
            sent_at_most sql evs /\ count is_commit evs = 0%nat /\
            (r = true -> statements evs = [sql]) ->
            sent_at_most sql (evs0 ++ evs) /\
            count is_commit (evs0 ++ evs) = 0%nat /\
            (r = true -> statements (evs0 ++ evs) = [sql])).
  { intros evs0 evs r F (H1 & H2 & H3).
    destruct (silent_head evs0 evs F) as [S1 S2]. unfold sent_at_most.
    now rewrite S1, S2. }
  split; [|split].
  - unfold execute. destruct (is_blank sql).
    { exists []. cbn. rewrite app_nil_r. split; [reflexivity|].
      split; [now left|]. split; [reflexivity | discriminate]. }
    destruct (get_cursor_trace
                (fun cur =>
                   bind (cursor_execute drv cur sql)
                     (fun rs =>
                        if has_result_set rs then
                          bind (column_names rs)
                            (fun columns =>
                               match cur with
                               | Some c =>
                                   bind (cursor_fetchall drv c rs)
                                     (fun rows =>
                                        ret (map (fun row => dict_of (combine columns row)) rows))
                               | None =>
                                   raise (AttributeError
                                            "'NoneType' object has no attribute 'fetchall'")
                               end)
                        else ret []))
                (fun r evs => sent_at_most sql evs /\ count is_commit evs = 0%nat /\
                              (r = true -> statements evs = [sql])) st)
      as (evs & L & Q1 & Q2 & Q3).
    + split; [now left|]. split; [reflexivity | discriminate].
    + exact Lift.
    + intros st1. apply block_trace. intros rs.
      destruct (has_result_set rs); [|apply mute_ret].
      apply mute_bind; [apply mute_column_names|]. intros cols.
      destruct (cursor (fst st1)) as [c|]; [|apply mute_raise].
      apply mute_bind; [apply mute_cursor_fetchall|]. intros rows.
      apply mute_ret.
    + exists evs. split; [exact L|]. split; [exact Q1|]. split; [exact Q2|].
      intros rows Hr. apply Q3. now rewrite Hr.
  - unfold execute_modify. destruct (is_blank sql).
    { exists []. cbn. rewrite app_nil_r. split; [reflexivity|].
      split; [now left|]. split; [lia|]. split; discriminate. }
    destruct (get_cursor_trace
                (fun cur =>
                   bind (cursor_execute drv cur sql)
                     (fun rs => bind (conn_commit drv)
                                  (fun _ => ret (rowcount rs))))
                (fun r evs => sent_at_most sql evs /\
                              (count is_commit evs <= 1)%nat /\
                              (count is_commit evs = 1%nat -> statements evs = [sql]) /\
                              (r = true -> statements evs = [sql] /\
                                           count is_commit evs = 1%nat)) st)
      as (evs & L & Q1 & Q2 & Q3 & Q4).
    + split; [now left|]. split; [cbn; lia|]. split; discriminate.
    + intros evs0 evs r F (H1 & H2 & H3 & H4).
      destruct (silent_head evs0 evs F) as [S1 S2]. unfold sent_at_most.
      now rewrite S1, S2.
    + intros st1. apply modify_trace.
    + exists evs. split; [exact L|]. split; [exact Q1|]. split; [exact Q2|].
      split; [exact Q3|]. intros n Hr. apply Q4. now rewrite Hr.
  - unfold query_generator.
    destruct (get_cursor_trace
                (fun cur =>
                   bind (cursor_execute drv cur sql)
                     (fun rs =>
                        match cur with
                        | Some c =>
                            fetch_loop drv (S (List.length (unread rs))) c
                              chunk rs (unread rs)
                        | None =>
                            raise (AttributeError
                                     "'NoneType' object has no attribute 'fetchmany'")
                        end))
                (fun r evs => sent_at_most sql evs /\ count is_commit evs = 0%nat /\
                              (r = true -> statements evs = [sql])) st)
      as (evs & L & Q1 & Q2 & Q3).
    + split; [now left|]. split; [reflexivity | discriminate].
    + exact Lift.
    + intros st1. apply block_trace. intros rs.
      destruct (cursor (fst st1)) as [c|]; [|apply mute_raise].
      apply mute_fetch_loop.
    + exists evs. split; [exact L|]. split; [exact Q1|]. split; [exact Q2|].
      intros rows Hr. apply Q3. now rewrite Hr.
Qed.

End Sent.
